(** * TwitchDropsMiner, NiceGUI web interface: a shallow embedding

    The development follows the layout of the Python sources:

    - [pystr]: the few [str] methods the code calls ([lower], [split],
      [strip], [in]);
    - [controller]: the objects the web interface reads from the miner
      (campaigns, drops, settings), seen through [hasattr]/[getattr];
    - [utils]: [src/webui/utils.py];
    - [webui_py]: the older one-file interface [src/webui.py];
    - [nicegui]: the NiceGUI elements the interface builds;
    - [manager], [main_panel], [inventory_panel], [mock_classes]: the
      package [src/webui/];
    - [aio]: [WebUIManager.close], [prevent_close] and
      [coro_unless_closed] over a small model of the asyncio objects they
      use.

    The definitions come first; the statements about them follow, one
    section per subject.

    A Python attribute that the code probes with [hasattr] or reads with
    [getattr(obj, name, default)] is an [option] field: [None] is an absent
    attribute.  A dictionary read with [d.get(key, default)] is read with
    [default]; a dictionary indexed with [d[key]] raises [KeyError] when the
    key is absent, which the embedding returns as [None]. *)

From Stdlib Require Import Ascii String QArith Lqa.
From stdpp Require Import base strings list gmap pretty.

(** ** Python strings *)

Module pystr.

(** A [str] is held as the bytes of its UTF-8 encoding: an ASCII
    character is one byte, every other character is a sequence of bytes
    from 128 on, and no byte of such a sequence is in the ASCII range. *)

(** [str.lower] on the ASCII range.  Outside ASCII the only code points
    whose lowercase form contains an ASCII letter are U+212A (to [k]) and
    U+0130 (to [i] followed by a combining dot); no status word compared
    against in this program contains [k], and the second never yields a
    plain ASCII word, so the comparisons made on lowered strings are the
    same as with the full Unicode tables. *)
Definition lower_ascii (c : ascii) : ascii :=
  let n := nat_of_ascii c in
  if (65 <=? n)%nat && (n <=? 90)%nat then ascii_of_nat (n + 32) else c.

Fixpoint lower (s : string) : string :=
  match s with
  | EmptyString => EmptyString
  | String c s' => String (lower_ascii c) (lower s')
  end.

(** [sep in s] for a one-character [sep]. *)
Fixpoint contains (sep : ascii) (s : string) : bool :=
  match s with
  | EmptyString => false
  | String c s' => if Ascii.eqb c sep then true else contains sep s'
  end.

(** [s.split(sep)] for a one-character [sep]: never the empty list. *)
Fixpoint split (sep : ascii) (s : string) : list string :=
  match s with
  | EmptyString => [EmptyString]
  | String c s' =>
      if Ascii.eqb c sep then EmptyString :: split sep s'
      else match split sep s' with
           | [] => [String c EmptyString]
           | w :: ws => String c w :: ws
           end
  end.

(** ASCII white space as [str.isspace] has it: TAB, LF, VT, FF, CR, the
    separators 28 to 31 and the space. *)
Definition isspace (c : ascii) : bool :=
  let n := nat_of_ascii c in
  ((9 <=? n)%nat && (n <=? 13)%nat) || ((28 <=? n)%nat && (n <=? 32)%nat).

(** The white space of two bytes: U+0085 and U+00A0 (C2 85, C2 A0). *)
Definition isspace2 (c1 c2 : ascii) : bool :=
  let n1 := nat_of_ascii c1 in
  let n2 := nat_of_ascii c2 in
  (n1 =? 194)%nat && ((n2 =? 133)%nat || (n2 =? 160)%nat).

(** The white space of three bytes: U+1680 (E1 9A 80), U+2000 to U+200A,
    U+2028, U+2029 and U+202F (E2 80 80 to 8A, A8, A9, AF), U+205F
    (E2 81 9F) and U+3000 (E3 80 80). *)
Definition isspace3 (c1 c2 c3 : ascii) : bool :=
  let n1 := nat_of_ascii c1 in
  let n2 := nat_of_ascii c2 in
  let n3 := nat_of_ascii c3 in
  ((n1 =? 225)%nat && (n2 =? 154)%nat && (n3 =? 128)%nat)
  || ((n1 =? 226)%nat && (n2 =? 128)%nat
      && (((128 <=? n3)%nat && (n3 <=? 138)%nat)
          || (n3 =? 168)%nat || (n3 =? 169)%nat || (n3 =? 175)%nat))
  || ((n1 =? 226)%nat && (n2 =? 129)%nat && (n3 =? 159)%nat)
  || ((n1 =? 227)%nat && (n2 =? 128)%nat && (n3 =? 128)%nat).

(** Truth value of [s.strip()]: some character is not white space, as
    [str.isspace] has it over all of Unicode. *)
Fixpoint strip_nonempty (s : string) : bool :=
  match s with
  | EmptyString => false
  | String c1 s1 =>
      if isspace c1 then strip_nonempty s1
      else
        match s1 with
        | EmptyString => true
        | String c2 s2 =>
            if isspace2 c1 c2 then strip_nonempty s2
            else
              match s2 with
              | EmptyString => true
              | String c3 s3 =>
                  if isspace3 c1 c2 c3 then strip_nonempty s3 else true
              end
        end
  end.

(** A line boundary of [str.splitlines] of one byte, CR apart: LF, VT,
    FF, FS, GS and RS. *)
Definition linebreak (c : ascii) : bool :=
  let n := nat_of_ascii c in
  ((10 <=? n)%nat && (n <=? 12)%nat) || ((28 <=? n)%nat && (n <=? 30)%nat).

(** [c] goes in front of the first of the lines that follow it. *)
Definition line_cons (c : ascii) (ls : list string) : list string :=
  match ls with
  | [] => [String c EmptyString]
  | l :: ls' => String c l :: ls'
  end.

(** [s.splitlines()]: the lines of [s] without their boundaries, which
    are LF, VT, FF, FS, GS, RS, CR, CR LF taken as one, U+0085 (C2 85),
    U+2028 and U+2029 (E2 80 A8, E2 80 A9); no empty line for a boundary
    at the end, and no line at all for the empty string. *)
Fixpoint splitlines (s : string) : list string :=
  match s with
  | EmptyString => []
  | String c1 s1 =>
      let n1 := nat_of_ascii c1 in
      if linebreak c1 then EmptyString :: splitlines s1
      else
        match s1 with
        | EmptyString =>
            if (n1 =? 13)%nat then [EmptyString] else [String c1 EmptyString]
        | String c2 s2 =>
            let n2 := nat_of_ascii c2 in
            if (n1 =? 13)%nat then
              if (n2 =? 10)%nat then EmptyString :: splitlines s2
              else EmptyString :: splitlines s1
            else if (n1 =? 194)%nat && (n2 =? 133)%nat
            then EmptyString :: splitlines s2
            else
              match s2 with
              | EmptyString => line_cons c1 (splitlines s1)
              | String c3 s3 =>
                  let n3 := nat_of_ascii c3 in
                  if (n1 =? 226)%nat && (n2 =? 128)%nat
                     && ((n3 =? 168)%nat || (n3 =? 169)%nat)
                  then EmptyString :: splitlines s3
                  else line_cons c1 (splitlines s1)
              end
        end
  end.

(** [str(b)] for a [bool], as an f-string prints it. *)
Definition of_bool (b : bool) : string := if b then "True" else "False".

Definition newline : ascii := ascii_of_nat 10.

End pystr.

(** ** What the controller hands to the interface *)

Module controller.

(** Modelled from the spec: the classes of games, drops, campaigns and
    settings belong to the miner, outside the web interface's sources.
    The records have the attributes that the interface reads (section 6 of
    the specification lists them), each of them optional, since the code
    probes for most of them before reading. *)
Record Game := { game_name : option string }.

(** A timed drop; minutes are Python [int]s. *)
Record Drop := {
  current_minutes : option Z;
  required_minutes : option Z
}.

Record Campaign := {
  id : option string;
  name : option string;
  game : option Game;
  active : option bool;
  upcoming : option bool;
  expired : option bool;
  eligible : option bool;
  drops : option (list Drop);
  progress : option Q
}.

(** [twitch.settings]; [exclude] is the set of excluded game names. *)
Record Settings := { exclude : option (gset string) }.

Record Twitch := {
  inventory : option (list Campaign);
  settings : option Settings
}.

(** [hasattr(obj, a) and obj.a] for a boolean attribute. *)
Definition has_and_true (a : option bool) : bool := default false a.

End controller.

(** The dictionary the interface stores per campaign.  The code builds it
    with all six keys, and reads it back with [.get], so that an entry
    lacking a key (a test entry) is served too. *)
Record campaign_data := {
  cd_name : option string;
  cd_game : option string;
  cd_status : option string;
  cd_progress : option Q;
  cd_time_remaining : option string;
  cd_campaign_obj : option controller.Campaign
}.

(** The six filter names of [WebUIManager._inventory_filters]. *)
Definition filter_names : list string :=
  ["not_linked"; "upcoming"; "active"; "expired"; "excluded"; "finished"].

(** All six flags present and [False]. *)
Definition all_flags_off (filters : gmap string bool) : Prop :=
  Forall (λ k, filters !! k = Some false) filter_names.

(** The four lifecycle buckets a lowered status is compared with. *)
Definition bucket_names : list string :=
  ["upcoming"; "active"; "expired"; "finished"].

(** ** [src/webui/utils.py] *)

Module utils.
Import controller.

Definition get_campaign_status (campaign : Campaign) : string :=
  if has_and_true (active campaign) then "Active"
  else if has_and_true (upcoming campaign) then "Upcoming"
  else if has_and_true (expired campaign) then "Expired"
  else "Unknown".

(** The loop body of [get_campaign_progress]: [Some p] when the drop makes
    the function return [p], [None] when the loop goes on. *)
Definition drop_progress (drop : Drop) : option Q :=
  match current_minutes drop, required_minutes drop with
  | Some cur, Some req =>
      if (0 <? req)%Z then Some ((inject_Z cur / inject_Z req) * 100)%Q
      else None
  | _, _ => None
  end.

Fixpoint first_drop_progress (ds : list Drop) : Q :=
  match ds with
  | [] => 0%Q
  | d :: ds' =>
      match drop_progress d with
      | Some p => p
      | None => first_drop_progress ds'
      end
  end.

(** Python computes the quotient in binary floating point; the embedding
    computes it in [Q]. *)
Definition get_campaign_progress (campaign : Campaign) : Q :=
  match drops campaign with
  | Some ds => first_drop_progress ds
  | None => 0%Q
  end.

Definition should_show_campaign_with_filters
    (campaign_data : campaign_data) (filters : gmap string bool) : bool :=
  let campaign := cd_campaign_obj campaign_data in
  let show_not_linked := default false (filters !! "not_linked") in
  let show_upcoming := default false (filters !! "upcoming") in
  let show_active := default false (filters !! "active") in
  let show_expired := default false (filters !! "expired") in
  let show_excluded := default false (filters !! "excluded") in
  let show_finished := default false (filters !! "finished") in
  let status := pystr.lower (default "" (cd_status campaign_data)) in
  match campaign with
  | None =>
      let any_filter_enabled :=
        show_not_linked || show_upcoming || show_active || show_expired
        || show_excluded || show_finished in
      if negb any_filter_enabled then false
      else if String.eqb status "upcoming" then show_upcoming
      else if String.eqb status "active" then show_active
      else if String.eqb status "expired" then show_expired
      else if String.eqb status "finished" then show_finished
      else false
  | Some campaign =>
      let eligible := default true (eligible campaign) in
      if show_not_linked && negb eligible then false
      else if String.eqb status "upcoming" then show_upcoming
      else if String.eqb status "active" then show_active
      else if String.eqb status "expired" then show_expired
      else if String.eqb status "finished" then show_finished
      else true
  end.

End utils.

(** ** [src/webui.py], the one-file interface *)

Module webui_py.
Import controller.

(** [WebUIManager._get_campaign_status]: the attributes are read without
    a probe, [upcoming] only when the campaign is not active; [None] is
    the [AttributeError] of a missing one. *)
Definition _get_campaign_status (campaign : Campaign) : option string :=
  active ← active campaign;
  if (active : bool) then Some "Active"
  else
    upcoming ← upcoming campaign;
    Some (if (upcoming : bool) then "Upcoming" else "Expired").

(** [WebUIManager._get_campaign_progress]: [campaign.drops] is read
    without a probe, so a campaign without the attribute raises
    ([None]). *)
Definition _get_campaign_progress (campaign : Campaign) : option Q :=
  match drops campaign with
  | Some ds => Some (utils.first_drop_progress ds)
  | None => None
  end.

(** The [excluded] test at the end of [_should_show_campaign]:
    [true] when the campaign is to be hidden. *)
Definition hidden_as_excluded
    (twitch : Twitch) (campaign : Campaign) (show_excluded : bool) : bool :=
  match game campaign, settings twitch with
  | Some g, Some st =>
      let game_name := default "" (game_name g) in
      let is_excluded :=
        bool_decide (game_name ∈ default (∅ : gset string) (exclude st)) in
      is_excluded && negb show_excluded
  | _, _ => false
  end.

(** [WebUIManager._should_show_campaign]; [None] is the [KeyError] of a
    missing filter key.  The two [self.print] calls that trace the
    decision come after the six filter reads and do not take part in the
    result; they are not embedded. *)
Definition _should_show_campaign
    (twitch : Twitch) (_inventory_filters : gmap string bool)
    (campaign_data : campaign_data) : option bool :=
  let campaign := cd_campaign_obj campaign_data in
  show_not_linked ← _inventory_filters !! "not_linked";
  show_upcoming ← _inventory_filters !! "upcoming";
  show_active ← _inventory_filters !! "active";
  show_expired ← _inventory_filters !! "expired";
  show_excluded ← _inventory_filters !! "excluded";
  show_finished ← _inventory_filters !! "finished";
  let status := pystr.lower (default "" (cd_status campaign_data)) in
  Some
    match campaign with
    | None =>
        let any_filter_enabled :=
          show_not_linked || show_upcoming || show_active || show_expired
          || show_excluded || show_finished in
        if negb any_filter_enabled then false
        else if String.eqb status "upcoming" then show_upcoming
        else if String.eqb status "active" then show_active
        else if String.eqb status "expired" then show_expired
        else if String.eqb status "finished" then show_finished
        else false
    | Some campaign =>
        let eligible := default true (eligible campaign) in
        if show_not_linked && negb eligible then false
        else if String.eqb status "upcoming" then show_upcoming
        else if String.eqb status "active" then show_active
        else if String.eqb status "expired" then show_expired
        else if String.eqb status "finished" then show_finished
        else if hidden_as_excluded twitch campaign show_excluded then false
        else true
    end.

End webui_py.


(** ** Exceptions, results and the environment *)

(** The exceptions that occur.  [ExitRequest] is the class that
    [coro_unless_closed] imports from the miner's [exceptions] module; the
    others are Python's own. *)
Inductive exn :=
| TypeError (msg : string)
| AttributeError (msg : string)
| KeyError (msg : string)
| RuntimeError (msg : string)
| ExitRequest
| CancelledError.

(** [str(e)]. *)
Definition exn_str (e : exn) : string :=
  match e with
  | TypeError msg | AttributeError msg | KeyError msg | RuntimeError msg =>
      msg
  | ExitRequest | CancelledError => ""
  end.

Inductive result (A : Type) :=
| Ok (a : A)
| Raise (e : exn).
Arguments Ok {A} a.
Arguments Raise {A} e.

Definition result_map {A B : Type} (f : A → B) (r : result A) : result B :=
  match r with
  | Ok a => Ok (f a)
  | Raise e => Raise e
  end.

(** What the interpreter and the libraries supply: the wall clock as the
    sequence of its readings, number formatting, and the texts of messages
    that the program only forwards. *)
Class Environment := {
  (** [datetime.now().strftime("%X")] at the [n]-th reading of the clock *)
  strftime_now : nat → string;
  (** [f"{x:.1f}"] *)
  format_1f : Q → string;
  (** [utils.format_time_remaining], which reads the wall clock *)
  format_time_remaining : controller.Campaign → string;
  (** [MockInventory._get_time_remaining], which reads the wall clock *)
  _get_time_remaining : controller.Campaign → string;
  (** [str(type(manager._inventory_container))] *)
  container_type_str : string;
  (** the exception of entering [with None:] *)
  with_none_error : exn;
  (** [traceback.format_exc()] while [e] is handled *)
  format_exc : exn → string
}.

(** ** NiceGUI elements, as the program builds and empties them *)

Module nicegui.

(** [ui.label], [ui.card], [ui.row], [ui.column] with the argument of
    [.classes(...)]; an element created inside [with parent:] becomes the
    last child of [parent]. *)
#[warnings="-register-all"]
Inductive Element :=
| Label (text classes : string)
| Card (classes : string) (children : list Element)
| Row (classes : string) (children : list Element)
| Column (classes : string) (children : list Element).

(** [ui.log(max_lines=n)]: the lines shown, oldest first. *)
Record Log := {
  max_lines : option nat;
  lines : list string
}.

Definition log (max_lines : option nat) : Log :=
  {| max_lines := max_lines; lines := [] |}.

(** [Log.push(line)]: one label per line of [str(line).splitlines()] is
    appended; past [max_lines] the oldest lines are removed. *)
Definition push (line : string) (l : Log) : Log :=
  let ls := (lines l ++ pystr.splitlines line)%list in
  {| max_lines := max_lines l;
     lines := match max_lines l with
              | Some n => drop (length ls - n) ls
              | None => ls
              end |}.

Definition is_card (e : Element) : bool :=
  match e with Card _ _ => true | _ => false end.

End nicegui.

(** A Python [dict] with [str] keys whose iteration order matters: the
    items in insertion order, keys distinct.  [d[k] = v] keeps the place of
    a key already present. *)
Fixpoint dict_set {V : Type} (k : string) (v : V) (d : list (string * V))
  : list (string * V) :=
  match d with
  | [] => [(k, v)]
  | (k', v') :: d' =>
      if String.eqb k' k then (k, v) :: d' else (k', v') :: dict_set k v d'
  end.

(** ** [src/webui/manager.py]: the manager object and [print] *)

Module manager.

(** The attributes of [WebUIManager] that the embedded methods touch,
    followed by two pieces of the world outside the object: what the
    built-in [print] has written, and how often the clock has been read. *)
Record WebUIManager := {
  _twitch : controller.Twitch;
  _close_requested : bool;
  _running : bool;
  _console_log : list string;
  _console : option nicegui.Log;
  _inventory_filters : gmap string bool;
  _campaigns : list (string * campaign_data);
  _inventory_container : option (list nicegui.Element);
  stdout : list string;
  clock_reads : nat
}.

(** [WebUIManager.__init__], before any page has been built. *)
Definition __init__ (twitch : controller.Twitch) : WebUIManager :=
  {| _twitch := twitch;
     _close_requested := false;
     _running := false;
     _console_log := [];
     _console := None;
     _inventory_filters :=
       <["not_linked" := false]> (<["upcoming" := false]> (<["active" := false]>
       (<["expired" := false]> (<["excluded" := false]>
       (<["finished" := false]> ∅)))));
     _campaigns := [];
     _inventory_container := None;
     stdout := [];
     clock_reads := 0 |}.

(** Statements run on a manager: they end normally with a value or raise,
    and leave a manager behind in both cases. *)
Definition M (A : Type) : Type := WebUIManager → result A * WebUIManager.

#[global] Instance M_ret : MRet M := λ A a self, (Ok a, self).

Definition raise {A : Type} (e : exn) : M A := λ self, (Raise e, self).

(** Sequencing, written [x ← m; k] and [m;; k] below. *)
#[global] Instance M_bind : MBind M := λ A B k m self,
  match m self with
  | (Ok a, self') => k a self'
  | (Raise e, self') => (Raise e, self')
  end.

(** [try: body except Exception as e: handler(e)] *)
Definition try_except {A : Type} (body : M A) (handler : exn → M A) : M A :=
  λ self,
    match body self with
    | (Ok a, self') => (Ok a, self')
    | (Raise e, self') => handler e self'
    end.

(** Assignments to attributes of the manager. *)
Definition set_inventory_container
    (c : option (list nicegui.Element)) : M unit := λ self,
  (Ok tt,
   {| _twitch := _twitch self;
      _close_requested := _close_requested self;
      _running := _running self;
      _console_log := _console_log self;
      _console := _console self;
      _inventory_filters := _inventory_filters self;
      _campaigns := _campaigns self;
      _inventory_container := c;
      stdout := stdout self;
      clock_reads := clock_reads self |}).

Definition set_campaigns (d : list (string * campaign_data)) : M unit :=
  λ self,
  (Ok tt,
   {| _twitch := _twitch self;
      _close_requested := _close_requested self;
      _running := _running self;
      _console_log := _console_log self;
      _console := _console self;
      _inventory_filters := _inventory_filters self;
      _campaigns := d;
      _inventory_container := _inventory_container self;
      stdout := stdout self;
      clock_reads := clock_reads self |}).

Definition set_inventory_filters (f : gmap string bool) : M unit := λ self,
  (Ok tt,
   {| _twitch := _twitch self;
      _close_requested := _close_requested self;
      _running := _running self;
      _console_log := _console_log self;
      _console := _console self;
      _inventory_filters := f;
      _campaigns := _campaigns self;
      _inventory_container := _inventory_container self;
      stdout := stdout self;
      clock_reads := clock_reads self |}).

Definition set_close_requested (b : bool) : M unit := λ self,
  (Ok tt,
   {| _twitch := _twitch self;
      _close_requested := b;
      _running := _running self;
      _console_log := _console_log self;
      _console := _console self;
      _inventory_filters := _inventory_filters self;
      _campaigns := _campaigns self;
      _inventory_container := _inventory_container self;
      stdout := stdout self;
      clock_reads := clock_reads self |}).

Definition get : M WebUIManager := λ self, (Ok self, self).

Section with_environment.
Context `{Environment}.

(** The loop of [print] over [message.split('\n')]. *)
Fixpoint push_lines (timestamp : string) (ls : list string)
    (console : nicegui.Log) : nicegui.Log :=
  match ls with
  | [] => console
  | line :: ls' =>
      push_lines timestamp ls'
        (if pystr.strip_nonempty line
         then nicegui.push (timestamp +:+ ": " +:+ line) console
         else console)
  end.

(** [WebUIManager.print].  The pushes to the log element are taken not to
    raise, so the [except] branch of the method is never entered. *)
Definition print (message : string) : M unit := λ self,
  let timestamp := strftime_now (clock_reads self) in
  let formatted_message := timestamp +:+ ": " +:+ message in
  (Ok tt,
   {| _twitch := _twitch self;
      _close_requested := _close_requested self;
      _running := _running self;
      _console_log := _console_log self ++ [formatted_message];
      _console :=
        match _console self with
        | Some console =>
            Some (if pystr.contains pystr.newline message
                  then push_lines timestamp
                         (pystr.split pystr.newline message) console
                  else nicegui.push formatted_message console)
        | None => None
        end;
      _inventory_filters := _inventory_filters self;
      _campaigns := _campaigns self;
      _inventory_container := _inventory_container self;
      stdout :=
        match _console self with
        | Some _ => stdout self
        | None => stdout self ++ [formatted_message]
        end;
      clock_reads := S (clock_reads self) |}).

(** A sequence of calls of [print], one per message. *)
Fixpoint prints (messages : list string) (self : WebUIManager)
  : WebUIManager :=
  match messages with
  | [] => self
  | message :: rest => prints rest (snd (print message self))
  end.

End with_environment.
End manager.

(** ** [src/webui/components/main_panel.py]: where the log element is made *)

Module main_panel.
Import manager.

(** The one assignment of [create_main_panel] that matters here:
    [manager._console = ui.log(max_lines=50)]. *)
Definition create_main_panel : M unit := λ self,
  (Ok tt,
   {| _twitch := _twitch self;
      _close_requested := _close_requested self;
      _running := _running self;
      _console_log := _console_log self;
      _console := Some (nicegui.log (Some 50));
      _inventory_filters := _inventory_filters self;
      _campaigns := _campaigns self;
      _inventory_container := _inventory_container self;
      stdout := stdout self;
      clock_reads := clock_reads self |}).

End main_panel.

(** ** [src/webui/components/inventory_panel.py]

    [NICEGUI_AVAILABLE] is true throughout: without NiceGUI the constructor
    of [WebUIManager] raises, and there is no manager to work on. *)

Module inventory_panel.
Import manager.

(** [with manager._inventory_container: <create e>]: [e] becomes the last
    child of the column; entering [with None:] raises. *)
Definition with_inventory_container `{Environment}
    (e : nicegui.Element) : M unit := λ self,
  match _inventory_container self with
  | Some children => set_inventory_container (Some (children ++ [e])) self
  | None => (Raise with_none_error, self)
  end.

(** [manager._inventory_container.clear()] *)
Definition clear_inventory_container `{Environment} : M unit := λ self,
  match _inventory_container self with
  | Some _ => set_inventory_container (Some []) self
  | None => (Raise with_none_error, self)
  end.

(** [_create_campaign_list_section]: a fresh column with the two labels
    the function puts into it. *)
Definition _create_campaign_list_section : M unit :=
  set_inventory_container
    (Some [nicegui.Label
             "No campaigns loaded. Click Refresh to load drops campaigns."
             "text-gray-400 text-center p-4";
           nicegui.Label "DEBUG: This label should always be visible"
             "text-red-500 bg-yellow-300 p-2"]).

(** The class string of the status label in [add_campaign_to_display]. *)
Definition status_class (status : string) : string :=
  "text-sm font-medium " +:+
  (if String.eqb (pystr.lower status) "active" then "text-green-600"
   else if String.eqb (pystr.lower status) "upcoming" then "text-blue-600"
   else if String.eqb (pystr.lower status) "expired" then "text-red-600"
   else if String.eqb (pystr.lower status) "finished" then "text-purple-600"
   else "text-gray-600").

(** [progress > 0] *)
Definition positive_progress (progress : Q) : bool :=
  negb (Qle_bool progress 0).

(** The card that [add_campaign_to_display] builds for one campaign. *)
Definition campaign_card `{Environment} (campaign_data : campaign_data)
  : nicegui.Element :=
  let campaign_name := default "Unknown Campaign" (cd_name campaign_data) in
  let status := default "Unknown" (cd_status campaign_data) in
  let game := default "Unknown Game" (cd_game campaign_data) in
  let progress := default 0%Q (cd_progress campaign_data) in
  let time_remaining := default "" (cd_time_remaining campaign_data) in
  nicegui.Card "w-full mb-2 p-4"
    [nicegui.Row "w-full items-center gap-4"
       (nicegui.Column "flex-grow"
          [nicegui.Label campaign_name "text-lg font-bold";
           nicegui.Label ("Game: " +:+ game) "text-sm text-gray-600";
           nicegui.Label ("Status: " +:+ status) (status_class status)]
        :: (if positive_progress progress
            then [nicegui.Column "items-end"
                    (nicegui.Label (format_1f progress +:+ "%")
                       "text-sm font-medium"
                     :: (if String.eqb time_remaining "" then []
                         else [nicegui.Label time_remaining
                                 "text-xs text-gray-500"]))]
            else []))].

Section with_environment.
Context `{Environment}.

Definition add_campaign_to_display (campaign_data : campaign_data)
  : M unit :=
  let campaign_name := default "Unknown Campaign" (cd_name campaign_data) in
  try_except
    (print ("Creating UI for campaign: " +:+ campaign_name);;
     with_inventory_container (campaign_card campaign_data);;
     print ("Successfully added campaign " +:+ campaign_name))
    (λ e,
       print ("ERROR adding campaign to display: " +:+ exn_str e);;
       print ("Traceback: " +:+ format_exc e);;
       try_except
         (with_inventory_container
            (nicegui.Label
               ("ERROR: " +:+ default "Unknown" (cd_name campaign_data)
                +:+ " - " +:+ exn_str e)
               "text-red-400 p-2"))
         (λ e2, print ("Even fallback failed: " +:+ exn_str e2))).

(** The [for] loop of [refresh_inventory_display] over
    [manager._campaigns.items()], with [shown_count] as accumulator. *)
Fixpoint display_filtered (items : list (string * campaign_data))
    (shown_count : nat) : M nat :=
  match items with
  | [] => mret shown_count
  | (campaign_id, campaign_data) :: rest =>
      shown_count' ←
        try_except
          (self ← get;
           if utils.should_show_campaign_with_filters campaign_data
                (_inventory_filters self)
           then
             print ("Adding campaign: "
                    +:+ default "Unknown" (cd_name campaign_data));;
             add_campaign_to_display campaign_data;;
             mret (S shown_count)
           else
             print ("Filtering out campaign: "
                    +:+ default "Unknown" (cd_name campaign_data)
                    +:+ " (status: "
                    +:+ default "Unknown" (cd_status campaign_data)
                    +:+ ")");;
             mret shown_count)
          (λ e,
             print ("Error processing campaign " +:+ campaign_id +:+ ": "
                    +:+ exn_str e);;
             mret shown_count);
      display_filtered rest shown_count'
  end.

Definition empty_store_placeholder : nicegui.Element :=
  nicegui.Label
    "No campaigns available. Click Refresh to load test campaigns."
    "text-gray-400 text-center p-4".

Definition no_match_placeholder : nicegui.Element :=
  nicegui.Label
    "No campaigns match the current filters. Try adjusting the filter checkboxes above."
    "text-gray-400 text-center p-4".

Definition refresh_inventory_display : M unit :=
  self ← get;
  match _inventory_container self with
  | None =>
      print
        "DEBUG: inventory container not yet initialized, skipping display refresh"
  | Some _ =>
      print ("Refreshing display with "
             +:+ pretty (length (_campaigns self)) +:+ " campaigns");;
      print ("Inventory container type: " +:+ container_type_str);;
      try_except
        (print "Clearing inventory container...";;
         clear_inventory_container;;
         print "Container cleared successfully";;
         self ← get;
         match _campaigns self with
         | [] =>
             print "No campaigns found, showing placeholder";;
             with_inventory_container empty_store_placeholder
         | items =>
             shown_count ← display_filtered items 0;
             self ← get;
             print ("Displayed " +:+ pretty shown_count +:+ " out of "
                    +:+ pretty (length (_campaigns self)) +:+ " campaigns");;
             if (shown_count =? 0)%nat then
               print "No campaigns passed filters, showing filter message";;
               with_inventory_container no_match_placeholder
             else print "Campaigns should now be visible in the UI"
         end)
        (λ e,
           print ("ERROR in refresh_inventory_display: " +:+ exn_str e);;
           with_inventory_container
             (nicegui.Label
                ("ERROR: Failed to display campaigns - " +:+ exn_str e)
                "text-red-400 p-4"))
  end.

(** [obj.attr] without a probe: [AttributeError] when absent (the message
    is cut down to the attribute's name). *)
Definition attr {A : Type} (attr_name : string) (o : option A) : M A :=
  match o with
  | Some a => mret a
  | None => raise (AttributeError attr_name)
  end.

(** The dictionary that [refresh_inventory] builds for one campaign. *)
Definition inventory_entry (campaign : controller.Campaign)
  : M (string * campaign_data) :=
  name ← attr "name" (controller.name campaign);
  game ← attr "game" (controller.game campaign);
  let campaign_data :=
    {| cd_name := Some name;
       cd_game := Some (default "Unknown Game" (controller.game_name game));
       cd_status := Some (utils.get_campaign_status campaign);
       cd_progress := Some (utils.get_campaign_progress campaign);
       cd_time_remaining := Some (format_time_remaining campaign);
       cd_campaign_obj := Some campaign |} in
  id ← attr "id" (controller.id campaign);
  mret (id, campaign_data).

Fixpoint load_inventory (campaigns : list controller.Campaign) : M unit :=
  match campaigns with
  | [] => mret tt
  | campaign :: rest =>
      entry ← inventory_entry campaign;
      self ← get;
      set_campaigns (dict_set entry.1 entry.2 (_campaigns self));;
      load_inventory rest
  end.

Definition refresh_inventory : M unit :=
  print "Refreshing inventory...";;
  set_campaigns [];;
  self ← get;
  load_inventory (default [] (controller.inventory (_twitch self)));;
  self ← get;
  print ("Loaded " +:+ pretty (length (_campaigns self))
         +:+ " real campaigns");;
  refresh_inventory_display.

Definition update_filter (filter_name : string) (value : bool) : M unit :=
  self ← get;
  set_inventory_filters (<[filter_name := value]> (_inventory_filters self));;
  print ("Filter '" +:+ filter_name +:+ "' set to: "
         +:+ pystr.of_bool value);;
  refresh_inventory_display.

End with_environment.
End inventory_panel.

(** ** [src/webui/mock_classes.py] *)

Module mock_classes.
Import manager.

(** *** [MockInventory] *)

Definition _get_campaign_status (campaign : controller.Campaign) : string :=
  if controller.has_and_true (controller.active campaign) then "Active"
  else if controller.has_and_true (controller.upcoming campaign)
  then "Upcoming"
  else if controller.has_and_true (controller.expired campaign)
  then "Expired"
  else "Unknown".

Section with_environment.
Context `{Environment}.

(** The dictionary that [MockInventory.add_campaign] builds.  Its time
    label is what [_get_time_remaining] answers at the call; the
    environment gives one per campaign, the label of one call, so that
    nothing can be drawn from the embedding on the labels of two calls
    made at different times. *)
Definition add_campaign_entry (campaign : controller.Campaign)
  : campaign_data :=
  {| cd_name := Some (default "Unknown Campaign" (controller.name campaign));
     cd_game :=
       Some match controller.game campaign with
            | Some game => default "Unknown Game" (controller.game_name game)
            | None => "Unknown Game"
            end;
     cd_status := Some (_get_campaign_status campaign);
     cd_progress := Some (default 0%Q (controller.progress campaign));
     cd_time_remaining := Some (_get_time_remaining campaign);
     cd_campaign_obj := Some campaign |}.

(** [MockInventory.add_campaign]; the element stored in
    [_inventory_container] is taken to be true as a condition whenever it
    is not [None]. *)
Definition add_campaign (campaign : controller.Campaign) : M unit :=
  try_except
    (let campaign_data := add_campaign_entry campaign in
     self ← get;
     let campaign_id :=
       default (pretty (length (_campaigns self))) (controller.id campaign) in
     set_campaigns (dict_set campaign_id campaign_data (_campaigns self));;
     self ← get;
     match _inventory_container self with
     | Some _ => inventory_panel.refresh_inventory_display
     | None => mret tt
     end;;
     print ("Added campaign: "
            +:+ default "Unknown Campaign" (controller.name campaign)))
    (λ e, print ("Failed to add campaign: " +:+ exn_str e)).

(** [MockInventory.clear] *)
Definition clear : M unit :=
  set_campaigns [];;
  self ← get;
  match _inventory_container self with
  | Some _ => inventory_panel.refresh_inventory_display
  | None => mret tt
  end.

End with_environment.

(** *** [MockWebsocketStatus] *)

(** One entry of [_items]: the dictionary with the keys ["status"] and
    ["topics"]. *)
Record ws_item := {
  status : string;
  topics : Z
}.

(** The object is its attribute [_items : dict[int, dict]]. *)
Record MockWebsocketStatus := { _items : gmap Z ws_item }.

Definition MockWebsocketStatus__init__ : MockWebsocketStatus :=
  {| _items := ∅ |}.

(** [MockWebsocketStatus.update]: the outcome and the object afterwards. *)
Definition update (idx : Z) (status : option string) (topics : option Z)
    (self : MockWebsocketStatus) : result unit * MockWebsocketStatus :=
  match status, topics with
  | None, None =>
      (Raise (TypeError "You need to provide at least one of: status, topics"),
       self)
  | _, _ =>
      let item :=
        match _items self !! idx with
        | Some item => item
        | None => {| status := "disconnected"; topics := 0 |}
        end in
      let item :=
        match status with
        | Some s => {| status := s; topics := mock_classes.topics item |}
        | None => item
        end in
      let item :=
        match topics with
        | Some t => {| status := mock_classes.status item; topics := t |}
        | None => item
        end in
      (Ok tt, {| _items := <[idx := item]> (_items self) |})
  end.

(** [MockWebsocketStatus.remove] *)
Definition remove (idx : Z) (self : MockWebsocketStatus)
  : MockWebsocketStatus :=
  {| _items := delete idx (_items self) |}.

(** *** [MockOutput] *)

(** [MockOutput.print] hands the message to the manager. *)
Definition MockOutput_print `{Environment} (message : string) : M unit :=
  print message.

End mock_classes.

(** ** [WebUIManager.close], [prevent_close] and [coro_unless_closed]

    The three methods work on [self._close_requested], an [asyncio.Event],
    and on two tasks of the event loop.  The model keeps of asyncio what
    these methods can observe:

    - a task is done or not; [Task.cancel()] on a task that is not done
      only records the request, and the task ends with [CancelledError]
      when the loop runs it next;
    - [Event.wait()] returns at once when the flag is set; otherwise it
      suspends on a future, which [Event.set()] resolves, and returns when
      the loop runs it after that, whatever the flag is by then;
    - [asyncio.wait(..., FIRST_COMPLETED)] resumes its caller at some
      moment at which one of the tasks is done, and sorts the tasks by
      [done()] at that moment. *)

Module aio.
Import manager.

(** [asyncio.Task]: not done (with a cancellation requested or not), or
    done with a result or an exception. *)
Inductive Task (A : Type) :=
| Pending (must_cancel : bool)
| Done (r : result A).
Arguments Pending {A} must_cancel.
Arguments Done {A} r.

(** [Task.done()] *)
Definition done {A : Type} (t : Task A) : bool :=
  match t with
  | Done _ => true
  | Pending _ => false
  end.

(** [Task.cancel()] *)
Definition cancel {A : Type} (t : Task A) : Task A :=
  match t with
  | Pending _ => Pending true
  | Done r => Done r
  end.

(** What [coro_unless_closed] returns with [await next(iter(done))]: the
    result of the operation, or that of [Event.wait()]. *)
Inductive race_value (A : Type) :=
| OpValue (a : A)
| WaitValue (b : bool).
Arguments OpValue {A} a.
Arguments WaitValue {A} b.

(** The manager, the two tasks of one call of [coro_unless_closed], and
    the future inside [Event.wait()]: [None] before the coroutine has
    started, [Some b] afterwards, [b] telling whether it is resolved. *)
Record World (A : Type) := {
  self : WebUIManager;
  wait_fut : option bool;
  op_task : Task A;
  wait_task : Task bool
}.
Arguments self {A} w.
Arguments wait_fut {A} w.
Arguments op_task {A} w.
Arguments wait_task {A} w.

(** What happens while the caller is suspended. *)
Inductive event (A : Type) :=
| OpRuns (r : option (result A))
    (** the loop runs the operation: it suspends again, or ends with [r] *)
| WaitRuns
    (** the loop runs the [Event.wait()] task *)
| Close
    (** somebody calls [WebUIManager.close] *)
| PreventClose.
    (** somebody calls [WebUIManager.prevent_close] *)
Arguments OpRuns {A} r.
Arguments WaitRuns {A}.
Arguments Close {A}.
Arguments PreventClose {A}.

(** How the suspension of the caller in [await asyncio.wait(...)] ends:
    [asyncio.wait] hands back [done] and [pending], or the task that runs
    the caller is cancelled. *)
Inductive resumption :=
| ByWait
| ByCancel.

(** What an operation does with a [CancelledError] thrown into it: it has
    no handler for it, or it catches it and then suspends again ([None])
    or ends. *)
Inductive cancel_reaction (A : Type) :=
| Uncaught
| Caught (r : option (result A)).
Arguments Uncaught {A}.
Arguments Caught {A} r.

Section with_environment.
Context `{Environment} {A : Type}.

(** [self._close_requested.set()] *)
Definition Event_set (w : World A) : World A :=
  if _close_requested (self w) then w
  else
    {| self := (set_close_requested true (self w)).2;
       wait_fut := match wait_fut w with
                   | Some _ => Some true
                   | None => None
                   end;
       op_task := op_task w;
       wait_task := wait_task w |}.

(** [self._close_requested.clear()] *)
Definition Event_clear (w : World A) : World A :=
  {| self := (set_close_requested false (self w)).2;
     wait_fut := wait_fut w;
     op_task := op_task w;
     wait_task := wait_task w |}.

(** [WebUIManager.close]: the value returned and the world afterwards. *)
Definition close (w : World A) : Z * World A := (0%Z, Event_set w).

(** [WebUIManager.prevent_close] *)
Definition prevent_close (w : World A) : World A :=
  let w' := Event_clear w in
  {| self :=
       (print "Application prevented from closing due to error state"
          (self w')).2;
     wait_fut := wait_fut w';
     op_task := op_task w';
     wait_task := wait_task w' |}.

(** The loop runs the task of [self._close_requested.wait()] once. *)
Definition run_wait_task (w : World A) : World A :=
  match wait_task w with
  | Done _ => w
  | Pending true =>
      {| self := self w; wait_fut := wait_fut w; op_task := op_task w;
         wait_task := Done (Raise CancelledError) |}
  | Pending false =>
      match wait_fut w with
      | None =>
          if _close_requested (self w)
          then {| self := self w; wait_fut := None; op_task := op_task w;
                  wait_task := Done (Ok true) |}
          else {| self := self w; wait_fut := Some false;
                  op_task := op_task w; wait_task := Pending false |}
      | Some true =>
          {| self := self w; wait_fut := Some true; op_task := op_task w;
             wait_task := Done (Ok true) |}
      | Some false => w
      end
  end.

(** The loop runs the operation's task once; what the operation does then
    is its own business: [None] when it suspends again.  On a task with a
    cancellation requested this is the run in which [CancelledError] is
    thrown into the operation, [r] being what the operation makes of it
    (see [throw_cancelled]); no such task exists before [after_wait]. *)
Definition run_op_task (r : option (result A)) (w : World A) : World A :=
  match op_task w with
  | Done _ => w
  | Pending _ =>
      {| self := self w; wait_fut := wait_fut w;
         op_task := match r with
                    | Some r => Done r
                    | None => Pending false
                    end;
         wait_task := wait_task w |}
  end.

Definition step (w : World A) (e : event A) : World A :=
  match e with
  | OpRuns r => run_op_task r w
  | WaitRuns => run_wait_task w
  | Close => (close w).2
  | PreventClose => prevent_close w
  end.

Definition run (trace : list (event A)) (w : World A) : World A :=
  fold_left step trace w.

(** [tasks = [asyncio.ensure_future(coro),
              asyncio.ensure_future(self._close_requested.wait())]] *)
Definition ensure_futures (self0 : WebUIManager) : World A :=
  {| self := self0; wait_fut := None;
     op_task := Pending false; wait_task := Pending false |}.

(** Some task is done: [asyncio.wait] may resume its caller. *)
Definition first_completed (w : World A) : bool :=
  done (op_task w) || done (wait_task w).

(** [for task in pending: task.cancel()], one task at a time. *)
Definition cancel_if_pending {B : Type} (t : Task B) : Task B :=
  if done t then t else cancel t.

(** [await next(iter(done))]; [op_first] tells whether the operation's
    task comes first when the set [done] holds both tasks.  An empty
    [done] does not come out of [asyncio.wait]. *)
Definition await_first_done (op_first : bool) (w : World A)
  : result (race_value A) :=
  match op_task w, wait_task w with
  | Done r, Done r' =>
      if op_first then result_map OpValue r else result_map WaitValue r'
  | Done r, Pending _ => result_map OpValue r
  | Pending _, Done r' => result_map WaitValue r'
  | Pending _, Pending _ => Raise (RuntimeError "coroutine raised StopIteration")
  end.

(** The body of [coro_unless_closed] from the moment [asyncio.wait] hands
    back [done] and [pending]. *)
Definition after_wait (op_first : bool) (w : World A)
  : result (race_value A) * World A :=
  let w' :=
    {| self := self w; wait_fut := wait_fut w;
       op_task := cancel_if_pending (op_task w);
       wait_task := cancel_if_pending (wait_task w) |} in
  if _close_requested (self w') then (Raise ExitRequest, w')
  else (await_first_done op_first w', w').

(** [WebUIManager.coro_unless_closed], called on [self0], with [trace]
    what happens between the creation of the two tasks and the moment the
    caller is resumed, as far as it is [asyncio.wait] that resumes it.
    [None]: no task is done at the end of [trace], the caller is still
    suspended.  The other way out of the suspension, the cancellation of
    the caller itself, is in [coro_unless_closed_call] below. *)
Definition coro_unless_closed (op_first : bool) (self0 : WebUIManager)
    (trace : list (event A)) : option (result (race_value A) * World A) :=
  let w := run trace (ensure_futures self0) in
  if first_completed w then Some (after_wait op_first w) else None.

(** The call with both ways out of [await asyncio.wait(...)].  The method
    has no [try] around the [await]: when the task that runs the caller
    is cancelled while it is suspended there, at the end of [trace],
    [CancelledError] is raised at the [await] and leaves the method, the
    loop over [pending] and the test of the flag are not reached, and
    [asyncio.wait] cancels none of the tasks it was given. *)
Definition coro_unless_closed_call (how : resumption) (op_first : bool)
    (self0 : WebUIManager) (trace : list (event A))
  : option (result (race_value A) * World A) :=
  match how with
  | ByWait => coro_unless_closed op_first self0 trace
  | ByCancel => Some (Raise CancelledError, run trace (ensure_futures self0))
  end.

(** The loop runs the operation's task after [cancel()] was called on it:
    [CancelledError] is thrown into the operation at the point where it is
    suspended, and the request is cleared.  An operation without a
    handler for it ends with that exception; one that catches it suspends
    again or ends as it pleases. *)
Definition throw_cancelled (reaction : cancel_reaction A) (w : World A)
  : World A :=
  match op_task w with
  | Pending true =>
      run_op_task match reaction with
                  | Uncaught => Some (Raise CancelledError)
                  | Caught r => r
                  end w
  | _ => w
  end.

End with_environment.
End aio.

(** ** The time labels of [utils.py] and [mock_classes.py]

    [utils.format_time_remaining] and [MockInventory._get_time_remaining]
    with the clock as an argument.  A [datetime] with a time zone is the
    number of microseconds since the epoch; the difference of two of them
    is a [timedelta], which Python keeps normalised. *)

Module time_labels.

(** The two moments of a campaign. *)
Record Schedule := {
  ends_at : option Z;
  starts_at : option Z
}.

(** [datetime.timedelta]: [0 ≤ seconds < 86400],
    [0 ≤ microseconds < 1000000]. *)
Record timedelta := {
  days : Z;
  seconds : Z;
  microseconds : Z
}.

(** [a - b] for two datetimes. *)
Definition datetime_sub (a b : Z) : timedelta :=
  let us := (a - b)%Z in
  {| days := (us / 86400000000)%Z;
     seconds := ((us mod 86400000000) / 1000000)%Z;
     microseconds := (us mod 1000000)%Z |}.

(** [td.total_seconds() > 0] *)
Definition total_seconds_positive (td : timedelta) : bool :=
  (0 <? (days td * 86400 + seconds td) * 1000000 + microseconds td)%Z.

(** The three-way label shared by both functions. *)
Definition remaining_label (time_diff : timedelta) : string :=
  let days := days time_diff in
  let hours := (seconds time_diff / 3600)%Z in
  let remainder := (seconds time_diff mod 3600)%Z in
  let minutes := (remainder / 60)%Z in
  if (0 <? days)%Z
  then pretty days +:+ "d " +:+ pretty hours +:+ "h " +:+ pretty minutes +:+ "m"
  else if (0 <? hours)%Z
  then pretty hours +:+ "h " +:+ pretty minutes +:+ "m"
  else pretty minutes +:+ "m".

(** [utils.format_time_remaining]; [pytz] tells whether [import pytz]
    succeeds, [now] is [datetime.now(pytz.UTC)].  An exception inside the
    [try] block ends in the final [return ""]. *)
Definition format_time_remaining (pytz : bool) (now : Z)
    (campaign : controller.Campaign) (schedule : Schedule) : string :=
  match controller.has_and_true (controller.active campaign),
        ends_at schedule with
  | true, Some ends_at =>
      if negb pytz then ""
      else
        let time_diff := datetime_sub ends_at now in
        if total_seconds_positive time_diff then remaining_label time_diff
        else ""
  | _, _ =>
      match controller.has_and_true (controller.upcoming campaign),
            starts_at schedule with
      | true, Some starts_at =>
          if negb pytz then ""
          else
            let time_diff := datetime_sub starts_at now in
            if total_seconds_positive time_diff then
              let days := days time_diff in
              let hours := (seconds time_diff / 3600)%Z in
              if (0 <? days)%Z
              then "Starts in " +:+ pretty days +:+ "d " +:+ pretty hours +:+ "h"
              else "Starts in " +:+ pretty hours +:+ "h"
            else ""
      | _, _ => ""
      end
  end.

(** [MockInventory._get_time_remaining]; [now] is
    [datetime.now(timezone.utc)]. *)
Definition _get_time_remaining (now : Z) (schedule : Schedule) : string :=
  match ends_at schedule with
  | Some ends_at =>
      let remaining := datetime_sub ends_at now in
      if total_seconds_positive remaining then remaining_label remaining
      else "Expired"
  | None => ""
  end.

End time_labels.

(** ** [src/ui_factory.py] *)

Module ui_factory.

(** What [create_gui_manager] hands back: the tkinter manager, or the web
    manager with the host and port it was constructed with. *)
Inductive gui_manager :=
| GUIManager
| WebUIManager (host : string) (port : Z).

Section with_int.
(** Python's [int] on a string; [None] is its [ValueError]. *)
Variable int : string → option Z.

(** [os.getenv(name, default)] *)
Definition getenv (environ : gmap string string) (name value : string)
  : string :=
  default value (environ !! name).

(** [is_webui_enabled] *)
Definition is_webui_enabled (environ : gmap string string) : bool :=
  String.eqb (pystr.lower (getenv environ "UI_BACKEND" "tkinter")) "nicegui".


(** The common end of [create_gui_manager]. *)
Definition use_tkinter (printed : list string)
  : option gui_manager * list string :=
  (Some GUIManager, printed ++ ["Using tkinter GUI"]).

(** [create_gui_manager]: the manager returned ([None] when the
    [ValueError] of [int] escapes) and the lines printed.
    [webui_import_error] is the message of the [ImportError] of
    [from webui import WebUIManager], if that import fails;
    [nicegui_available] tells whether the constructor of the web manager
    finds NiceGUI (it raises [ImportError] otherwise). *)
Definition create_gui_manager (environ : gmap string string)
    (webui_import_error : option string) (nicegui_available : bool)
  : option gui_manager * list string :=
  let ui_backend := pystr.lower (getenv environ "UI_BACKEND" "tkinter") in
  let fallback (printed : list string) (e : string) :=
    use_tkinter
      (printed ++
       ["Warning: Failed to import NiceGUI web UI: " +:+ e;
        "Falling back to tkinter GUI";
        "To use web UI, install NiceGUI: pip install nicegui"]) in
  if String.eqb ui_backend "nicegui" then
    match webui_import_error with
    | Some e => fallback [] e
    | None =>
        let printed := ["Using NiceGUI web interface"] in
        let host := getenv environ "WEBUI_HOST" "127.0.0.1" in
        match int (getenv environ "WEBUI_PORT" "8080") with
        | None => (None, printed)
        | Some port =>
            let printed :=
              printed ++
              ["Web UI will be available at http://" +:+ host +:+ ":"
               +:+ pretty port] in
            if nicegui_available
            then (Some (WebUIManager host port), printed)
            else
              fallback printed
                "NiceGUI is not installed. Install it with: pip install nicegui"
        end
    end
  else if String.eqb ui_backend "tkinter" then use_tkinter []
  else
    use_tkinter
      ["Warning: Unknown UI backend '" +:+ ui_backend
       +:+ "'. Valid options: 'tkinter', 'nicegui'";
       "Falling back to tkinter GUI"].

End with_int.
End ui_factory.

(** ** [clear_drop] and [display_drop] of [main_panel.py]

    The two widgets these functions write to, as attributes of the
    manager: the value of the progress bar and the text of its label,
    [None] before the page is built.  Setting a value is taken not to
    raise. *)

Module progress_display.

Record Widgets := {
  _progress_bar : option Q;
  _progress_label : option string
}.

(** The drop handed to [display_drop], with the two attributes it is
    probed for. *)
Record TimedDrop := {
  progress : option Q;
  name : option string
}.

Definition clear_drop (manager : Widgets) : Widgets :=
  {| _progress_bar :=
       match _progress_bar manager with Some _ => Some 0%Q | None => None end;
     _progress_label :=
       match _progress_label manager with
       | Some _ => Some "No active drops"
       | None => None
       end |}.

(** [drop.progress / 100.0 if drop.progress <= 100 else drop.progress] *)
Definition progress_value (progress : Q) : Q :=
  if Qle_bool progress 100 then (progress / 100)%Q else progress.

Definition display_drop (drop : option TimedDrop) (manager : Widgets)
  : Widgets :=
  match drop with
  | None => clear_drop manager
  | Some drop =>
      {| _progress_bar :=
           match progress drop, _progress_bar manager with
           | Some p, Some _ => Some (progress_value p)
           | _, bar => bar
           end;
         _progress_label :=
           match _progress_label manager with
           | Some _ =>
               Some match name drop with
                    | Some n => "Mining: " +:+ n
                    | None => "Mining drop..."
                    end
           | None => None
           end |}
  end.

End progress_display.

(** * Notions used in the statements *)

(** The status of an entry as the filter compares it. *)
Definition lowered_status (campaign_data : campaign_data) : string :=
  pystr.lower (default "" (cd_status campaign_data)).

(** All six flags are present in the filter dictionary. *)
Definition has_all_flags (filters : gmap string bool) : Prop :=
  Forall (λ k, is_Some (filters !! k)) filter_names.

(** The flag named [k], [False] when absent. *)
Definition flag (filters : gmap string bool) (k : string) : bool :=
  default false (filters !! k).

(** The campaign's game is in the excluded game list of the settings. *)
Definition game_excluded (twitch : controller.Twitch)
    (campaign : controller.Campaign) : Prop :=
  ∃ g st,
    controller.game campaign = Some g ∧ controller.settings twitch = Some st ∧
    default "" (controller.game_name g)
      ∈ default (∅ : gset string) (controller.exclude st).

(** The four status tests shared by both branches of the filter, with
    [otherwise] the answer when the status is in no bucket. *)
Definition bucket_chain (filters : gmap string bool) (status : string)
    (otherwise : bool) : bool :=
  if String.eqb status "upcoming" then flag filters "upcoming"
  else if String.eqb status "active" then flag filters "active"
  else if String.eqb status "expired" then flag filters "expired"
  else if String.eqb status "finished" then flag filters "finished"
  else otherwise.

(** Some flag of the six is on. *)
Definition any_filter_enabled (filters : gmap string bool) : bool :=
  flag filters "not_linked" || flag filters "upcoming"
  || flag filters "active" || flag filters "expired"
  || flag filters "excluded" || flag filters "finished".

(** A drop reports minutes: it has both attributes and a positive
    number of required minutes. *)
Definition reports_minutes (d : controller.Drop) : Prop :=
  ∃ cur req,
    controller.current_minutes d = Some cur ∧
    controller.required_minutes d = Some req ∧ (0 < req)%Z.

(** Maximum and minimum of two rationals. *)
Definition Qmax (x y : Q) : Q := if Qle_bool x y then y else x.

Definition Qmin (x y : Q) : Q := if Qle_bool x y then x else y.

(** [progressPercent] in the words of the specification: the maximum of
    currentMinutes / requiredMinutes × 100 over the drops that report
    minutes, 0 when none does, clamped into [0, 100]. *)
Definition progressPercent_spec (campaign : controller.Campaign) : Q :=
  Qmin 100
    (Qmax 0
       (foldr Qmax 0%Q
          (omap utils.drop_progress (default [] (controller.drops campaign))))).

(** The entries of the store that the filter accepts, in the order of the
    store. *)
Definition visible_entries (filters : gmap string bool)
    (campaigns : list (string * campaign_data)) : list campaign_data :=
  List.filter (λ cd, utils.should_show_campaign_with_filters cd filters)
    (campaigns.*2).

(** What [refresh_inventory_display] is to leave in the container. *)
Definition expected_view `{Environment} (filters : gmap string bool)
    (campaigns : list (string * campaign_data)) : list nicegui.Element :=
  match campaigns with
  | [] => [inventory_panel.empty_store_placeholder]
  | _ =>
      match visible_entries filters campaigns with
      | [] => [inventory_panel.no_match_placeholder]
      | shown => inventory_panel.campaign_card <$> shown
      end
  end.

(** The campaign rows among the children of the container. *)
Definition campaign_rows (view : list nicegui.Element) : list nicegui.Element :=
  List.filter nicegui.is_card view.

(** [m], run on [self], ends normally, with a value and a manager that
    satisfy [Q]. *)
Definition ends_with {A : Type} (m : manager.M A) (self : manager.WebUIManager)
    (Q : A → manager.WebUIManager → Prop) : Prop :=
  ∃ a self', m self = (Ok a, self') ∧ Q a self'.

(** The inventory as the redraw sees it: the store and the filters stay,
    the container holds [view]. *)
Definition inventory_is (self0 : manager.WebUIManager)
    (view : list nicegui.Element) (self : manager.WebUIManager) : Prop :=
  manager._campaigns self = manager._campaigns self0 ∧
  manager._inventory_filters self = manager._inventory_filters self0 ∧
  manager._inventory_container self = Some view.

(** The close flag in a world of the race. *)
Definition flag_of {A : Type} (w : aio.World A) : bool :=
  manager._close_requested (aio.self w).

(** What holds of the [Event.wait()] task as long as nobody has cancelled
    it: it is pending without a request or has returned [True], and while
    the flag is set its future is not left unresolved. *)
Definition wait_sound {A : Type} (w : aio.World A) : Prop :=
  (aio.wait_task w = aio.Pending false ∨ aio.wait_task w = aio.Done (Ok true)) ∧
  (flag_of w = true → aio.wait_fut w ≠ Some false).

(** The event is a run of the operation in which it ends. *)
Definition op_ends {A : Type} (e : aio.event A) : Prop :=
  ∃ r, e = aio.OpRuns (Some r).

(** The label for [m] whole minutes of remaining time. *)
Definition minutes_label (m : Z) : string :=
  if (1440 <=? m)%Z
  then pretty (m / 1440)%Z +:+ "d " +:+ pretty ((m / 60) mod 24)%Z +:+ "h "
       +:+ pretty (m mod 60)%Z +:+ "m"
  else if (60 <=? m)%Z
  then pretty (m / 60)%Z +:+ "h " +:+ pretty (m mod 60)%Z +:+ "m"
  else pretty m +:+ "m".

(** The label for a start [h] whole hours away. *)
Definition hours_label (h : Z) : string :=
  if (24 <=? h)%Z
  then "Starts in " +:+ pretty (h / 24)%Z +:+ "d " +:+ pretty (h mod 24)%Z +:+ "h"
  else "Starts in " +:+ pretty h +:+ "h".

(** The lines that one call of [print] made at [timestamp] sends to the
    log element. *)
Definition shown_lines (timestamp message : string) : list string :=
  if pystr.contains pystr.newline message
  then mjoin ((λ line, pystr.splitlines (timestamp +:+ ": " +:+ line))
                <$> List.filter pystr.strip_nonempty
                      (pystr.split pystr.newline message))
  else pystr.splitlines (timestamp +:+ ": " +:+ message).

(** The log element shows [s] as one line, [s] itself: [s] is not empty
    and holds no line boundary. *)
Definition one_line (s : string) : Prop := pystr.splitlines s = [s].

(** The last [n] elements of a list. *)
Definition last_lines {A : Type} (n : nat) (l : list A) : list A :=
  drop (length l - n) l.

(** Sample data for the closed statements. *)
Module samples.
Import controller.

Definition twitch_excluding (games : list string) : Twitch :=
  {| inventory := None;
     settings := Some {| exclude := Some (list_to_set games) |} |}.

Definition twitch_holding (campaigns : list Campaign) : Twitch :=
  {| inventory := Some campaigns; settings := None |}.

(** A campaign that is neither active, upcoming nor expired. *)
Definition idle_campaign : Campaign :=
  {| id := Some "c1"; name := Some "Idle"; game := Some {| game_name := Some "Chess" |};
     active := Some false; upcoming := Some false; expired := Some false;
     eligible := Some true; drops := Some []; progress := None |}.

(** An active campaign of an account that is not linked. *)
Definition unlinked_active_campaign : Campaign :=
  {| id := Some "c2"; name := Some "Unlinked"; game := Some {| game_name := Some "Go" |};
     active := Some true; upcoming := Some false; expired := Some false;
     eligible := Some false; drops := Some []; progress := None |}.

(** A campaign that has not started, and one that is over. *)
Definition upcoming_campaign : Campaign :=
  {| id := Some "c4"; name := Some "Soon"; game := Some {| game_name := Some "Go" |};
     active := Some false; upcoming := Some true; expired := Some false;
     eligible := Some true; drops := Some []; progress := None |}.

Definition expired_campaign : Campaign :=
  {| id := Some "c5"; name := Some "Over"; game := Some {| game_name := Some "Go" |};
     active := Some false; upcoming := Some false; expired := Some true;
     eligible := Some true; drops := Some []; progress := None |}.

(** A campaign object that has no [id] attribute. *)
Definition anonymous_campaign : Campaign :=
  {| id := None; name := Some "Anonymous"; game := Some {| game_name := Some "Go" |};
     active := Some true; upcoming := Some false; expired := Some false;
     eligible := Some true; drops := Some []; progress := None |}.

Definition drop (cur req : Z) : Drop :=
  {| current_minutes := Some cur; required_minutes := Some req |}.

Definition campaign_with_drops (ds : list Drop) : Campaign :=
  {| id := Some "c3"; name := Some "Drops"; game := Some {| game_name := Some "Chess" |};
     active := Some true; upcoming := Some false; expired := Some false;
     eligible := Some true; drops := Some ds; progress := None |}.

Definition entry_of (status : string) (c : option Campaign) : campaign_data :=
  {| cd_name := Some "entry"; cd_game := Some "Chess";
     cd_status := Some status; cd_progress := Some 0%Q;
     cd_time_remaining := Some ""; cd_campaign_obj := c |}.

Definition filters_off : gmap string bool :=
  manager._inventory_filters (manager.__init__ (twitch_excluding [])).

(** A manager whose page is built, holding an active and an expired
    entry, with only the [active] flag on. *)
Definition two_campaign_manager : manager.WebUIManager :=
  (manager.set_inventory_filters (<["active" := true]> filters_off)
     (manager.set_campaigns
        [("a", entry_of "Active" None); ("b", entry_of "Expired" None)]
        (inventory_panel._create_campaign_list_section
           (manager.__init__ (twitch_excluding []))).2).2).2.

(** Plain decimal numerals, read as Python's [int] reads them. *)
Fixpoint digits (s : string) (acc : Z) : option Z :=
  match s with
  | EmptyString => Some acc
  | String c s' =>
      let n := nat_of_ascii c in
      if (48 <=? n)%nat && (n <=? 57)%nat
      then digits s' (acc * 10 + Z.of_nat (n - 48))%Z
      else None
  end.

Definition int (s : string) : option Z :=
  match s with
  | EmptyString => None
  | _ => digits s 0
  end.

Definition env : Environment :=
  {| strftime_now := λ n, pretty n;
     format_1f := λ _, "0.0";
     format_time_remaining := λ _, "";
     _get_time_remaining := λ _, "";
     container_type_str := "<class 'nicegui.elements.column.Column'>";
     with_none_error := TypeError "NoneType";
     format_exc := exn_str |}.

End samples.

(** * The filter *)

Section filter_facts.
Import controller.
#[local] Existing Instance samples.env.

Lemma all_flags_off_lookup filters k :
  all_flags_off filters → k ∈ filter_names → filters !! k = Some false.
Proof.
  unfold all_flags_off. rewrite Forall_forall. auto.
Qed.

Lemma has_all_flags_lookup filters k :
  has_all_flags filters → k ∈ filter_names → is_Some (filters !! k).
Proof.
  unfold has_all_flags. rewrite Forall_forall. auto.
Qed.

Lemma all_flags_off_has filters : all_flags_off filters → has_all_flags filters.
Proof.
  unfold all_flags_off, has_all_flags. intros Hoff.
  eapply Forall_impl; [exact Hoff|]. intros k ->. eauto.
Qed.

(** With the six keys present, [_should_show_campaign] does not raise, and
    reads the same flags as the [.get] calls of the package. *)
Lemma legacy_reads filters twitch cd :
  has_all_flags filters →
  webui_py._should_show_campaign twitch filters cd =
  Some
    match cd_campaign_obj cd with
    | None =>
        if negb (any_filter_enabled filters) then false
        else bucket_chain filters (lowered_status cd) false
    | Some campaign =>
        if flag filters "not_linked" && negb (default true (eligible campaign))
        then false
        else bucket_chain filters (lowered_status cd)
               (negb (webui_py.hidden_as_excluded twitch campaign
                        (flag filters "excluded")))
    end.
Proof.
  intros Hall.
  assert (Hk : ∀ k, k ∈ filter_names → is_Some (filters !! k))
    by (intros; by apply has_all_flags_lookup).
  destruct (Hk "not_linked") as [b1 E1]; [set_solver|].
  destruct (Hk "upcoming") as [b2 E2]; [set_solver|].
  destruct (Hk "active") as [b3 E3]; [set_solver|].
  destruct (Hk "expired") as [b4 E4]; [set_solver|].
  destruct (Hk "excluded") as [b5 E5]; [set_solver|].
  destruct (Hk "finished") as [b6 E6]; [set_solver|].
  unfold webui_py._should_show_campaign, any_filter_enabled, bucket_chain,
    flag, lowered_status.
  rewrite E1, E2, E3, E4, E5, E6. simpl.
  destruct (cd_campaign_obj cd) as [campaign|]; [|reflexivity].
  repeat case_match; reflexivity.
Qed.

Lemma package_reads filters cd :
  utils.should_show_campaign_with_filters cd filters =
  match cd_campaign_obj cd with
  | None =>
      if negb (any_filter_enabled filters) then false
      else bucket_chain filters (lowered_status cd) false
  | Some campaign =>
      if flag filters "not_linked" && negb (default true (eligible campaign))
      then false
      else bucket_chain filters (lowered_status cd) true
  end.
Proof. reflexivity. Qed.

Lemma bucket_chain_in filters status otherwise :
  status ∈ bucket_names →
  bucket_chain filters status otherwise = flag filters status.
Proof.
  unfold bucket_names. rewrite !elem_of_cons, elem_of_nil.
  intros [->|[->|[->|[->|[]]]]]; reflexivity.
Qed.

Lemma bucket_chain_out filters status otherwise :
  status ∉ bucket_names →
  bucket_chain filters status otherwise = otherwise.
Proof.
  unfold bucket_names. rewrite !not_elem_of_cons. intros (N1 & N2 & N3 & N4 & _).
  unfold bucket_chain.
  apply String.eqb_neq in N1, N2, N3, N4. by rewrite N1, N2, N3, N4.
Qed.

Lemma any_filter_enabled_off filters :
  all_flags_off filters → any_filter_enabled filters = false.
Proof.
  intros Hoff. unfold any_filter_enabled, flag.
  rewrite !(all_flags_off_lookup filters) by (done || set_solver). done.
Qed.

Lemma hidden_as_excluded_spec twitch campaign show_excluded :
  webui_py.hidden_as_excluded twitch campaign show_excluded = true ↔
  game_excluded twitch campaign ∧ show_excluded = false.
Proof.
  unfold webui_py.hidden_as_excluded, game_excluded.
  destruct (game campaign) as [g|], (settings twitch) as [st|]; simpl.
  - rewrite andb_true_iff, bool_decide_eq_true, negb_true_iff.
    split.
    + intros [Hin ->]. split; [|done]. by exists g, st.
    + intros [(g' & st' & [= <-] & [= <-] & Hin) ->]. done.
  - split; [done|]. by intros [(g' & st' & _ & [=] & _) _].
  - split; [done|]. by intros [(g' & st' & [=] & _) _].
  - split; [done|]. by intros [(g' & st' & [=] & _) _].
Qed.

(** C8.  A campaign backed by a live object with [eligible = False] is
    hidden whenever the [not_linked] flag is on, whatever its status and
    the other five flags: by [should_show_campaign_with_filters], and by
    [_should_show_campaign] (which needs the six keys to be present). *)
Theorem not_linked_hides_ineligible cd campaign filters :
  cd_campaign_obj cd = Some campaign →
  eligible campaign = Some false →
  filters !! "not_linked" = Some true →
  utils.should_show_campaign_with_filters cd filters = false ∧
  ∀ twitch, has_all_flags filters →
    webui_py._should_show_campaign twitch filters cd = Some false.
Proof.
  intros Hobj Hel Hnl. split.
  - rewrite package_reads, Hobj, Hel. unfold flag. by rewrite Hnl.
  - intros twitch Hall. rewrite legacy_reads by done.
    rewrite Hobj, Hel. unfold flag. by rewrite Hnl.
Qed.

Lemma not_linked_hides_ineligible_witness :
  let cd := samples.entry_of "Active" (Some samples.unlinked_active_campaign) in
  let filters :=
    <["not_linked" := true]> (<["active" := true]> samples.filters_off) in
  utils.should_show_campaign_with_filters cd filters = false ∧
  webui_py._should_show_campaign (samples.twitch_excluding []) filters cd
  = Some false.
Proof.
  intros cd filters.
  destruct (not_linked_hides_ineligible cd samples.unlinked_active_campaign
              filters eq_refl eq_refl eq_refl) as [Hpackage Hlegacy].
  split; [exact Hpackage|]. apply Hlegacy. repeat constructor; by eexists.
Defined.

(** C2, as the code has it.  With all six flags off: an entry without a
    live object is hidden; an entry with a live object is hidden when its
    status is one of the four buckets; an entry with a live object whose
    status is in no bucket is shown, provided its game is not in the
    excluded game list. *)
Theorem all_flags_off_visibility cd filters twitch :
  all_flags_off filters →
  (cd_campaign_obj cd = None →
     utils.should_show_campaign_with_filters cd filters = false ∧
     webui_py._should_show_campaign twitch filters cd = Some false) ∧
  (∀ campaign, cd_campaign_obj cd = Some campaign →
     (lowered_status cd ∈ bucket_names →
        utils.should_show_campaign_with_filters cd filters = false ∧
        webui_py._should_show_campaign twitch filters cd = Some false) ∧
     (lowered_status cd ∉ bucket_names →
      ¬ game_excluded twitch campaign →
        utils.should_show_campaign_with_filters cd filters = true ∧
        webui_py._should_show_campaign twitch filters cd = Some true)).
Proof.
  intros Hoff.
  pose proof (all_flags_off_has _ Hoff) as Hall.
  pose proof (any_filter_enabled_off _ Hoff) as Hany.
  assert (Hflag : ∀ k, k ∈ filter_names → flag filters k = false).
  { intros k Hk. unfold flag. by rewrite (all_flags_off_lookup filters k). }
  rewrite package_reads, legacy_reads by done. split.
  - intros ->. by rewrite Hany.
  - intros campaign ->. rewrite (Hflag "not_linked") by set_solver. simpl.
    split.
    + intros Hin. rewrite !bucket_chain_in by done.
      rewrite Hflag; [done|].
      revert Hin. unfold bucket_names, filter_names.
      rewrite !elem_of_cons. tauto.
    + intros Hout Hnex. rewrite !bucket_chain_out by done.
      split; [done|]. f_equal. apply negb_true_iff.
      apply not_true_is_false. rewrite hidden_as_excluded_spec. tauto.
Qed.

Lemma all_flags_off_visibility_witness :
  let twitch := samples.twitch_excluding [] in
  let synthetic := samples.entry_of "Active" None in
  let active := samples.entry_of "Active" (Some samples.idle_campaign) in
  let unknown := mock_classes.add_campaign_entry samples.idle_campaign in
  all_flags_off samples.filters_off ∧
  (utils.should_show_campaign_with_filters synthetic samples.filters_off = false ∧
   webui_py._should_show_campaign twitch samples.filters_off synthetic
   = Some false) ∧
  (utils.should_show_campaign_with_filters active samples.filters_off = false ∧
   webui_py._should_show_campaign twitch samples.filters_off active
   = Some false) ∧
  (utils.should_show_campaign_with_filters unknown samples.filters_off = true ∧
   webui_py._should_show_campaign twitch samples.filters_off unknown
   = Some true).
Proof.
  intros twitch synthetic active unknown.
  assert (Hoff : all_flags_off samples.filters_off).
  { repeat constructor. }
  split; [exact Hoff|]. split; [|split].
  - by apply (all_flags_off_visibility synthetic samples.filters_off twitch Hoff).
  - destruct (all_flags_off_visibility active samples.filters_off twitch Hoff)
      as [_ Hlive].
    destruct (Hlive samples.idle_campaign eq_refl) as [Hin _].
    apply Hin. unfold bucket_names. apply elem_of_cons. right.
    apply elem_of_cons. by left.
  - destruct (all_flags_off_visibility unknown samples.filters_off twitch Hoff)
      as [_ Hlive].
    destruct (Hlive samples.idle_campaign eq_refl) as [_ Hout].
    apply Hout.
    + unfold bucket_names. rewrite !not_elem_of_cons.
      repeat split; try discriminate. apply not_elem_of_nil.
    + intros (g & st & Hg & Hst & Hin).
      injection Hg as <-. injection Hst as <-.
      simpl in Hin. revert Hin. apply not_elem_of_empty.
Defined.

(** C2 as stated fails: a campaign with a live object that is neither
    active, upcoming nor expired is ingested with the status ["Unknown"],
    and is shown although all six flags are off. *)
Lemma all_flags_off_shows_unknown_status :
  let cd := mock_classes.add_campaign_entry samples.idle_campaign in
  all_flags_off samples.filters_off ∧
  cd_campaign_obj cd = Some samples.idle_campaign ∧
  utils.should_show_campaign_with_filters cd samples.filters_off ≠ false ∧
  webui_py._should_show_campaign (samples.twitch_excluding [])
    samples.filters_off cd ≠ Some false.
Proof.
  split; [repeat constructor|]. split; [reflexivity|].
  split; vm_compute; discriminate.
Qed.

Lemma flag_insert_ne filters k k' b :
  k ≠ k' → flag (<[k := b]> filters) k' = flag filters k'.
Proof. intros Hne. unfold flag. by rewrite lookup_insert_ne. Qed.

Lemma has_all_flags_insert filters k b :
  has_all_flags filters → has_all_flags (<[k := b]> filters).
Proof.
  unfold has_all_flags. intros Hall.
  eapply Forall_impl; [exact Hall|]. intros k' Hk'. simpl in *.
  destruct (decide (k = k')) as [->|Hne].
  - rewrite lookup_insert_eq. eauto.
  - by rewrite lookup_insert_ne.
Qed.

Lemma bucket_not_excluded status : status ∈ bucket_names → "excluded" ≠ status.
Proof.
  unfold bucket_names. rewrite !elem_of_cons, elem_of_nil.
  intros [->|[->|[->|[->|[]]]]]; discriminate.
Qed.

(** C3, as the code has it.  For an entry with a live object: when the
    status is one of the four buckets and the eligibility test does not
    hide the entry, the answer is the flag of that bucket, and neither the
    [excluded] flag nor the excluded game list has a say; when the status
    is in no bucket, [_should_show_campaign] hides an entry whose game is
    in the excluded game list while the [excluded] flag is off. *)
Theorem status_bucket_precedence cd campaign filters twitch :
  cd_campaign_obj cd = Some campaign →
  (lowered_status cd ∈ bucket_names →
   flag filters "not_linked" && negb (default true (eligible campaign)) = false →
     (utils.should_show_campaign_with_filters cd filters
      = flag filters (lowered_status cd) ∧
      ∀ b, utils.should_show_campaign_with_filters cd
             (<["excluded" := b]> filters)
           = utils.should_show_campaign_with_filters cd filters) ∧
     (has_all_flags filters →
        webui_py._should_show_campaign twitch filters cd
        = Some (flag filters (lowered_status cd)) ∧
        ∀ twitch' b, webui_py._should_show_campaign twitch'
                       (<["excluded" := b]> filters) cd
                     = webui_py._should_show_campaign twitch filters cd)) ∧
  (lowered_status cd ∉ bucket_names →
   has_all_flags filters →
   game_excluded twitch campaign →
   flag filters "excluded" = false →
     webui_py._should_show_campaign twitch filters cd = Some false).
Proof.
  intros Hobj. split.
  - intros Hin Hel.
    assert (Hel' : ∀ b, flag (<["excluded" := b]> filters) "not_linked"
                        && negb (default true (eligible campaign)) = false).
    { intros b. by rewrite flag_insert_ne. }
    assert (Hfl : ∀ b, flag (<["excluded" := b]> filters) (lowered_status cd)
                       = flag filters (lowered_status cd)).
    { intros b. apply flag_insert_ne. by apply bucket_not_excluded. }
    repeat split.
    + rewrite package_reads, Hobj, Hel. by apply bucket_chain_in.
    + intros b. rewrite !package_reads, Hobj, Hel, Hel'.
      by rewrite !bucket_chain_in, Hfl.
    + rewrite legacy_reads, Hobj, Hel by done. f_equal. by apply bucket_chain_in.
    + intros twitch' b.
      rewrite !legacy_reads by (done || by apply has_all_flags_insert).
      rewrite Hobj, Hel, Hel'. by rewrite !bucket_chain_in, Hfl.
  - intros Hout Hall Hex Hoff. rewrite legacy_reads, Hobj by done.
    destruct (flag filters "not_linked"
              && negb (default true (eligible campaign))); [done|].
    rewrite bucket_chain_out by done. f_equal. apply negb_false_iff.
    apply hidden_as_excluded_spec. done.
Qed.

Lemma status_bucket_precedence_witness :
  let active := samples.entry_of "Active" (Some samples.idle_campaign) in
  let unknown := samples.entry_of "Unknown" (Some samples.idle_campaign) in
  let filters := <["active" := true]> samples.filters_off in
  let twitch := samples.twitch_excluding ["Chess"] in
  (utils.should_show_campaign_with_filters active filters = true ∧
   webui_py._should_show_campaign twitch filters active = Some true) ∧
  webui_py._should_show_campaign twitch samples.filters_off unknown
  = Some false.
Proof.
  intros active unknown filters twitch. split.
  - destruct (status_bucket_precedence active samples.idle_campaign filters
                twitch eq_refl) as [Hin _].
    destruct Hin as [[Hpackage _] Hlegacy].
    + unfold bucket_names. apply elem_of_cons. right.
      apply elem_of_cons. by left.
    + reflexivity.
    + split; [exact Hpackage|]. apply Hlegacy.
      repeat constructor; by eexists.
  - destruct (status_bucket_precedence unknown samples.idle_campaign
                samples.filters_off twitch eq_refl) as [_ Hout].
    apply Hout.
    + unfold bucket_names. rewrite !not_elem_of_cons.
      repeat split; try discriminate. apply not_elem_of_nil.
    + repeat constructor; by eexists.
    + eexists _, _. split; [reflexivity|]. split; [reflexivity|].
      simpl. apply elem_of_union_l. by apply elem_of_singleton.
    + reflexivity.
Defined.

(** C3 as stated fails in its first half: an active campaign whose
    account is not linked is hidden by the eligibility test although the
    [active] flag is on, so the answer is not the flag of its bucket. *)
Lemma status_flag_overridden_by_eligibility :
  let cd := samples.entry_of "Active" (Some samples.unlinked_active_campaign) in
  let filters :=
    <["not_linked" := true]> (<["active" := true]> samples.filters_off) in
  lowered_status cd ∈ bucket_names ∧
  flag filters (lowered_status cd) = true ∧
  utils.should_show_campaign_with_filters cd filters = false ∧
  webui_py._should_show_campaign (samples.twitch_excluding []) filters cd
  = Some false.
Proof.
  split; [|by vm_compute].
  unfold bucket_names. apply elem_of_cons. right. by apply elem_of_cons; left.
Qed.

(** The package's filter has no excluded game list: with the status in no
    bucket it shows the entry of an excluded game that
    [_should_show_campaign] hides. *)
Remark package_filter_ignores_excluded_games :
  let cd := samples.entry_of "Unknown" (Some samples.idle_campaign) in
  utils.should_show_campaign_with_filters cd samples.filters_off = true ∧
  webui_py._should_show_campaign (samples.twitch_excluding ["Chess"])
    samples.filters_off cd = Some false.
Proof. by vm_compute. Qed.

End filter_facts.

(** * The derived status *)

Section status_facts.
Import controller.
Context `{Environment}.

Lemma get_campaign_status_values campaign :
  utils.get_campaign_status campaign
    ∈ ["Active"; "Upcoming"; "Expired"; "Unknown"].
Proof.
  unfold utils.get_campaign_status.
  destruct (has_and_true (active campaign));
    [|destruct (has_and_true (upcoming campaign));
      [|destruct (has_and_true (expired campaign))]];
    rewrite !elem_of_cons; tauto.
Qed.

(** An entry whose status is one of the four derived ones is shown or
    hidden without the [finished] flag being looked at. *)
Lemma derived_status_ignores_finished cd filters b :
  is_Some (cd_campaign_obj cd) →
  default "" (cd_status cd) ∈ ["Active"; "Upcoming"; "Expired"; "Unknown"] →
  utils.should_show_campaign_with_filters cd (<["finished" := b]> filters)
  = utils.should_show_campaign_with_filters cd filters.
Proof.
  intros [campaign Hobj] Hst. rewrite !package_reads, Hobj.
  unfold lowered_status. revert Hst. rewrite !elem_of_cons, elem_of_nil.
  intros [->|[->|[->|[->|[]]]]]; unfold bucket_chain; simpl;
    rewrite ?(flag_insert_ne filters "finished") by discriminate;
    reflexivity.
Qed.

Lemma inventory_entry_ok campaign self k cd self' :
  inventory_panel.inventory_entry campaign self = (Ok (k, cd), self') →
  cd_status cd = Some (utils.get_campaign_status campaign) ∧
  cd_campaign_obj cd = Some campaign.
Proof.
  unfold inventory_panel.inventory_entry, inventory_panel.attr.
  unfold mbind, manager.M_bind, mret, manager.M_ret, manager.raise.
  destruct (name campaign), (game campaign), (controller.id campaign);
    simpl; intros Heq; simplify_eq; done.
Qed.

(** C10.  The status derived at ingestion is ["Active"] for a campaign
    that reports active, else ["Upcoming"] for one that reports upcoming,
    else ["Expired"] for one that reports expired, else ["Unknown"], by
    [get_campaign_status] and by [MockInventory._get_campaign_status]
    alike; it is never ["Finished"], and the entry made of a campaign by
    [MockInventory.add_campaign] or by [refresh_inventory] is shown or
    hidden without regard to the [finished] flag. *)
Theorem derived_status_precedence campaign :
  mock_classes._get_campaign_status campaign
  = utils.get_campaign_status campaign ∧
  (has_and_true (active campaign) = true →
     utils.get_campaign_status campaign = "Active") ∧
  (has_and_true (active campaign) = false →
   has_and_true (upcoming campaign) = true →
     utils.get_campaign_status campaign = "Upcoming") ∧
  (has_and_true (active campaign) = false →
   has_and_true (upcoming campaign) = false →
   has_and_true (expired campaign) = true →
     utils.get_campaign_status campaign = "Expired") ∧
  (has_and_true (active campaign) = false →
   has_and_true (upcoming campaign) = false →
   has_and_true (expired campaign) = false →
     utils.get_campaign_status campaign = "Unknown") ∧
  utils.get_campaign_status campaign ≠ "Finished" ∧
  pystr.lower (utils.get_campaign_status campaign) ≠ "finished" ∧
  (∀ filters b,
     let cd := mock_classes.add_campaign_entry campaign in
     lowered_status cd ≠ "finished" ∧
     utils.should_show_campaign_with_filters cd (<["finished" := b]> filters)
     = utils.should_show_campaign_with_filters cd filters) ∧
  (∀ self k cd self' filters b,
     inventory_panel.inventory_entry campaign self = (Ok (k, cd), self') →
     lowered_status cd ≠ "finished" ∧
     utils.should_show_campaign_with_filters cd (<["finished" := b]> filters)
     = utils.should_show_campaign_with_filters cd filters).
Proof.
  pose proof (get_campaign_status_values campaign) as Hv.
  assert (Hlow : pystr.lower (utils.get_campaign_status campaign) ≠ "finished").
  { revert Hv. rewrite !elem_of_cons, elem_of_nil.
    intros [->|[->|[->|[->|[]]]]]; discriminate. }
  split; [reflexivity|].
  unfold utils.get_campaign_status in *.
  split; [by intros ->|]. split; [by intros -> ->|].
  split; [by intros -> -> ->|]. split; [by intros -> -> ->|].
  split.
  { revert Hv. rewrite !elem_of_cons, elem_of_nil.
    intros [->|[->|[->|[->|[]]]]]; discriminate. }
  split; [exact Hlow|]. split.
  - intros filters b. cbv zeta. split; [exact Hlow|].
    apply derived_status_ignores_finished; [by eexists|exact Hv].
  - intros self k cd self' filters b Hentry.
    apply inventory_entry_ok in Hentry as [Hst Hobj]. split.
    + unfold lowered_status. rewrite Hst. exact Hlow.
    + apply derived_status_ignores_finished; [by eexists|].
      rewrite Hst. exact Hv.
Qed.

End status_facts.

Section status_samples.
#[local] Existing Instance samples.env.

Lemma derived_status_precedence_witness :
  let self := manager.__init__ (samples.twitch_excluding []) in
  utils.get_campaign_status samples.unlinked_active_campaign = "Active" ∧
  utils.get_campaign_status samples.upcoming_campaign = "Upcoming" ∧
  utils.get_campaign_status samples.expired_campaign = "Expired" ∧
  utils.get_campaign_status samples.idle_campaign = "Unknown" ∧
  ∃ k cd self',
    inventory_panel.inventory_entry samples.expired_campaign self
    = (Ok (k, cd), self') ∧
    utils.should_show_campaign_with_filters cd
      (<["finished" := true]> samples.filters_off)
    = utils.should_show_campaign_with_filters cd samples.filters_off.
Proof.
  intros self. split; [|split; [|split; [|split]]].
  - apply (derived_status_precedence samples.unlinked_active_campaign).
    reflexivity.
  - apply (derived_status_precedence samples.upcoming_campaign); reflexivity.
  - apply (derived_status_precedence samples.expired_campaign); reflexivity.
  - apply (derived_status_precedence samples.idle_campaign); reflexivity.
  - destruct (derived_status_precedence samples.expired_campaign)
      as (_ & _ & _ & _ & _ & _ & _ & _ & Hinventory).
    eexists _, _, _. split; [reflexivity|].
    by destruct (Hinventory self _ _ _ samples.filters_off true eq_refl).
Defined.

End status_samples.

(** * The derived progress *)

Section progress_facts.
Import controller.

Lemma drop_progress_None d :
  utils.drop_progress d = None ↔ ¬ reports_minutes d.
Proof.
  unfold utils.drop_progress, reports_minutes.
  destruct (current_minutes d) as [cur|], (required_minutes d) as [req|];
    try (split; [intros _ (? & ? & ? & ? & ?); congruence | done]).
  destruct (Z.ltb_spec 0 req) as [Hpos|Hneg].
  - split; [done|]. intros Hno. exfalso. apply Hno. by exists cur, req.
  - split; [|done]. intros _ (cur' & req' & _ & [= <-] & Hpos). lia.
Qed.

Lemma drop_progress_Some d cur req :
  current_minutes d = Some cur → required_minutes d = Some req → (0 < req)%Z →
  utils.drop_progress d = Some ((inject_Z cur / inject_Z req) * 100)%Q.
Proof.
  intros Hc Hr Hpos. unfold utils.drop_progress. rewrite Hc, Hr.
  by destruct (Z.ltb_spec 0 req); [|lia].
Qed.

Lemma first_drop_progress_skip pre ds :
  Forall (λ d, ¬ reports_minutes d) pre →
  utils.first_drop_progress (pre ++ ds) = utils.first_drop_progress ds.
Proof.
  induction 1 as [|d pre Hd _ IH]; [done|]. simpl.
  apply drop_progress_None in Hd. by rewrite Hd.
Qed.

Lemma first_drop_progress_none ds :
  Forall (λ d, ¬ reports_minutes d) ds → utils.first_drop_progress ds = 0%Q.
Proof.
  intros Hall. rewrite <- (app_nil_r ds). by rewrite first_drop_progress_skip.
Qed.

Lemma percent_bounds cur req :
  (0 ≤ cur ≤ req)%Z → (0 < req)%Z →
  (0 <= (inject_Z cur / inject_Z req) * 100 ∧
   (inject_Z cur / inject_Z req) * 100 <= 100)%Q.
Proof.
  intros [Hlo Hhi] Hpos. destruct req as [|p|p]; try lia.
  unfold Qle, Qdiv, Qmult, Qinv, inject_Z. simpl. lia.
Qed.

(** C4, as the code has it.  The derived progress is
    currentMinutes / requiredMinutes × 100 of the first drop, in the order
    of the campaign's drops, that reports minutes; it is 0 when no drop
    does (or the campaign has no drops attribute); no maximum is taken and
    nothing is clamped, so that the value lies in [0, 100] when that first
    drop has 0 ≤ currentMinutes ≤ requiredMinutes.  [_get_campaign_progress]
    computes the same value for a campaign that has drops. *)
Theorem progress_of_first_reporting_drop campaign :
  (∀ pre d post cur req,
     drops campaign = Some (pre ++ d :: post) →
     Forall (λ d', ¬ reports_minutes d') pre →
     current_minutes d = Some cur →
     required_minutes d = Some req →
     (0 < req)%Z →
       utils.get_campaign_progress campaign
       = ((inject_Z cur / inject_Z req) * 100)%Q ∧
       ((0 ≤ cur ≤ req)%Z →
          (0 <= utils.get_campaign_progress campaign ∧
           utils.get_campaign_progress campaign <= 100)%Q)) ∧
  (∀ ds,
     drops campaign = Some ds →
     Forall (λ d, ¬ reports_minutes d) ds →
       utils.get_campaign_progress campaign = 0%Q) ∧
  (drops campaign = None → utils.get_campaign_progress campaign = 0%Q) ∧
  (∀ ds,
     drops campaign = Some ds →
       webui_py._get_campaign_progress campaign
       = Some (utils.get_campaign_progress campaign)).
Proof.
  unfold utils.get_campaign_progress, webui_py._get_campaign_progress.
  split; [|split; [|split]].
  - intros pre d post cur req Hds Hpre Hcur Hreq Hpos.
    rewrite Hds, first_drop_progress_skip by done. simpl.
    erewrite drop_progress_Some by done.
    split; [done|]. intros Hrange. by apply percent_bounds.
  - intros ds ->. apply first_drop_progress_none.
  - by intros ->.
  - by intros ds ->.
Qed.

Lemma progress_of_first_reporting_drop_witness :
  let silent := {| current_minutes := None; required_minutes := Some 5%Z |} in
  let c := samples.campaign_with_drops
             [silent; samples.drop 1 2; samples.drop 1 1] in
  (utils.get_campaign_progress c = ((inject_Z 1 / inject_Z 2) * 100)%Q ∧
   (0 <= utils.get_campaign_progress c ∧
    utils.get_campaign_progress c <= 100)%Q) ∧
  utils.get_campaign_progress
    (samples.campaign_with_drops [silent; samples.drop 7 0]) = 0%Q ∧
  utils.get_campaign_progress samples.idle_campaign = 0%Q ∧
  webui_py._get_campaign_progress c = Some (utils.get_campaign_progress c).
Proof.
  intros silent c.
  assert (Hsilent : ¬ reports_minutes silent).
  { intros (cur & req & Hcur & _). discriminate Hcur. }
  split; [|split; [|split]].
  - destruct (progress_of_first_reporting_drop c) as [Hfirst _].
    destruct (Hfirst [silent] (samples.drop 1 2) [samples.drop 1 1] 1%Z 2%Z)
      as [Heq Hbounds].
    + reflexivity.
    + constructor; [exact Hsilent|constructor].
    + reflexivity.
    + reflexivity.
    + lia.
    + split; [exact Heq|]. apply Hbounds. lia.
  - destruct (progress_of_first_reporting_drop
                (samples.campaign_with_drops [silent; samples.drop 7 0]))
      as (_ & Hnone & _).
    apply (Hnone [silent; samples.drop 7 0]); [reflexivity|].
    constructor; [exact Hsilent|]. constructor; [|constructor].
    intros (cur & req & _ & Hreq & Hpos). injection Hreq as <-. lia.
  - destruct (progress_of_first_reporting_drop samples.idle_campaign)
      as (_ & Hnone & _).
    apply (Hnone []); [reflexivity|constructor].
  - destruct (progress_of_first_reporting_drop c) as (_ & _ & _ & Hlegacy).
    by apply (Hlegacy [silent; samples.drop 1 2; samples.drop 1 1]).
Defined.

(** C4 as stated fails: with the drops (1 of 2 minutes) and (1 of 1
    minute) the code answers 50, the first drop's share, where the maximum
    is 100; and with one drop of 3 minutes watched of 1 required it answers
    300, which is not clamped.  (All the numbers involved are exact in
    binary floating point.) *)
Lemma progress_is_not_the_clamped_maximum :
  let c1 := samples.campaign_with_drops [samples.drop 1 2; samples.drop 1 1] in
  let c2 := samples.campaign_with_drops [samples.drop 3 1] in
  (utils.get_campaign_progress c1 == 50)%Q ∧
  (progressPercent_spec c1 == 100)%Q ∧
  ¬ (utils.get_campaign_progress c1 == progressPercent_spec c1)%Q ∧
  (utils.get_campaign_progress c2 == 300)%Q ∧
  ¬ (utils.get_campaign_progress c2 <= 100)%Q.
Proof.
  repeat split; try (by vm_compute); intros Hc; vm_compute in Hc; done.
Qed.

End progress_facts.

(** * The websocket status table *)

Section websocket_facts.
Import mock_classes.

Lemma update_some idx status topics self :
  is_Some status ∨ is_Some topics →
  update idx status topics self =
  (Ok tt,
   {| _items :=
        <[idx :=
            let item := default {| status := "disconnected"; topics := 0 |}
                          (_items self !! idx) in
            {| status := default (mock_classes.status item) status;
               topics := default (mock_classes.topics item) topics |}]>
          (_items self) |}).
Proof.
  unfold update.
  destruct status as [s|], topics as [t|], (_items self !! idx) as [[s0 t0]|];
    try reflexivity; intros [[? [=]]|[? [=]]].
Qed.

(** C7.  [update] with neither [status] nor [topics] raises and leaves the
    table as it was; the first [update] for an index starts from
    [{status: "disconnected", topics: 0}] and then applies the fields
    given; [update(0, status="connected")] followed by
    [update(0, topics=5)] leaves [{status: "connected", topics: 5}] at
    index 0. *)
Theorem websocket_update_contract :
  (∀ idx self,
     ∃ msg, update idx None None self = (Raise (TypeError msg), self)) ∧
  (∀ idx status topics self,
     is_Some status ∨ is_Some topics →
     _items self !! idx = None →
     ∃ self',
       update idx status topics self = (Ok tt, self') ∧
       _items self' !! idx
       = Some {| status := default "disconnected" status;
                 topics := default 0%Z topics |} ∧
       ∀ j, j ≠ idx → _items self' !! j = _items self !! j) ∧
  (∀ self,
     ∃ self1 self2,
       update 0 (Some "connected") None self = (Ok tt, self1) ∧
       update 0 None (Some 5%Z) self1 = (Ok tt, self2) ∧
       _items self2 !! 0%Z = Some {| status := "connected"; topics := 5 |}).
Proof.
  split; [|split].
  - intros idx self. eexists. reflexivity.
  - intros idx status topics self Hsome Hnew.
    eexists. split; [by apply update_some|]. simpl. split.
    + by rewrite lookup_insert_eq, Hnew.
    + intros j Hne. by rewrite lookup_insert_ne.
  - intros self. eexists _, _.
    split; [apply update_some; left; by eexists|].
    split; [apply update_some; right; by eexists|].
    simpl. by rewrite !lookup_insert_eq.
Qed.

Lemma websocket_update_contract_witness :
  ∃ self',
    update 3 (Some "connecting") None MockWebsocketStatus__init__
    = (Ok tt, self') ∧
    _items self' !! 3%Z
    = Some {| status := "connecting"; topics := 0 |} ∧
    ∀ j, j ≠ 3%Z → _items self' !! j = _items MockWebsocketStatus__init__ !! j.
Proof.
  destruct websocket_update_contract as (_ & Hfirst & _).
  apply (Hfirst 3%Z (Some "connecting") None MockWebsocketStatus__init__).
  - left. by eexists.
  - reflexivity.
Defined.

End websocket_facts.

(** * The console log *)

Section console_facts.
Import manager.
Context `{Environment}.

(** The line that [print] stores for [message] on the manager [self]. *)
Lemma print_console_log message self :
  _console_log (print message self).2
  = _console_log self ++ [strftime_now (clock_reads self) +:+ ": " +:+ message].
Proof. reflexivity. Qed.

(** [print] ends normally, reads the clock once, and leaves the inventory
    alone. *)
Lemma print_frame message self :
  (print message self).1 = Ok tt ∧
  clock_reads (print message self).2 = S (clock_reads self) ∧
  _campaigns (print message self).2 = _campaigns self ∧
  _inventory_filters (print message self).2 = _inventory_filters self ∧
  _inventory_container (print message self).2 = _inventory_container self ∧
  _close_requested (print message self).2 = _close_requested self ∧
  _twitch (print message self).2 = _twitch self.
Proof. repeat split. Qed.

Lemma prints_console_log messages : ∀ self,
  _console_log (prints messages self)
  = _console_log self
    ++ imap (λ i message,
               strftime_now (clock_reads self + i) +:+ ": " +:+ message)
         messages.
Proof.
  induction messages as [|message rest IH]; intros self; cbn [prints imap].
  - by rewrite app_nil_r.
  - rewrite IH, print_console_log.
    destruct (print_frame message self) as (_ & -> & _).
    rewrite <- app_assoc. cbn [app]. rewrite Nat.add_0_r. do 2 f_equal.
    apply imap_ext. intros i m _. cbn. by rewrite Nat.add_succ_r.
Qed.

(** C5, as the code has it.  The stored console log has no capacity:
    every call of [print] appends one line, and after any sequence of
    calls the log holds the lines that were there before followed by one
    line per call, in the order of the calls; nothing is evicted. *)
Theorem console_log_keeps_every_line messages self :
  _console_log (prints messages self)
  = _console_log self
    ++ imap (λ i message,
               strftime_now (clock_reads self + i) +:+ ": " +:+ message)
         messages ∧
  length (_console_log (prints messages self))
  = length (_console_log self) + length messages.
Proof.
  split; [apply prints_console_log|].
  by rewrite prints_console_log, length_app, length_imap.
Qed.

(** The bound that exists is the one of the log element: it never shows
    more than [max_lines] lines. *)
Lemma push_bounded line l n :
  nicegui.max_lines l = Some n →
  nicegui.max_lines (nicegui.push line l) = Some n ∧
  length (nicegui.lines (nicegui.push line l)) ≤ n.
Proof.
  intros Hmax. unfold nicegui.push. simpl. rewrite Hmax. split; [done|].
  rewrite length_drop. lia.
Qed.

Lemma push_lines_bounded timestamp ls : ∀ l n,
  nicegui.max_lines l = Some n →
  length (nicegui.lines l) ≤ n →
  nicegui.max_lines (push_lines timestamp ls l) = Some n ∧
  length (nicegui.lines (push_lines timestamp ls l)) ≤ n.
Proof.
  induction ls as [|line ls IH]; intros l n Hmax Hlen; simpl; [done|].
  destruct (pystr.strip_nonempty line); [|by apply IH].
  destruct (push_bounded (timestamp +:+ ": " +:+ line) l n Hmax).
  by apply IH.
Qed.

Lemma print_console message self l :
  _console self = Some l →
  _console (print message self).2
  = Some (if pystr.contains pystr.newline message
          then push_lines (strftime_now (clock_reads self))
                 (pystr.split pystr.newline message) l
          else nicegui.push
                 (strftime_now (clock_reads self) +:+ ": " +:+ message) l).
Proof. intros Hc. unfold print. cbn [snd _console]. by rewrite Hc. Qed.

Lemma prints_console_bounded messages : ∀ self l n,
  _console self = Some l →
  nicegui.max_lines l = Some n →
  length (nicegui.lines l) ≤ n →
  ∃ l', _console (prints messages self) = Some l' ∧
        nicegui.max_lines l' = Some n ∧ length (nicegui.lines l') ≤ n.
Proof.
  induction messages as [|message rest IH]; intros self l n Hc Hmax Hlen;
    cbn [prints]; [by exists l|].
  pose proof (print_console message self l Hc) as Hc'.
  destruct (pystr.contains pystr.newline message).
  - destruct (push_lines_bounded (strftime_now (clock_reads self))
                (pystr.split pystr.newline message) l n Hmax Hlen).
    eapply IH; [exact Hc'|done..].
  - destruct (push_bounded
                (strftime_now (clock_reads self) +:+ ": " +:+ message) l n Hmax).
    eapply IH; [exact Hc'|done..].
Qed.

End console_facts.

Section console_samples.
#[local] Existing Instance samples.env.

(** C5 as stated fails: the page built, [print] called 51 times, the
    stored log holds 51 lines, the oldest still in front, while the log
    element (capacity 50) shows 50. *)
Lemma console_log_exceeds_capacity :
  let self0 :=
    (main_panel.create_main_panel
       (manager.__init__ (samples.twitch_excluding []))).2 in
  let self := manager.prints (replicate 51 "x") self0 in
  length (manager._console_log self) = 51 ∧
  head (manager._console_log self) = Some "0: x" ∧
  (nicegui.max_lines <$> manager._console self) = Some (Some 50) ∧
  (length ∘ nicegui.lines <$> manager._console self) = Some 50.
Proof. by vm_compute. Qed.

End console_samples.

(** * Redrawing the inventory *)

Section refresh_facts.
Import manager inventory_panel.
Context `{Environment}.

Lemma ends_with_ret {A} (a : A) self Q : Q a self → ends_with (mret a) self Q.
Proof. intros HQ. by exists a, self. Qed.

Lemma ends_with_bind {A B} (m : M A) (k : A → M B) self Q :
  ends_with m self (λ a self', ends_with (k a) self' Q) →
  ends_with (m ≫= k) self Q.
Proof.
  intros (a & self' & Hm & b & self'' & Hk & HQ). exists b, self''.
  split; [|done]. unfold mbind, M_bind. by rewrite Hm.
Qed.

Lemma ends_with_try {A} (body : M A) handler self Q :
  ends_with body self Q → ends_with (try_except body handler) self Q.
Proof.
  intros (a & self' & Hm & HQ). exists a, self'. split; [|done].
  unfold try_except. by rewrite Hm.
Qed.

Lemma ends_with_get self Q : Q self self → ends_with get self Q.
Proof. intros HQ. by exists self, self. Qed.

Lemma ends_with_print message self Q :
  Q tt (print message self).2 → ends_with (print message) self Q.
Proof. intros HQ. by exists tt, (print message self).2. Qed.

Lemma ends_with_mono {A} (m : M A) self (Q Q' : A → WebUIManager → Prop) :
  ends_with m self Q → (∀ a self', Q a self' → Q' a self') →
  ends_with m self Q'.
Proof. intros (a & self' & Hm & HQ) Himp. exists a, self'. auto. Qed.

Lemma inventory_is_print self0 view message self :
  inventory_is self0 view self →
  inventory_is self0 view (print message self).2.
Proof. intros (? & ? & ?). by repeat split. Qed.

Lemma with_inventory_container_ok e self0 view self Q :
  inventory_is self0 view self →
  (∀ self', inventory_is self0 (view ++ [e]) self' → Q tt self') →
  ends_with (with_inventory_container e) self Q.
Proof.
  intros (Hc & Hf & Hv) HQ. unfold ends_with, with_inventory_container.
  rewrite Hv.
  eexists _, _. split; [reflexivity|]. apply HQ. by repeat split.
Qed.

Lemma clear_inventory_container_ok self0 view self Q :
  inventory_is self0 view self →
  (∀ self', inventory_is self0 [] self' → Q tt self') →
  ends_with clear_inventory_container self Q.
Proof.
  intros (Hc & Hf & Hv) HQ. unfold ends_with, clear_inventory_container.
  rewrite Hv.
  eexists _, _. split; [reflexivity|]. apply HQ. by repeat split.
Qed.

Lemma add_campaign_to_display_ok cd self0 view self :
  inventory_is self0 view self →
  ends_with (add_campaign_to_display cd) self
    (λ _, inventory_is self0 (view ++ [campaign_card cd])).
Proof.
  intros Hinv. unfold add_campaign_to_display.
  apply ends_with_try, ends_with_bind, ends_with_print, ends_with_bind.
  eapply with_inventory_container_ok; [by apply inventory_is_print|].
  intros self' Hinv'. apply ends_with_print. by apply inventory_is_print.
Qed.

Lemma display_filtered_ok self0 items : ∀ shown_count view self,
  inventory_is self0 view self →
  ends_with (display_filtered items shown_count) self
    (λ shown_count' self',
       shown_count'
       = shown_count + length (visible_entries (_inventory_filters self0) items) ∧
       inventory_is self0
         (view ++ (campaign_card
                     <$> visible_entries (_inventory_filters self0) items))
         self').
Proof.
  induction items as [|[campaign_id cd] rest IH]; intros shown_count view self Hinv.
  - apply ends_with_ret. unfold visible_entries. simpl.
    rewrite Nat.add_0_r, app_nil_r. done.
  - cbn [display_filtered]. apply ends_with_bind, ends_with_try.
    apply ends_with_bind, ends_with_get.
    destruct Hinv as (Hc & Hf & Hv). rewrite Hf.
    unfold visible_entries. cbn [fmap list_fmap snd List.filter].
    fold (visible_entries (_inventory_filters self0) rest).
    destruct (utils.should_show_campaign_with_filters cd
                (_inventory_filters self0)).
    + apply ends_with_bind, ends_with_print, ends_with_bind.
      eapply ends_with_mono.
      { apply (add_campaign_to_display_ok cd self0 view).
        by apply inventory_is_print. }
      intros [] self1 Hinv1. apply ends_with_ret.
      eapply ends_with_mono; [by apply IH|].
      intros n' self2 [-> Hinv2]. cbn [length fmap list_fmap].
      split; [lia|]. by rewrite <- app_assoc in Hinv2.
    + apply ends_with_bind, ends_with_print, ends_with_ret.
      apply IH. apply inventory_is_print. by repeat split.
Qed.

Lemma refresh_inventory_display_ok self old :
  _inventory_container self = Some old →
  ends_with refresh_inventory_display self
    (λ _, inventory_is self
            (expected_view (_inventory_filters self) (_campaigns self))).
Proof.
  intros Hold. unfold refresh_inventory_display.
  apply ends_with_bind, ends_with_get. rewrite Hold.
  assert (Hinv : inventory_is self old self) by by repeat split.
  apply ends_with_bind, ends_with_print, ends_with_bind, ends_with_print.
  apply ends_with_try, ends_with_bind, ends_with_print, ends_with_bind.
  eapply clear_inventory_container_ok; [by do 3 apply inventory_is_print|].
  intros self1 Hinv1. apply ends_with_bind, ends_with_print.
  apply ends_with_bind, ends_with_get.
  pose proof (inventory_is_print _ _ "Container cleared successfully" _ Hinv1)
    as Hinv2.
  rewrite (proj1 Hinv2). unfold expected_view.
  destruct (_campaigns self) as [|item rest] eqn:Hitems.
  - apply ends_with_bind, ends_with_print.
    eapply with_inventory_container_ok; [by apply inventory_is_print|].
    intros self2 Hinv3. exact Hinv3.
  - apply ends_with_bind. eapply ends_with_mono.
    { by apply (display_filtered_ok self (item :: rest) 0 []). }
    intros n self2 [-> Hinv3]. apply ends_with_bind, ends_with_get.
    apply ends_with_bind, ends_with_print. simpl in Hinv3.
    destruct (visible_entries (_inventory_filters self) (item :: rest))
      as [|cd shown] eqn:Hshown; simpl.
    + apply ends_with_bind, ends_with_print.
      eapply with_inventory_container_ok; [by do 2 apply inventory_is_print|].
      intros self3 Hinv4. exact Hinv4.
    + apply ends_with_print. by apply inventory_is_print.
Qed.

(** The store keeps the order of first insertion, and its keys stay
    distinct. *)
Lemma dict_set_keys {V} (k : string) (v : V) (d : list (string * V)) :
  (dict_set k v d).*1 = if bool_decide (k ∈ d.*1) then d.*1 else d.*1 ++ [k].
Proof.
  induction d as [|[k' v'] d IH]; [done|]. cbn [dict_set].
  destruct (String.eqb_spec k' k) as [->|Hne]; rewrite !fmap_cons; cbn [fst].
  - rewrite bool_decide_eq_true_2; [done|]. by left.
  - rewrite IH. destruct (decide (k ∈ d.*1)) as [Hin|Hout].
    + rewrite !bool_decide_eq_true_2; [done|by right|done].
    + rewrite !bool_decide_eq_false_2; [done| |done].
      rewrite not_elem_of_cons. split; [congruence|done].
Qed.

Lemma dict_set_NoDup {V} (k : string) (v : V) (d : list (string * V)) :
  NoDup d.*1 → NoDup (dict_set k v d).*1.
Proof.
  intros Hnd. rewrite dict_set_keys. case_bool_decide as Hin; [done|].
  apply NoDup_app. split; [done|]. split; [|apply NoDup_singleton].
  intros k' Hk' ->%list_elem_of_singleton. done.
Qed.

(** Before the page is built there is no container: the call leaves a
    message in the console log and nothing else. *)
Remark refresh_without_container self :
  _inventory_container self = None →
  refresh_inventory_display self
  = print
      "DEBUG: inventory container not yet initialized, skipping display refresh"
      self ∧
  _inventory_container (refresh_inventory_display self).2 = None.
Proof.
  intros Hnone. unfold refresh_inventory_display.
  unfold mbind, M_bind, get. rewrite Hnone. split; [reflexivity|].
  simpl. exact Hnone.
Qed.

Lemma campaign_rows_cards (shown : list campaign_data) :
  campaign_rows (campaign_card <$> shown) = campaign_card <$> shown.
Proof.
  unfold campaign_rows. induction shown as [|cd shown IH]; [done|].
  cbn [fmap list_fmap List.filter]. unfold campaign_card at 1.
  cbn [nicegui.is_card]. f_equal. exact IH.
Qed.

(** C6.  On a manager whose container exists, [refresh_inventory_display]
    ends normally and leaves in the container, whatever it held before:
    the empty-store placeholder alone when the store is empty (no campaign
    row); otherwise one card per stored entry that the filter accepts, in
    the order of the store, and no other row, or, when the filter accepts
    none, the "no matches" placeholder alone, which differs from the
    empty-store one.  Store and filters are as before. *)
Theorem refresh_redraws_from_scratch self old :
  _inventory_container self = Some old →
  ∃ self' view,
    refresh_inventory_display self = (Ok tt, self') ∧
    _inventory_container self' = Some view ∧
    _campaigns self' = _campaigns self ∧
    _inventory_filters self' = _inventory_filters self ∧
    view = expected_view (_inventory_filters self) (_campaigns self) ∧
    (_campaigns self = [] →
       view = [empty_store_placeholder] ∧ campaign_rows view = []) ∧
    (_campaigns self ≠ [] →
       campaign_rows view
       = campaign_card
           <$> visible_entries (_inventory_filters self) (_campaigns self) ∧
       (visible_entries (_inventory_filters self) (_campaigns self) = [] →
          view = [no_match_placeholder]) ∧
       (visible_entries (_inventory_filters self) (_campaigns self) ≠ [] →
          view = campaign_rows view)) ∧
    no_match_placeholder ≠ empty_store_placeholder.
Proof.
  intros Hold.
  destruct (refresh_inventory_display_ok self old Hold)
    as ([] & self' & Hrun & Hc & Hf & Hv).
  exists self', (expected_view (_inventory_filters self) (_campaigns self)).
  split; [exact Hrun|]. split; [exact Hv|]. split; [exact Hc|].
  split; [exact Hf|]. split; [reflexivity|].
  unfold expected_view. split; [by intros ->|]. split; [|done].
  intros Hne. destruct (_campaigns self) as [|item rest]; [done|].
  destruct (visible_entries _ _) as [|cd shown] eqn:Hshown.
  - done.
  - rewrite campaign_rows_cards. done.
Qed.

End refresh_facts.

Section refresh_samples.
#[local] Existing Instance samples.env.

Lemma refresh_redraws_from_scratch_witness :
  ∃ self' view,
    inventory_panel.refresh_inventory_display samples.two_campaign_manager
    = (Ok tt, self') ∧
    manager._inventory_container self' = Some view ∧
    length (campaign_rows view) = 1.
Proof.
  destruct (refresh_redraws_from_scratch samples.two_campaign_manager _ eq_refl)
    as (self' & view & Hrun & Hview & _ & _ & _ & _ & Hrows & _).
  exists self', view. split; [exact Hrun|]. split; [exact Hview|].
  destruct Hrows as [-> _]; [discriminate|]. reflexivity.
Defined.

End refresh_samples.

(** * Racing an operation against the close request *)

Section gate_facts.
Import manager aio.
Context `{Environment} {A : Type}.
Implicit Types (w : World A) (e : event A) (trace : list (event A)).

Lemma run_app trace1 trace2 w :
  run (trace1 ++ trace2) w = run trace2 (run trace1 w).
Proof. apply fold_left_app. Qed.

Lemma run_cons e trace w : run (e :: trace) w = run trace (step w e).
Proof. reflexivity. Qed.

(** Case analysis through the matches of a step that keeps the
    equations. *)
Ltac step_cases :=
  repeat (simpl in *; case_match; simplify_eq); simpl in *;
  try congruence; try done.

Lemma flag_of_step w e :
  flag_of (step w e)
  = match e with
    | Close => true
    | PreventClose => false
    | _ => flag_of w
    end.
Proof.
  unfold flag_of, step, run_op_task, run_wait_task, close, Event_set.
  step_cases.
Qed.

Lemma op_task_step w e :
  op_task (step w e)
  = match e, op_task w with
    | OpRuns (Some r), Pending _ => Done r
    | OpRuns None, Pending _ => Pending false
    | _, t => t
    end.
Proof.
  unfold step, run_op_task, run_wait_task, close, Event_set.
  step_cases.
Qed.

Lemma wait_sound_step w e : wait_sound w → wait_sound (step w e).
Proof.
  unfold wait_sound, flag_of, step, run_op_task, run_wait_task, close,
    Event_set.
  intros [Htask Hfut].
  repeat (simpl in *; case_match; simplify_eq); simpl in *;
    intuition congruence.
Qed.

Lemma wait_sound_run trace : ∀ w, wait_sound w → wait_sound (run trace w).
Proof.
  induction trace as [|e trace IH]; intros w Hw; [done|].
  rewrite run_cons. by apply IH, wait_sound_step.
Qed.

Lemma wait_sound_ensure_futures self0 :
  wait_sound (ensure_futures (A := A) self0).
Proof. split; [by left|done]. Qed.

Lemma wait_runs_or_not e : e = WaitRuns ∨ e ≠ WaitRuns.
Proof. destruct e; [by right|by left|by right|by right]. Qed.

Lemma wait_task_step w e :
  e ≠ WaitRuns → wait_task (step w e) = wait_task w ∧
  (e ≠ Close → wait_fut (step w e) = wait_fut w).
Proof.
  unfold step, run_op_task, close, Event_set. intros Hne.
  destruct e; step_cases.
Qed.

(** Without a close request the [Event.wait()] task stays suspended. *)
Lemma no_close_keeps_waiting trace : ∀ w,
  flag_of w = false → wait_task w = Pending false → wait_fut w ≠ Some true →
  Close ∉ trace →
  flag_of (run trace w) = false ∧ wait_task (run trace w) = Pending false.
Proof.
  induction trace as [|e trace IH]; intros w Hflag Htask Hfut Hnc; [done|].
  rewrite run_cons. apply not_elem_of_cons in Hnc as [Hne Hnc].
  assert (Hstep : flag_of (step w e) = false ∧
                  wait_task (step w e) = Pending false ∧
                  wait_fut (step w e) ≠ Some true).
  { split; [rewrite flag_of_step; by destruct e|].
    destruct (wait_runs_or_not e) as [->|Hnw].
    - unfold flag_of in Hflag. simpl. unfold run_wait_task.
      rewrite Htask, Hflag.
      destruct (wait_fut w) as [[]|] eqn:Ef; simpl; intuition congruence.
    - destruct (wait_task_step w e Hnw) as [-> Hf].
      split; [done|]. by rewrite Hf. }
  destruct Hstep as (? & ? & ?). by apply IH.
Qed.

Lemma op_done_run trace : ∀ w r,
  op_task w = Done r → op_task (run trace w) = Done r.
Proof.
  induction trace as [|e trace IH]; intros w r Hdone; [done|].
  rewrite run_cons. apply IH. rewrite op_task_step, Hdone.
  by destruct e as [[]| | |].
Qed.

Lemma op_pending_run trace : ∀ w b,
  Forall (λ e, ¬ op_ends e) trace →
  op_task w = Pending b → ∃ b', op_task (run trace w) = Pending b'.
Proof.
  induction trace as [|e trace IH]; intros w b Hno Hpend; [by exists b|].
  rewrite run_cons. apply Forall_cons in Hno as [He Hno].
  destruct e as [[r|]| | |].
  - exfalso. apply He. by exists r.
  - apply (IH _ false); [done|]. by rewrite op_task_step, Hpend.
  - apply (IH _ b); [done|]. by rewrite op_task_step, Hpend.
  - apply (IH _ b); [done|]. by rewrite op_task_step, Hpend.
  - apply (IH _ b); [done|]. by rewrite op_task_step, Hpend.
Qed.

Lemma flag_set_run trace : ∀ w,
  flag_of w = true → PreventClose ∉ trace → flag_of (run trace w) = true.
Proof.
  induction trace as [|e trace IH]; intros w Hflag Hnp; [done|].
  rewrite run_cons. apply not_elem_of_cons in Hnp as [Hne Hnp].
  apply IH; [|done]. rewrite flag_of_step. by destruct e.
Qed.

Lemma wait_done_run trace : ∀ w r,
  wait_task w = Done r → wait_task (run trace w) = Done r.
Proof.
  induction trace as [|e trace IH]; intros w r Hdone; [done|].
  rewrite run_cons. apply IH.
  destruct (wait_runs_or_not e) as [->|Hnw].
  - simpl. unfold run_wait_task. by rewrite Hdone.
  - by rewrite (proj1 (wait_task_step w e Hnw)).
Qed.

(** Once the flag is set and stays so, a run of the [Event.wait()] task
    ends it. *)
Lemma wait_completes trace : ∀ w,
  wait_sound w → flag_of w = true →
  PreventClose ∉ trace → WaitRuns ∈ trace →
  wait_task (run trace w) = Done (Ok true).
Proof.
  induction trace as [|e trace IH]; intros w Hsound Hflag Hnp Hin.
  - by apply elem_of_nil in Hin.
  - rewrite run_cons. apply not_elem_of_cons in Hnp as [Hne Hnp].
    destruct (wait_runs_or_not e) as [->|Hnw].
    + apply wait_done_run. destruct Hsound as [[Ht|Ht] Hfut].
      * specialize (Hfut Hflag). unfold flag_of in Hflag. simpl.
        unfold run_wait_task. rewrite Ht, Hflag.
        destruct (wait_fut w) as [[]|] eqn:Ef; simpl; congruence.
      * simpl. unfold run_wait_task. by rewrite Ht.
    + apply elem_of_cons in Hin as [Heq|Hin]; [congruence|].
      apply IH; [by apply wait_sound_step| |done..].
      rewrite flag_of_step. by destruct e.
Qed.

(** C1, as the code has it.  (1) When nobody calls [close] before the
    caller is resumed and the operation has ended with a result, the call
    returns that result and the flag is still clear.  (2) When [close] is
    called and not undone by [prevent_close] before the caller is resumed
    (the [Event.wait()] task having run since), the call raises
    [ExitRequest], whether the operation has ended by then or not.
    (3) Whatever happened, a caller resumed while the flag is set gets
    [ExitRequest]. *)
Theorem race_against_close op_first self0 :
  (∀ pre post r,
     _close_requested self0 = false →
     Close ∉ pre ++ OpRuns (Some (Ok r)) :: post →
     Forall (λ e, ¬ op_ends e) pre →
     ∃ w',
       coro_unless_closed op_first self0 (pre ++ OpRuns (Some (Ok r)) :: post)
       = Some (Ok (OpValue r), w') ∧
       flag_of w' = false) ∧
  (∀ pre post,
     PreventClose ∉ post →
     WaitRuns ∈ post →
     ∃ w',
       coro_unless_closed (A := A) op_first self0 (pre ++ Close :: post)
       = Some (Raise ExitRequest, w')) ∧
  (∀ trace,
     flag_of (run (A := A) trace (ensure_futures self0)) = true →
     first_completed (run trace (ensure_futures self0)) = true →
     ∃ w',
       coro_unless_closed op_first self0 trace = Some (Raise ExitRequest, w')).
Proof.
  split; [|split].
  - intros pre post r Hflag Hnc Hpre.
    set (trace := pre ++ OpRuns (Some (Ok r)) :: post) in *.
    destruct (no_close_keeps_waiting trace (ensure_futures self0))
      as [Hflag' Hwait]; [done..|].
    assert (Hop : op_task (run trace (ensure_futures self0)) = Done (Ok r)).
    { unfold trace. rewrite run_app, run_cons. apply op_done_run.
      destruct (op_pending_run pre (ensure_futures self0) false Hpre eq_refl)
        as [b Hb].
      by rewrite op_task_step, Hb. }
    unfold coro_unless_closed, first_completed, after_wait, flag_of in *.
    rewrite Hop, Hwait. simpl. rewrite Hflag'.
    eexists. split; [reflexivity|]. simpl. exact Hflag'.
  - intros pre post Hnp Hin.
    set (w1 := step (run pre (ensure_futures self0)) Close).
    assert (Hsound : wait_sound w1).
    { apply wait_sound_step, wait_sound_run, wait_sound_ensure_futures. }
    assert (Hflag1 : flag_of w1 = true) by (unfold w1; by rewrite flag_of_step).
    pose proof (flag_set_run post w1 Hflag1 Hnp) as Hflag.
    pose proof (wait_completes post w1 Hsound Hflag1 Hnp Hin) as Hwait.
    unfold coro_unless_closed, first_completed, after_wait, flag_of in *.
    rewrite run_app, run_cons. fold w1. rewrite Hwait, orb_true_r. simpl.
    rewrite Hflag. by eexists.
  - intros trace Hflag Hready.
    unfold coro_unless_closed, after_wait, flag_of in *.
    rewrite Hready. simpl. rewrite Hflag. by eexists.
Qed.

(** While the caller is suspended nobody calls [cancel()] on the two
    tasks: they are local to the call. *)
Lemma no_cancel_requested_step w e :
  op_task w ≠ Pending true ∧ wait_task w ≠ Pending true →
  op_task (step w e) ≠ Pending true ∧ wait_task (step w e) ≠ Pending true.
Proof.
  unfold step, run_op_task, run_wait_task, close, prevent_close, Event_set,
    Event_clear.
  intros [Hop Hwait].
  destruct e; repeat (simpl in *; case_match; simplify_eq); simpl in *;
    split; congruence.
Qed.

Lemma no_cancel_requested_run trace : ∀ w,
  op_task w ≠ Pending true ∧ wait_task w ≠ Pending true →
  op_task (run trace w) ≠ Pending true ∧
  wait_task (run trace w) ≠ Pending true.
Proof.
  induction trace as [|e trace IH]; intros w Hw; [done|].
  rewrite run_cons. by apply IH, no_cancel_requested_step.
Qed.

(** C9, as the code has it.  When [asyncio.wait] has resumed the caller
    and the call returns or raises, [cancel()] has been called on every
    task that was not done: such a task is left with the request recorded
    and is still not done; nothing awaits it.  The [Event.wait()] task
    ends with [CancelledError] when the loop runs it afterwards; into the
    operation the loop then throws [CancelledError], with which it ends
    unless it catches it.  A task that was done is left as it was, and
    the outcome is [ExitRequest] when the flag is set, else what awaiting
    a task that is done gives.  When instead the caller itself is
    cancelled while suspended, the call raises [CancelledError], flag set
    or not, and [cancel()] is called on neither task: both are as they
    were. *)
Theorem race_requests_cancellation how op_first self0 trace o w' :
  coro_unless_closed_call (A := A) how op_first self0 trace = Some (o, w') →
  let w := run trace (ensure_futures self0) in
  match how with
  | ByWait =>
      first_completed w = true ∧
      (done (op_task w) = false →
         op_task w' = Pending true ∧ done (op_task w') = false ∧
         op_task (throw_cancelled Uncaught w') = Done (Raise CancelledError) ∧
         (∀ r, op_task (throw_cancelled (Caught r) w')
               = match r with
                 | Some r => Done r
                 | None => Pending false
                 end)) ∧
      (done (wait_task w) = false →
         wait_task w' = Pending true ∧ done (wait_task w') = false ∧
         wait_task (run_wait_task w') = Done (Raise CancelledError)) ∧
      (done (op_task w) = true → op_task w' = op_task w) ∧
      (done (wait_task w) = true → wait_task w' = wait_task w) ∧
      (flag_of w = true → o = Raise ExitRequest) ∧
      (flag_of w = false →
         (∃ r, op_task w = Done r ∧ o = result_map OpValue r) ∨
         (∃ r, wait_task w = Done r ∧ o = result_map WaitValue r))
  | ByCancel =>
      o = Raise CancelledError ∧
      w' = w ∧
      op_task w' ≠ Pending true ∧ wait_task w' ≠ Pending true
  end.
Proof.
  destruct how; cbn [coro_unless_closed_call]; cbv zeta.
  - unfold coro_unless_closed. cbv zeta.
    set (w := run trace (ensure_futures self0)).
    destruct (first_completed w) eqn:Hready; [|done].
    unfold after_wait, first_completed, flag_of in *. simpl.
    destruct (_close_requested (self w)) eqn:Hflag;
      intros [= <- <-]; simpl;
      unfold cancel_if_pending, throw_cancelled, run_op_task, run_wait_task,
        await_first_done; simpl;
      destruct (op_task w) as [b1|r1], (wait_task w) as [b2|r2];
      simpl in *; repeat split; try done; try intros _;
      try (intros [r|]); try destruct op_first; eauto.
  - intros [= <- <-]. split; [done|]. split; [done|].
    by apply no_cancel_requested_run.
Qed.

End gate_facts.

Section gate_samples.
#[local] Existing Instance samples.env.

Lemma race_against_close_witness :
  let self0 := manager.__init__ (samples.twitch_excluding []) in
  (∃ w',
     aio.coro_unless_closed true self0
       [aio.WaitRuns; aio.OpRuns (Some (Ok 42%Z))]
     = Some (Ok (aio.OpValue 42%Z), w') ∧
     flag_of w' = false) ∧
  (∃ w',
     aio.coro_unless_closed (A := Z) true self0
       [aio.OpRuns None; aio.Close; aio.WaitRuns]
     = Some (Raise ExitRequest, w')) ∧
  (∃ w',
     aio.coro_unless_closed true self0 [aio.OpRuns (Some (Ok 42%Z)); aio.Close]
     = Some (Raise ExitRequest, w')).
Proof.
  intros self0.
  destruct (race_against_close (A := Z) true self0) as (Hret & Hexit & Hset).
  split; [|split].
  - apply (Hret [aio.WaitRuns] [] 42%Z).
    + reflexivity.
    + simpl. rewrite !not_elem_of_cons. repeat split; try discriminate.
      apply not_elem_of_nil.
    + constructor; [|constructor]. intros [r Hr]. discriminate Hr.
  - apply (Hexit [aio.OpRuns None] [aio.WaitRuns]).
    + rewrite not_elem_of_cons. split; [discriminate|apply not_elem_of_nil].
    + apply elem_of_cons. by left.
  - apply (Hset [aio.OpRuns (Some (Ok 42%Z)); aio.Close]); reflexivity.
Defined.

(** C1 as stated fails.  First half: the operation ends with 42, then
    [close] is called, then the caller is resumed; the call raises
    [ExitRequest] and the result is lost.  Second half: [close] is called
    while the operation is under way, the [Event.wait()] task ends, and
    [prevent_close] clears the flag before the caller is resumed; the call
    does not raise, it returns the [True] of [Event.wait()]. *)
Lemma close_after_completion_discards_result :
  let self0 := manager.__init__ (samples.twitch_excluding []) in
  let w1 := aio.run [aio.OpRuns (Some (Ok 42%Z))] (aio.ensure_futures self0) in
  (aio.op_task w1 = aio.Done (Ok 42%Z) ∧
   flag_of w1 = false ∧
   fst <$> aio.coro_unless_closed true self0
             [aio.OpRuns (Some (Ok 42%Z)); aio.Close]
   = Some (Raise ExitRequest)) ∧
  fst <$> aio.coro_unless_closed (A := Z) true self0
            [aio.OpRuns None; aio.Close; aio.WaitRuns; aio.PreventClose]
  = Some (Ok (aio.WaitValue true)).
Proof. by vm_compute. Qed.

Lemma race_requests_cancellation_witness :
  let self0 := manager.__init__ (samples.twitch_excluding []) in
  let trace := [aio.OpRuns (Some (Ok 42%Z))] in
  let w := aio.run trace (aio.ensure_futures self0) in
  let w' := (aio.after_wait true w).2 in
  let closed :=
    (aio.after_wait (A := Z) true
       (aio.run [aio.OpRuns None; aio.Close; aio.WaitRuns]
          (aio.ensure_futures self0))).2 in
  (aio.wait_task w' = aio.Pending true ∧
   aio.done (aio.wait_task w') = false ∧
   aio.wait_task (aio.run_wait_task w') = aio.Done (Raise CancelledError)) ∧
  (aio.op_task closed = aio.Pending true ∧
   aio.op_task (aio.throw_cancelled aio.Uncaught closed)
   = aio.Done (Raise CancelledError)) ∧
  (aio.coro_unless_closed_call aio.ByCancel true self0 trace
   = Some (Raise CancelledError, w) ∧
   aio.wait_task w ≠ aio.Pending true).
Proof.
  intros self0 trace w w' closed. split; [|split].
  - apply (race_requests_cancellation aio.ByWait true self0 trace
             (Ok (aio.OpValue 42%Z)) w' eq_refl).
    reflexivity.
  - destruct (race_requests_cancellation aio.ByWait true self0
                [aio.OpRuns None; aio.Close; aio.WaitRuns]
                (Raise ExitRequest) closed eq_refl)
      as (_ & Hop & _).
    destruct (Hop eq_refl) as (Hpending & _ & Hthrown & _).
    split; [exact Hpending|exact Hthrown].
  - split; [reflexivity|].
    apply (race_requests_cancellation aio.ByCancel true self0 trace
             (Raise CancelledError) w eq_refl).
Defined.

(** C9 as stated fails: the operation wins; when the call returns its
    result, the [Event.wait()] task has a cancellation requested but is
    not done: it has been neither cancelled to the end nor awaited. *)
Lemma loser_not_joined_on_return :
  let self0 := manager.__init__ (samples.twitch_excluding []) in
  ∃ w',
    aio.coro_unless_closed true self0 [aio.OpRuns (Some (Ok 42%Z))]
    = Some (Ok (aio.OpValue 42%Z), w') ∧
    aio.wait_task w' = aio.Pending true ∧
    aio.done (aio.wait_task w') = false.
Proof. eexists. split; [reflexivity|]. by vm_compute. Qed.

End gate_samples.

(** * More on the filter *)

Section filter_more.
Import controller.

Lemma flag_insert filters k k' b :
  flag (<[k := b]> filters) k' = if decide (k = k') then b else flag filters k'.
Proof.
  unfold flag. rewrite lookup_insert. by destruct (decide (k = k')).
Qed.

Lemma flag_on_any_enabled filters k :
  k ∈ filter_names → flag filters k = true → any_filter_enabled filters = true.
Proof.
  unfold filter_names, any_filter_enabled. rewrite !elem_of_cons, elem_of_nil.
  intros [->|[->|[->|[->|[->|[->|[]]]]]]] ->; by rewrite ?orb_true_r.
Qed.

(** The test "is any filter enabled" decides nothing: where it answers
    no, the flag of every bucket is off. *)
Lemma guard_decides_nothing filters status :
  (if negb (any_filter_enabled filters) then false
   else bucket_chain filters status false)
  = bucket_chain filters status false.
Proof.
  destruct (any_filter_enabled filters) eqn:Hany; [done|]. simpl.
  unfold bucket_chain.
  repeat (case_match; [symmetry; apply not_true_is_false; intros Hflag;
    eapply flag_on_any_enabled in Hflag;
    [congruence | unfold filter_names; rewrite !elem_of_cons; tauto]|]).
  done.
Qed.

Lemma package_reads_synthetic filters cd :
  cd_campaign_obj cd = None →
  utils.should_show_campaign_with_filters cd filters
  = bucket_chain filters (lowered_status cd) false.
Proof.
  intros Hobj. rewrite package_reads, Hobj. apply guard_decides_nothing.
Qed.

(** X1.  An entry without a live object is shown exactly when its status,
    lowered, names one of the four buckets and that bucket's flag is on:
    the guard on "any filter enabled" never changes the answer, and the
    flags [not_linked] and [excluded] have no say.  Both implementations
    agree on this. *)
Theorem synthetic_entry_visibility cd filters :
  cd_campaign_obj cd = None →
  (lowered_status cd ∈ bucket_names →
     utils.should_show_campaign_with_filters cd filters
     = flag filters (lowered_status cd)) ∧
  (lowered_status cd ∉ bucket_names →
     utils.should_show_campaign_with_filters cd filters = false) ∧
  (∀ twitch, has_all_flags filters →
     webui_py._should_show_campaign twitch filters cd
     = Some (utils.should_show_campaign_with_filters cd filters)).
Proof.
  intros Hobj. rewrite package_reads_synthetic by done. split; [|split].
  - apply bucket_chain_in.
  - apply bucket_chain_out.
  - intros twitch Hall. rewrite legacy_reads, Hobj by done. f_equal.
    apply guard_decides_nothing.
Qed.

(** X2.  [_should_show_campaign] raises [KeyError] exactly when one of
    the six filter keys is missing from the dictionary; the package's
    filter reads a missing key as [False] and never raises. *)
Theorem legacy_filter_key_error twitch filters cd :
  webui_py._should_show_campaign twitch filters cd = None
  ↔ ¬ has_all_flags filters.
Proof.
  split.
  - intros Hnone Hall. by rewrite legacy_reads in Hnone.
  - intros Hmiss. unfold webui_py._should_show_campaign.
    destruct (filters !! "not_linked") as [b1|] eqn:E1; [|done].
    destruct (filters !! "upcoming") as [b2|] eqn:E2; [|done].
    destruct (filters !! "active") as [b3|] eqn:E3; [|done].
    destruct (filters !! "expired") as [b4|] eqn:E4; [|done].
    destruct (filters !! "excluded") as [b5|] eqn:E5; [|done].
    destruct (filters !! "finished") as [b6|] eqn:E6; [|done].
    exfalso. apply Hmiss. unfold has_all_flags, filter_names.
    repeat constructor; eauto.
Qed.

(** X3.  The two filters differ on excluded games only.  Whatever the
    package's filter hides, [_should_show_campaign] hides too; and an
    entry that the package shows and [_should_show_campaign] hides has a
    live object whose status is in no bucket and whose game is in the
    excluded game list, while the [excluded] flag is off. *)
Theorem legacy_filter_against_package twitch filters cd :
  has_all_flags filters →
  ∃ shown,
    webui_py._should_show_campaign twitch filters cd = Some shown ∧
    (shown = true →
       utils.should_show_campaign_with_filters cd filters = true) ∧
    (shown = false →
     utils.should_show_campaign_with_filters cd filters = true →
       (∃ campaign,
          cd_campaign_obj cd = Some campaign ∧
          (lowered_status cd ∉ bucket_names) ∧
          game_excluded twitch campaign ∧
          flag filters "excluded" = false)) ∧
    ((∀ campaign,
        cd_campaign_obj cd = Some campaign → ¬ game_excluded twitch campaign) →
       shown = utils.should_show_campaign_with_filters cd filters).
Proof.
  intros Hall. eexists. split; [by apply legacy_reads|].
  rewrite package_reads.
  destruct (cd_campaign_obj cd) as [campaign|];
    [|repeat split; try done; congruence].
  destruct (flag filters "not_linked" && negb (default true (eligible campaign)));
    [repeat split; try done; congruence|].
  destruct (decide (lowered_status cd ∈ bucket_names)) as [Hin|Hout].
  - rewrite !bucket_chain_in by done. repeat split; try done; congruence.
  - rewrite !bucket_chain_out by done.
    destruct (webui_py.hidden_as_excluded twitch campaign
                (flag filters "excluded")) eqn:Hhid; simpl.
    + apply hidden_as_excluded_spec in Hhid as [Hex Hoff].
      split; [done|]. split.
      * intros _ _. by exists campaign.
      * intros Hno. by destruct (Hno campaign).
    + repeat split; try done; congruence.
Qed.

Lemma bucket_chain_mono filters k status otherwise :
  bucket_chain (<[k := false]> filters) status otherwise = true →
  bucket_chain (<[k := true]> filters) status otherwise = true.
Proof.
  unfold bucket_chain. rewrite !flag_insert.
  repeat case_match; congruence.
Qed.

Lemma bucket_chain_not_linked filters b status otherwise :
  bucket_chain (<["not_linked" := b]> filters) status otherwise
  = bucket_chain filters status otherwise.
Proof.
  unfold bucket_chain. by rewrite !flag_insert_ne by discriminate.
Qed.

Lemma hidden_as_excluded_mono twitch campaign :
  webui_py.hidden_as_excluded twitch campaign true = false.
Proof.
  unfold webui_py.hidden_as_excluded.
  destruct (game campaign), (settings twitch); try done.
  apply andb_false_r.
Qed.

(** X4.  Switching a flag other than [not_linked] on never hides an
    entry that was shown with the flag off; switching [not_linked] on
    never brings up an entry that was hidden with it off.  This holds for
    both filters. *)
Theorem filter_flags_monotone cd filters k twitch :
  (k ≠ "not_linked" →
     (utils.should_show_campaign_with_filters cd (<[k := false]> filters) = true →
      utils.should_show_campaign_with_filters cd (<[k := true]> filters) = true) ∧
     (has_all_flags filters →
      webui_py._should_show_campaign twitch (<[k := false]> filters) cd
      = Some true →
      webui_py._should_show_campaign twitch (<[k := true]> filters) cd
      = Some true)) ∧
  ((utils.should_show_campaign_with_filters cd
      (<["not_linked" := true]> filters) = true →
    utils.should_show_campaign_with_filters cd
      (<["not_linked" := false]> filters) = true) ∧
   (has_all_flags filters →
    webui_py._should_show_campaign twitch (<["not_linked" := true]> filters) cd
    = Some true →
    webui_py._should_show_campaign twitch (<["not_linked" := false]> filters) cd
    = Some true)).
Proof.
  split.
  - intros Hk. split.
    + destruct (cd_campaign_obj cd) as [campaign|] eqn:Hobj.
      * rewrite !package_reads, Hobj, !(flag_insert_ne _ k "not_linked") by done.
        destruct (flag filters "not_linked"
                  && negb (default true (eligible campaign))); [done|].
        apply bucket_chain_mono.
      * rewrite !package_reads_synthetic by done. apply bucket_chain_mono.
    + intros Hall.
      rewrite !legacy_reads by by apply has_all_flags_insert.
      intros [= Hshown]. f_equal. revert Hshown.
      destruct (cd_campaign_obj cd) as [campaign|] eqn:Hobj.
      * rewrite !(flag_insert_ne _ k "not_linked") by done.
        destruct (flag filters "not_linked"
                  && negb (default true (eligible campaign))); [done|].
        unfold bucket_chain. rewrite !flag_insert.
        repeat case_match; subst; try congruence;
          by rewrite ?hidden_as_excluded_mono.
      * rewrite !guard_decides_nothing. apply bucket_chain_mono.
  - split.
    + destruct (cd_campaign_obj cd) as [campaign|] eqn:Hobj.
      * rewrite !package_reads, Hobj, !flag_insert, !bucket_chain_not_linked.
        simpl. by destruct (default true (eligible campaign)).
      * rewrite !package_reads_synthetic by done.
        by rewrite !bucket_chain_not_linked.
    + intros Hall.
      rewrite !legacy_reads by by apply has_all_flags_insert.
      intros [= Hshown]. f_equal. revert Hshown.
      destruct (cd_campaign_obj cd) as [campaign|] eqn:Hobj.
      * rewrite !(flag_insert_ne _ "not_linked" "excluded") by done.
        rewrite !flag_insert, !bucket_chain_not_linked.
        simpl. by destruct (default true (eligible campaign)).
      * rewrite !guard_decides_nothing. by rewrite !bucket_chain_not_linked.
Qed.

Lemma synthetic_entry_visibility_witness :
  let filters := <["excluded" := true]> samples.filters_off in
  utils.should_show_campaign_with_filters (samples.entry_of "ACTIVE" None)
    (<["active" := true]> filters) = true ∧
  utils.should_show_campaign_with_filters (samples.entry_of "Active" None)
    filters = false ∧
  utils.should_show_campaign_with_filters (samples.entry_of "Unknown" None)
    filters = false ∧
  webui_py._should_show_campaign (samples.twitch_excluding ["Chess"]) filters
    (samples.entry_of "Active" None) = Some false.
Proof.
  intros filters.
  assert (Hactive : ∀ st, pystr.lower st = "active" →
                          lowered_status (samples.entry_of st None) ∈ bucket_names).
  { intros st Hst. unfold lowered_status. simpl. rewrite Hst.
    unfold bucket_names. apply elem_of_cons. right. apply elem_of_cons. by left. }
  split; [|split; [|split]].
  - destruct (synthetic_entry_visibility (samples.entry_of "ACTIVE" None)
                (<["active" := true]> filters) eq_refl) as (Hin & _).
    rewrite Hin; [reflexivity|]. by apply Hactive.
  - destruct (synthetic_entry_visibility (samples.entry_of "Active" None)
                filters eq_refl) as (Hin & _).
    rewrite Hin; [reflexivity|]. by apply Hactive.
  - destruct (synthetic_entry_visibility (samples.entry_of "Unknown" None)
                filters eq_refl) as (_ & Hout & _).
    apply Hout. unfold bucket_names. rewrite !not_elem_of_cons.
    repeat split; try discriminate. apply not_elem_of_nil.
  - destruct (synthetic_entry_visibility (samples.entry_of "Active" None)
                filters eq_refl) as (_ & _ & Hlegacy).
    rewrite Hlegacy; [reflexivity|]. repeat constructor; by eexists.
Defined.

Lemma legacy_filter_key_error_witness :
  webui_py._should_show_campaign (samples.twitch_excluding [])
    (delete "finished" samples.filters_off)
    (samples.entry_of "Active" None) = None.
Proof.
  apply legacy_filter_key_error. unfold has_all_flags, filter_names.
  rewrite !Forall_cons. intros (_ & _ & _ & _ & _ & [b Hb] & _).
  discriminate Hb.
Defined.

Lemma legacy_filter_against_package_witness :
  let cd := samples.entry_of "Unknown" (Some samples.idle_campaign) in
  let twitch := samples.twitch_excluding ["Chess"] in
  ∃ shown,
    webui_py._should_show_campaign twitch samples.filters_off cd = Some shown ∧
    shown = false ∧
    utils.should_show_campaign_with_filters cd samples.filters_off = true ∧
    game_excluded twitch samples.idle_campaign.
Proof.
  intros cd twitch.
  destruct (legacy_filter_against_package twitch samples.filters_off cd)
    as (shown & Hrun & _ & Hdiff & _).
  { repeat constructor; by eexists. }
  exists shown. split; [exact Hrun|].
  assert (Hshown : shown = false).
  { rewrite (legacy_reads samples.filters_off twitch cd) in Hrun.
    - by injection Hrun as <-.
    - repeat constructor; by eexists. }
  split; [exact Hshown|]. split; [reflexivity|].
  destruct (Hdiff Hshown eq_refl) as (campaign & Hobj & _ & Hex & _).
  by injection Hobj as <-.
Defined.

Lemma filter_flags_monotone_witness :
  let cd := samples.entry_of "Expired" (Some samples.idle_campaign) in
  let filters := <["expired" := true]> samples.filters_off in
  utils.should_show_campaign_with_filters cd (<["active" := true]> filters)
  = true ∧
  utils.should_show_campaign_with_filters cd (<["not_linked" := false]> filters)
  = true.
Proof.
  intros cd filters.
  destruct (filter_flags_monotone cd filters "active"
              (samples.twitch_excluding [])) as [Hon [Hoff _]].
  split.
  - destruct Hon as [Hpackage _]; [discriminate|].
    apply Hpackage. reflexivity.
  - apply Hoff. reflexivity.
Defined.

End filter_more.

(** * The derived status of the one-file interface *)

Section legacy_status_facts.
Import controller.

(** X5.  [WebUIManager._get_campaign_status] of [src/webui.py] raises
    exactly when the campaign lacks [active], or is not active and lacks
    [upcoming]; otherwise it answers ["Active"], ["Upcoming"] or
    ["Expired"], and its answer is the one of [get_campaign_status] except
    where that one says ["Unknown"], which it turns into ["Expired"]. *)
Theorem legacy_status_against_package campaign :
  (webui_py._get_campaign_status campaign = None ↔
     active campaign = None ∨
     (active campaign = Some false ∧ upcoming campaign = None)) ∧
  (∀ s, webui_py._get_campaign_status campaign = Some s →
     s ∈ ["Active"; "Upcoming"; "Expired"] ∧
     (utils.get_campaign_status campaign = s ∨
      (utils.get_campaign_status campaign = "Unknown" ∧ s = "Expired"))).
Proof.
  unfold webui_py._get_campaign_status, utils.get_campaign_status, has_and_true.
  destruct (active campaign) as [[]|], (upcoming campaign) as [[]|],
    (expired campaign) as [[]|]; simpl;
    (split; [split; [intros [=] || intros _; tauto
                    | intros [[=]|[[=] [=]]]; done]
            | intros s [= <-]; rewrite !elem_of_cons; tauto]).
Qed.

Lemma legacy_status_against_package_witness :
  webui_py._get_campaign_status samples.idle_campaign = Some "Expired" ∧
  utils.get_campaign_status samples.idle_campaign = "Unknown".
Proof.
  destruct (legacy_status_against_package samples.idle_campaign) as [_ Hsome].
  destruct (Hsome "Expired" eq_refl) as [_ [Hsame|[Hunknown _]]].
  - discriminate Hsame.
  - split; [reflexivity|exact Hunknown].
Defined.

End legacy_status_facts.

(** * The time labels *)

Section time_label_facts.
Import controller time_labels.

Lemma total_seconds_positive_sub a b :
  total_seconds_positive (datetime_sub a b) = (b <? a)%Z.
Proof.
  unfold total_seconds_positive, datetime_sub. simpl.
  destruct (Z.ltb_spec b a) as [Hlt|Hge].
  - apply Z.ltb_lt. Z.to_euclidean_division_equations. lia.
  - apply Z.ltb_ge. Z.to_euclidean_division_equations. lia.
Qed.

Lemma remaining_label_minutes a b :
  (b < a)%Z →
  remaining_label (datetime_sub a b) = minutes_label ((a - b) / 60000000).
Proof.
  intros Hlt. unfold remaining_label, minutes_label, datetime_sub. simpl.
  set (us := (a - b)%Z).
  assert (Hdays : (us / 86400000000 = us / 60000000 / 1440)%Z).
  { Z.to_euclidean_division_equations. lia. }
  assert (Hhours : (us mod 86400000000 / 1000000 / 3600
                    = (us / 60000000 / 60) mod 24)%Z).
  { Z.to_euclidean_division_equations. lia. }
  assert (Hmin : ((us mod 86400000000 / 1000000) mod 3600 / 60
                  = (us / 60000000) mod 60)%Z).
  { Z.to_euclidean_division_equations. lia. }
  rewrite Hdays, Hhours, Hmin.
  set (m := (us / 60000000)%Z).
  assert (Hm : (0 ≤ m)%Z) by (unfold m, us; Z.to_euclidean_division_equations; lia).
  destruct (Z.leb_spec 1440 m) as [Hd|Hd].
  - replace (0 <? m / 1440)%Z with true; [done|].
    symmetry. apply Z.ltb_lt. Z.to_euclidean_division_equations. lia.
  - replace (0 <? m / 1440)%Z with false.
    2:{ symmetry. apply Z.ltb_ge. Z.to_euclidean_division_equations. lia. }
    assert (H24 : ((m / 60) mod 24 = m / 60)%Z).
    { Z.to_euclidean_division_equations. lia. }
    rewrite H24.
    destruct (Z.leb_spec 60 m) as [Hh|Hh].
    + replace (0 <? m / 60)%Z with true; [done|].
      symmetry. apply Z.ltb_lt. Z.to_euclidean_division_equations. lia.
    + replace (0 <? m / 60)%Z with false.
      2:{ symmetry. apply Z.ltb_ge. Z.to_euclidean_division_equations. lia. }
      f_equal. f_equal. Z.to_euclidean_division_equations. lia.
Qed.

Lemma starts_label_hours a b :
  (b < a)%Z →
  (let time_diff := datetime_sub a b in
   if (0 <? days time_diff)%Z
   then "Starts in " +:+ pretty (days time_diff) +:+ "d "
        +:+ pretty (seconds time_diff / 3600)%Z +:+ "h"
   else "Starts in " +:+ pretty (seconds time_diff / 3600)%Z +:+ "h")
  = hours_label ((a - b) / 3600000000).
Proof.
  intros Hlt. unfold hours_label, datetime_sub. simpl.
  set (us := (a - b)%Z).
  assert (Hdays : (us / 86400000000 = us / 3600000000 / 24)%Z).
  { Z.to_euclidean_division_equations. lia. }
  assert (Hhours : (us mod 86400000000 / 1000000 / 3600
                    = (us / 3600000000) mod 24)%Z).
  { Z.to_euclidean_division_equations. lia. }
  rewrite Hdays, Hhours.
  set (h := (us / 3600000000)%Z).
  assert (Hh : (0 ≤ h)%Z) by (unfold h, us; Z.to_euclidean_division_equations; lia).
  destruct (Z.leb_spec 24 h) as [Hd|Hd].
  - replace (0 <? h / 24)%Z with true; [done|].
    symmetry. apply Z.ltb_lt. Z.to_euclidean_division_equations. lia.
  - replace (0 <? h / 24)%Z with false.
    2:{ symmetry. apply Z.ltb_ge. Z.to_euclidean_division_equations. lia. }
    assert (H24 : (h mod 24 = h)%Z).
    { Z.to_euclidean_division_equations. lia. }
    by rewrite H24.
Qed.

Lemma format_time_remaining_active_eq pytz now campaign schedule e :
  has_and_true (active campaign) = true →
  ends_at schedule = Some e →
  format_time_remaining pytz now campaign schedule
  = if pytz && (now <? e)%Z then remaining_label (datetime_sub e now) else "".
Proof.
  intros Hactive Hends. unfold format_time_remaining.
  rewrite Hactive, Hends, total_seconds_positive_sub. by destruct pytz.
Qed.

(** X6.  For an active campaign that has [ends_at], with [pytz] at hand,
    [format_time_remaining] answers the empty string once the end is
    reached, and before that a label that depends on the whole minutes
    left only: days, hours and minutes from a day on, hours and minutes
    from an hour on, minutes below that (["0m"] in the last minute).
    Without [pytz] the answer is the empty string. *)
Theorem format_time_remaining_active now campaign schedule e :
  has_and_true (active campaign) = true →
  ends_at schedule = Some e →
  ((e ≤ now)%Z → format_time_remaining true now campaign schedule = "") ∧
  ((now < e)%Z →
     format_time_remaining true now campaign schedule
     = minutes_label ((e - now) / 60000000)) ∧
  format_time_remaining false now campaign schedule = "".
Proof.
  intros Hactive Hends.
  rewrite !(format_time_remaining_active_eq _ now campaign schedule e) by done.
  simpl. split; [|split; [|done]].
  - intros Hle. destruct (Z.ltb_spec now e); [lia|done].
  - intros Hlt. destruct (Z.ltb_spec now e); [|lia].
    by apply remaining_label_minutes.
Qed.

(** X7.  For a campaign that is upcoming and is not an active campaign
    with [ends_at], [format_time_remaining] answers the empty string once
    the start is reached, and before that ["Starts in ..."] with the whole
    hours left only, so ["Starts in 0h"] throughout the last hour; and a
    campaign that is neither an active one with [ends_at] nor an upcoming
    one with [starts_at] gets the empty string. *)
Theorem format_time_remaining_upcoming now campaign schedule :
  (has_and_true (active campaign) = false ∨ ends_at schedule = None) →
  (∀ s,
     has_and_true (upcoming campaign) = true →
     starts_at schedule = Some s →
     ((s ≤ now)%Z → format_time_remaining true now campaign schedule = "") ∧
     ((now < s)%Z →
        format_time_remaining true now campaign schedule
        = hours_label ((s - now) / 3600000000))) ∧
  ((has_and_true (upcoming campaign) = false ∨ starts_at schedule = None) →
     format_time_remaining true now campaign schedule = "").
Proof.
  intros Hnot. unfold format_time_remaining.
  assert (Hfirst :
    match has_and_true (active campaign), ends_at schedule with
    | true, Some _ => False
    | _, _ => True
    end).
  { destruct Hnot as [-> | ->]; [done|]. by destruct (has_and_true _). }
  destruct (has_and_true (active campaign)), (ends_at schedule);
    try done; clear Hfirst Hnot.
  all: split;
    [intros s -> ->; simpl; rewrite total_seconds_positive_sub; split;
       [intros Hle; destruct (Z.ltb_spec now s); [lia|done]
       |intros Hlt; destruct (Z.ltb_spec now s); [|lia];
        by apply starts_label_hours]
    |intros [-> | ->]; [done|]; by destruct (has_and_true _)].
Qed.

(** X8.  [MockInventory._get_time_remaining] looks at [ends_at] alone:
    without it the answer is empty, at or after the end it is
    ["Expired"], before the end it is the label of the whole minutes
    left.  So for an active campaign that has not ended the two functions
    give the same label, and at or after the end they differ, ["Expired"]
    against the empty string. *)
Theorem mock_time_remaining_against_utils now campaign schedule :
  (ends_at schedule = None → _get_time_remaining now schedule = "") ∧
  (∀ e,
     ends_at schedule = Some e →
     ((e ≤ now)%Z → _get_time_remaining now schedule = "Expired") ∧
     ((now < e)%Z →
        _get_time_remaining now schedule
        = minutes_label ((e - now) / 60000000)) ∧
     (has_and_true (active campaign) = true →
        ((now < e)%Z →
           _get_time_remaining now schedule
           = format_time_remaining true now campaign schedule) ∧
        ((e ≤ now)%Z →
           _get_time_remaining now schedule = "Expired" ∧
           format_time_remaining true now campaign schedule = ""))).
Proof.
  unfold _get_time_remaining. split; [by intros ->|].
  intros e He. rewrite He. rewrite total_seconds_positive_sub.
  assert (Hpast : (e ≤ now)%Z → (now <? e)%Z = false) by (intros; by apply Z.ltb_ge).
  assert (Hfuture : (now < e)%Z → (now <? e)%Z = true) by (intros; by apply Z.ltb_lt).
  split; [by intros ->%Hpast|].
  split; [intros Hlt; rewrite (Hfuture Hlt); by apply remaining_label_minutes|].
  intros Hactive.
  rewrite (format_time_remaining_active_eq true now campaign schedule e)
    by done.
  simpl. split.
  - intros Hlt. by rewrite (Hfuture Hlt).
  - intros Hle. by rewrite (Hpast Hle).
Qed.

Lemma format_time_remaining_active_witness :
  let schedule := {| ends_at := Some 5430000000%Z; starts_at := None |} in
  format_time_remaining true 0 samples.unlinked_active_campaign schedule
  = "1h 30m" ∧
  format_time_remaining true 5430000000 samples.unlinked_active_campaign
    schedule = "" ∧
  format_time_remaining false 0 samples.unlinked_active_campaign schedule = "".
Proof.
  intros schedule.
  destruct (format_time_remaining_active 0 samples.unlinked_active_campaign
              schedule 5430000000%Z eq_refl eq_refl) as (_ & Hlabel & Hpytz).
  destruct (format_time_remaining_active 5430000000
              samples.unlinked_active_campaign schedule 5430000000%Z
              eq_refl eq_refl) as (Hpast & _ & _).
  split; [|split].
  - rewrite Hlabel by lia. reflexivity.
  - apply Hpast. lia.
  - exact Hpytz.
Defined.

Lemma format_time_remaining_upcoming_witness :
  let schedule := {| ends_at := None; starts_at := Some 1800000000%Z |} in
  format_time_remaining true 0 samples.upcoming_campaign schedule
  = "Starts in 0h" ∧
  format_time_remaining true 1800000000 samples.upcoming_campaign schedule
  = "" ∧
  format_time_remaining true 0 samples.idle_campaign schedule = "".
Proof.
  intros schedule. split; [|split].
  - destruct (format_time_remaining_upcoming 0 samples.upcoming_campaign
                schedule (or_introl eq_refl)) as [Hup _].
    destruct (Hup 1800000000%Z eq_refl eq_refl) as [_ Hlabel].
    rewrite Hlabel by lia. reflexivity.
  - destruct (format_time_remaining_upcoming 1800000000
                samples.upcoming_campaign schedule (or_introl eq_refl))
      as [Hup _].
    destruct (Hup 1800000000%Z eq_refl eq_refl) as [Hpast _].
    apply Hpast. lia.
  - destruct (format_time_remaining_upcoming 0 samples.idle_campaign
                schedule (or_introl eq_refl)) as [_ Hnone].
    apply Hnone. by left.
Defined.

Lemma mock_time_remaining_against_utils_witness :
  let schedule := {| ends_at := Some 5430000000%Z; starts_at := None |} in
  _get_time_remaining 0 schedule = "1h 30m" ∧
  _get_time_remaining 0 schedule
  = format_time_remaining true 0 samples.unlinked_active_campaign schedule ∧
  _get_time_remaining 6000000000 schedule = "Expired" ∧
  format_time_remaining true 6000000000 samples.unlinked_active_campaign
    schedule = "" ∧
  _get_time_remaining 0 {| ends_at := None; starts_at := None |} = "".
Proof.
  intros schedule.
  destruct (mock_time_remaining_against_utils 0
              samples.unlinked_active_campaign schedule) as [_ Hsome].
  destruct (Hsome 5430000000%Z eq_refl) as (_ & Hlabel & Hactive).
  destruct (Hactive eq_refl) as [Hsame _].
  destruct (mock_time_remaining_against_utils 6000000000
              samples.unlinked_active_campaign schedule) as [_ Hsome'].
  destruct (Hsome' 5430000000%Z eq_refl) as (_ & _ & Hactive').
  destruct (Hactive' eq_refl) as [_ Hpast].
  destruct Hpast as [Hexpired Hempty]; [lia|].
  split; [rewrite Hlabel by lia; reflexivity|].
  split; [apply Hsame; lia|].
  split; [exact Hexpired|]. split; [exact Hempty|].
  by apply (mock_time_remaining_against_utils 0 samples.idle_campaign
              {| ends_at := None; starts_at := None |}).
Defined.

End time_label_facts.

(** * Choosing the interface *)

Section factory_facts.
Import ui_factory.
Variable int : string → option Z.

Lemma lower_ascii_idemp c : pystr.lower_ascii (pystr.lower_ascii c) = pystr.lower_ascii c.
Proof. by destruct c as [[] [] [] [] [] [] [] []]. Qed.

Lemma lower_idemp s : pystr.lower (pystr.lower s) = pystr.lower s.
Proof.
  induction s as [|c s IH]; [done|]. simpl. by rewrite lower_ascii_idemp, IH.
Qed.


(** X10.  The name of the backend is matched without regard to case:
    writing it in lower case in [UI_BACKEND] changes neither the manager
    returned nor a line printed, nor the answer of [is_webui_enabled]. *)
Theorem ui_backend_case_insensitive environ name import_error nicegui_available :
  create_gui_manager int (<["UI_BACKEND" := pystr.lower name]> environ)
    import_error nicegui_available
  = create_gui_manager int (<["UI_BACKEND" := name]> environ)
      import_error nicegui_available ∧
  is_webui_enabled (<["UI_BACKEND" := pystr.lower name]> environ)
  = is_webui_enabled (<["UI_BACKEND" := name]> environ).
Proof.
  unfold create_gui_manager, is_webui_enabled, getenv.
  rewrite !lookup_insert_eq, !lookup_insert_ne by discriminate. simpl.
  by rewrite lower_idemp.
Qed.

End factory_facts.


(** * The progress bar *)

Section progress_display_facts.
Import progress_display.

Lemma progress_value_spec p :
  ((p <= 100 → progress_value p == p / 100) ∧
   (100 < p → progress_value p = p))%Q.
Proof.
  unfold progress_value. destruct (Qle_bool p 100) eqn:Hle.
  - apply Qle_bool_iff in Hle. split; [done|]. intros Hlt. lra.
  - split; [|done]. intros Hle'. apply Qle_bool_iff in Hle'. congruence.
Qed.

(** X11.  With the bar built, [display_drop] sets it from the drop's
    progress [p]: to [p / 100] when [p ≤ 100], which lies between 0 and 1
    for [0 ≤ p], and to [p] itself when [p > 100]; so the bar is never
    given a value above 1 and up to 100. *)
Theorem display_drop_bar_value drop manager p bar :
  progress drop = Some p →
  _progress_bar manager = Some bar →
  ∃ v,
    _progress_bar (display_drop (Some drop) manager) = Some v ∧
    ((p <= 100 → v == p / 100) ∧
     (100 < p → v = p) ∧
     (0 <= p → p <= 100 → 0 <= v ∧ v <= 1) ∧
     ¬ (1 < v ∧ v <= 100))%Q.
Proof.
  intros Hp Hbar. exists (progress_value p). simpl. rewrite Hp, Hbar.
  split; [done|].
  destruct (progress_value_spec p) as [Hlow Hhigh].
  split; [done|]. split; [done|]. split.
  - intros H0 H100. rewrite (Hlow H100). unfold Qdiv.
    change (/ 100)%Q with (1 # 100)%Q. split; lra.
  - intros [H1 H100]. destruct (Qlt_le_dec 100 p) as [Hgt|Hle].
    + rewrite (Hhigh Hgt) in H100. lra.
    + rewrite (Hlow Hle) in H1. unfold Qdiv in H1.
      change (/ 100)%Q with (1 # 100)%Q in H1. lra.
Qed.

(** X12.  Before the page is built [clear_drop] and [display_drop] change
    nothing.  [display_drop(None)] is [clear_drop]; clearing wipes what a
    drop displayed before had left, and clearing twice is clearing once;
    neither function builds a widget that was not there. *)
Theorem clear_drop_resets drop manager :
  (_progress_bar manager = None → _progress_label manager = None →
     clear_drop manager = manager ∧ display_drop drop manager = manager) ∧
  display_drop None manager = clear_drop manager ∧
  clear_drop (display_drop drop manager) = clear_drop manager ∧
  clear_drop (clear_drop manager) = clear_drop manager ∧
  (is_Some (_progress_bar (display_drop drop manager))
   ↔ is_Some (_progress_bar manager)) ∧
  (is_Some (_progress_label (display_drop drop manager))
   ↔ is_Some (_progress_label manager)).
Proof.
  destruct manager as [[bar|] [label|]], drop as [[[p|] [n|]]|]; simpl;
    repeat split; try done; try (by intros [? [=]]); try (by eexists);
    congruence.
Qed.

Lemma display_drop_bar_value_witness :
  let built := {| _progress_bar := Some 0%Q; _progress_label := Some "" |} in
  let half := {| progress := Some 50%Q; name := Some "Chest" |} in
  let over := {| progress := Some 250%Q; name := None |} in
  (∃ v, _progress_bar (display_drop (Some half) built) = Some v ∧
        (v == 1 # 2)%Q ∧ (0 <= v ∧ v <= 1)%Q) ∧
  (∃ v, _progress_bar (display_drop (Some over) built) = Some v ∧
        v = 250%Q).
Proof.
  intros built half over. split.
  - destruct (display_drop_bar_value half built 50%Q 0%Q eq_refl eq_refl)
      as (v & Hbar & Hlow & _ & Hrange & _).
    exists v. split; [exact Hbar|]. split.
    + rewrite Hlow; [reflexivity|]. by apply Qle_bool_iff.
    + apply Hrange; by apply Qle_bool_iff.
  - destruct (display_drop_bar_value over built 250%Q 0%Q eq_refl eq_refl)
      as (v & Hbar & _ & Hhigh & _).
    exists v. split; [exact Hbar|]. apply Hhigh. reflexivity.
Defined.

Lemma clear_drop_resets_witness :
  let unbuilt := {| _progress_bar := None; _progress_label := None |} in
  let drop := Some {| progress := Some 50%Q; name := Some "Chest" |} in
  clear_drop unbuilt = unbuilt ∧ display_drop drop unbuilt = unbuilt.
Proof.
  intros unbuilt drop.
  destruct (clear_drop_resets drop unbuilt) as [Hunbuilt _].
  by apply Hunbuilt.
Defined.

End progress_display_facts.

(** * More on the websocket status table *)

Section websocket_more.
Import mock_classes.

(** X13.  [update] on an index that is in the table overwrites the
    fields given and keeps the other one; every other index keeps its
    entry. *)
Theorem websocket_update_existing idx item status topics self :
  is_Some status ∨ is_Some topics →
  _items self !! idx = Some item →
  ∃ self',
    update idx status topics self = (Ok tt, self') ∧
    _items self' !! idx
    = Some {| status := default (mock_classes.status item) status;
              topics := default (mock_classes.topics item) topics |} ∧
    ∀ j, j ≠ idx → _items self' !! j = _items self !! j.
Proof.
  intros Hsome Hitem. eexists. split; [by apply update_some|]. simpl.
  split.
  - by rewrite lookup_insert_eq, Hitem.
  - intros j Hne. by rewrite lookup_insert_ne.
Qed.

Lemma websocket_update_existing_witness :
  let self :=
    {| _items := {[ 1%Z := {| status := "connected"; topics := 7 |} ]} |} in
  ∃ self',
    update 1 None (Some 9%Z) self = (Ok tt, self') ∧
    _items self' !! 1%Z = Some {| status := "connected"; topics := 9 |}.
Proof.
  intros self.
  destruct (websocket_update_existing 1
              {| status := "connected"; topics := 7 |} None (Some 9%Z) self)
    as (self' & Hrun & Hitem & _).
  - right. by eexists.
  - reflexivity.
  - exists self'. by split.
Defined.

(** X14.  [remove] takes the index out of the table and leaves the
    others; on an index that is not in the table it changes nothing.
    Removing an index right after its first [update] gives the table
    back, and an [update] after [remove] starts again from the defaults,
    whatever the entry held before. *)
Theorem websocket_remove_contract idx self :
  _items (remove idx self) !! idx = None ∧
  (∀ j, j ≠ idx → _items (remove idx self) !! j = _items self !! j) ∧
  (_items self !! idx = None → remove idx self = self) ∧
  (∀ status topics,
     _items self !! idx = None →
     remove idx (update idx status topics self).2 = self) ∧
  (∀ status topics,
     is_Some status ∨ is_Some topics →
     _items (update idx status topics (remove idx self)).2 !! idx
     = Some {| status := default "disconnected" status;
               topics := default 0%Z topics |}).
Proof.
  destruct self as [items]. unfold remove. simpl.
  split; [apply lookup_delete_eq|].
  split; [intros j Hne; by apply lookup_delete_ne|].
  split; [intros Hnone; f_equal; by apply delete_id|].
  split.
  - intros status topics Hnone. f_equal.
    destruct status as [s|], topics as [t|]; simpl; rewrite ?Hnone; simpl;
      rewrite ?delete_insert_eq; by apply delete_id.
  - intros status topics Hsome. rewrite update_some by done. simpl.
    by rewrite lookup_insert_eq, lookup_delete_eq.
Qed.

Lemma websocket_remove_contract_witness :
  let self :=
    {| _items := {[ 1%Z := {| status := "connected"; topics := 7 |} ]} |} in
  remove 2 self = self ∧
  remove 2 (update 2 (Some "connecting") None self).2 = self ∧
  _items (update 1 None (Some 3%Z) (remove 1 self)).2 !! 1%Z
  = Some {| status := "disconnected"; topics := 3 |}.
Proof.
  intros self.
  destruct (websocket_remove_contract 2 self) as (_ & _ & Hid & Hround & _).
  destruct (websocket_remove_contract 1 self) as (_ & _ & _ & _ & Hseed).
  split; [by apply Hid|]. split; [by apply Hround|].
  apply (Hseed None (Some 3%Z)). right. by eexists.
Defined.

(** X15.  Setting the status and then the topics of an index, setting
    them in the other order, and setting both in one call leave the same
    table; and repeating an [update] changes nothing. *)
Theorem websocket_updates_commute idx s t self :
  (update idx None (Some t) (update idx (Some s) None self).2).2
  = (update idx (Some s) (Some t) self).2 ∧
  (update idx (Some s) None (update idx None (Some t) self).2).2
  = (update idx (Some s) (Some t) self).2 ∧
  (∀ status topics,
     (update idx status topics (update idx status topics self).2).2
     = (update idx status topics self).2).
Proof.
  destruct self as [items].
  split; [|split]; [| |intros [s'|] [t'|]]; unfold update; simpl;
    rewrite ?lookup_insert_eq; simpl;
    destruct (items !! idx) as [[s0 t0]|] eqn:Hidx; simpl;
    rewrite ?Hidx; by rewrite ?insert_insert_eq.
Qed.

End websocket_more.

(** * The operations on the inventory *)

Section inventory_facts.
Import manager inventory_panel.
Context `{Environment}.

Lemma ends_with_set_campaigns d self Q :
  Q tt (set_campaigns d self).2 → ends_with (set_campaigns d) self Q.
Proof. intros HQ. by exists tt, (set_campaigns d self).2. Qed.

Lemma ends_with_set_inventory_filters f self Q :
  Q tt (set_inventory_filters f self).2 →
  ends_with (set_inventory_filters f) self Q.
Proof. intros HQ. by exists tt, (set_inventory_filters f self).2. Qed.

(** The redraw, for a manager given by its three inventory attributes,
    with the container built or not. *)
Lemma refresh_inventory_display_view self campaigns filters container :
  _inventory_container self = container →
  _campaigns self = campaigns →
  _inventory_filters self = filters →
  ends_with refresh_inventory_display self
    (λ _ self',
       _campaigns self' = campaigns ∧ _inventory_filters self' = filters ∧
       _inventory_container self'
       = match container with
         | Some _ => Some (expected_view filters campaigns)
         | None => None
         end).
Proof.
  intros <- <- <-. destruct (_inventory_container self) as [old|] eqn:Hold.
  - eapply ends_with_mono; [by eapply refresh_inventory_display_ok|].
    by intros [] self' (? & ? & ?).
  - unfold refresh_inventory_display. apply ends_with_bind, ends_with_get.
    rewrite Hold. by apply ends_with_print.
Qed.

(** X16.  With the container built, redrawing a second time changes
    nothing in it: the view after two calls of
    [refresh_inventory_display] is the view after one. *)
Theorem refresh_twice self old :
  _inventory_container self = Some old →
  ∃ self1 self2,
    refresh_inventory_display self = (Ok tt, self1) ∧
    refresh_inventory_display self1 = (Ok tt, self2) ∧
    _inventory_container self2 = _inventory_container self1 ∧
    _campaigns self2 = _campaigns self ∧
    _inventory_filters self2 = _inventory_filters self.
Proof.
  intros Hold.
  destruct (refresh_inventory_display_view self _ _ _ Hold eq_refl eq_refl)
    as ([] & self1 & Hrun1 & Hc1 & Hf1 & Hv1).
  destruct (refresh_inventory_display_view self1 _ _ _ Hv1 Hc1 Hf1)
    as ([] & self2 & Hrun2 & Hc2 & Hf2 & Hv2).
  exists self1, self2. by rewrite Hv1, Hv2.
Qed.

(** X17.  [update_filter] stores the value under the name given, which
    need not be one of the six, leaves the store alone and never raises.
    With the container built it redraws: the view is the one of the new
    filters.  Without it nothing is drawn. *)
Theorem update_filter_contract filter_name value self :
  ∃ self',
    update_filter filter_name value self = (Ok tt, self') ∧
    _inventory_filters self'
    = <[filter_name := value]> (_inventory_filters self) ∧
    _campaigns self' = _campaigns self ∧
    _inventory_container self'
    = match _inventory_container self with
      | Some _ =>
          Some (expected_view (<[filter_name := value]> (_inventory_filters self))
                  (_campaigns self))
      | None => None
      end.
Proof.
  assert (Hrun : ends_with (update_filter filter_name value) self
            (λ _ self',
               _campaigns self' = _campaigns self ∧
               _inventory_filters self'
               = <[filter_name := value]> (_inventory_filters self) ∧
               _inventory_container self'
               = match _inventory_container self with
                 | Some _ =>
                     Some (expected_view
                             (<[filter_name := value]> (_inventory_filters self))
                             (_campaigns self))
                 | None => None
                 end)).
  { unfold update_filter. apply ends_with_bind, ends_with_get.
    apply ends_with_bind, ends_with_set_inventory_filters.
    apply ends_with_bind, ends_with_print.
    by apply refresh_inventory_display_view. }
  destruct Hrun as ([] & self' & Hrun & Hc & Hf & Hv). by exists self'.
Qed.

Lemma dict_set_length {V} (k : string) (v : V) (d : list (string * V)) :
  length (dict_set k v d)
  = if bool_decide (k ∈ d.*1) then length d else S (length d).
Proof.
  rewrite <- (length_fmap fst (dict_set k v d)), dict_set_keys.
  case_bool_decide; rewrite ?length_app, length_fmap; simpl; lia.
Qed.

(** What [add_campaign] does, as a statement about the three inventory
    attributes. *)
Lemma add_campaign_run campaign self :
  ends_with (mock_classes.add_campaign campaign) self
    (λ _ self',
       let key := default (pretty (length (_campaigns self)))
                    (controller.id campaign) in
       let store := dict_set key (mock_classes.add_campaign_entry campaign)
                      (_campaigns self) in
       _campaigns self' = store ∧
       _inventory_filters self' = _inventory_filters self ∧
       _inventory_container self'
       = match _inventory_container self with
         | Some _ => Some (expected_view (_inventory_filters self) store)
         | None => None
         end).
Proof.
  unfold mock_classes.add_campaign. apply ends_with_try.
  apply ends_with_bind, ends_with_get.
  apply ends_with_bind, ends_with_set_campaigns.
  apply ends_with_bind, ends_with_get. cbn [set_campaigns snd _inventory_container].
  destruct (_inventory_container self) as [old|] eqn:Hold.
  - apply ends_with_bind. eapply ends_with_mono.
    { eapply (refresh_inventory_display_view _ _ _ (Some old));
        reflexivity. }
    intros [] self1 (Hc & Hf & Hv). apply ends_with_print. by repeat split.
  - apply ends_with_bind, ends_with_ret, ends_with_print. by repeat split.
Qed.

Lemma dict_set_other {V} (k : string) (v : V) (d : list (string * V)) k' v' :
  k' ≠ k → (k', v') ∈ dict_set k v d ↔ (k', v') ∈ d.
Proof.
  intros Hne. induction d as [|[k0 v0] d IH]; cbn [dict_set].
  - rewrite list_elem_of_singleton, elem_of_nil. split; [|done].
    intros ?. by simplify_eq.
  - destruct (String.eqb_spec k0 k) as [->|Hne0].
    + rewrite !elem_of_cons. split; intros [?|?]; simplify_eq; by right.
    + rewrite !elem_of_cons, IH. done.
Qed.

Lemma dict_set_in {V} (k : string) (v : V) (d : list (string * V)) :
  (k, v) ∈ dict_set k v d.
Proof.
  induction d as [|[k0 v0] d IH]; cbn [dict_set]; [by left|].
  destruct (String.eqb k0 k); [by left|by right].
Qed.

(** X18.  [MockInventory.add_campaign] of a campaign that has an id
    never raises.  It puts the entry of the campaign into the store under
    that id, in place of an entry with that id or else at the end, leaves
    the filters alone, and with the container built redraws the view from
    the new store.  Adding the campaign a second time does not add a key
    or move one, leaves the entries under the other keys as they are, and
    puts under the id an entry built anew from the campaign (its time
    label is read again, so that entry need not be the one of the first
    call). *)
Theorem add_campaign_contract campaign key self :
  controller.id campaign = Some key →
  ∃ self' self'',
    mock_classes.add_campaign campaign self = (Ok tt, self') ∧
    _campaigns self'
    = dict_set key (mock_classes.add_campaign_entry campaign) (_campaigns self) ∧
    (_campaigns self').*1
    = (if bool_decide (key ∈ (_campaigns self).*1) then (_campaigns self).*1
       else (_campaigns self).*1 ++ [key]) ∧
    _inventory_filters self' = _inventory_filters self ∧
    _inventory_container self'
    = match _inventory_container self with
      | Some _ =>
          Some (expected_view (_inventory_filters self) (_campaigns self'))
      | None => None
      end ∧
    mock_classes.add_campaign campaign self' = (Ok tt, self'') ∧
    (_campaigns self'').*1 = (_campaigns self').*1 ∧
    (∀ k cd, k ≠ key →
       (k, cd) ∈ _campaigns self'' ↔ (k, cd) ∈ _campaigns self') ∧
    (∃ cd, (key, cd) ∈ _campaigns self'' ∧ cd_campaign_obj cd = Some campaign).
Proof.
  intros Hkey.
  destruct (add_campaign_run campaign self)
    as ([] & self' & Hrun & Hc & Hf & Hv).
  destruct (add_campaign_run campaign self')
    as ([] & self'' & Hrun' & Hc' & _).
  cbv zeta in Hc, Hv, Hc'. rewrite Hkey in Hc, Hc', Hv. simpl in Hc, Hc', Hv.
  exists self', self''. split; [exact Hrun|]. split; [exact Hc|].
  split; [rewrite Hc; apply dict_set_keys|]. split; [exact Hf|].
  split; [by rewrite Hv, Hc|]. split; [exact Hrun'|].
  assert (Hin : key ∈ (_campaigns self').*1).
  { rewrite Hc. apply list_elem_of_fmap.
    exists (key, mock_classes.add_campaign_entry campaign).
    split; [done|apply dict_set_in]. }
  split; [by rewrite Hc', dict_set_keys, bool_decide_eq_true_2|].
  split; [intros k cd Hne; rewrite Hc'; by apply dict_set_other|].
  exists (mock_classes.add_campaign_entry campaign).
  split; [rewrite Hc'; apply dict_set_in|done].
Qed.

(** X19.  A campaign without an id is stored under the decimal numeral
    of the store's size.  Added to a store whose keys are the numerals
    of 0 to n-1, as a store filled with such campaigns only is, it goes
    to the end under the numeral of n, so that the same campaign added
    twice is stored twice; added to a store that holds that numeral as a
    key already, it replaces the entry under it, and the store does not
    grow. *)
Theorem add_campaign_without_id campaign self :
  controller.id campaign = None →
  ∃ self',
    mock_classes.add_campaign campaign self = (Ok tt, self') ∧
    let key := pretty (length (_campaigns self)) in
    _campaigns self'
    = dict_set key (mock_classes.add_campaign_entry campaign) (_campaigns self) ∧
    ((_campaigns self).*1 = pretty <$> seq 0 (length (_campaigns self)) →
       (_campaigns self').*1 = pretty <$> seq 0 (S (length (_campaigns self)))) ∧
    (key ∈ (_campaigns self).*1 →
       length (_campaigns self') = length (_campaigns self) ∧
       (_campaigns self').*1 = (_campaigns self).*1).
Proof.
  intros Hid.
  destruct (add_campaign_run campaign self)
    as ([] & self' & Hrun & Hc & _).
  exists self'. split; [exact Hrun|]. cbv zeta in *.
  rewrite Hid in Hc. simpl in Hc. split; [exact Hc|]. split.
  - intros Hkeys. rewrite Hc, dict_set_keys, Hkeys.
    rewrite bool_decide_eq_false_2.
    + by rewrite seq_S, fmap_app.
    + rewrite list_elem_of_fmap. intros (i & Hi%(inj pretty) & Hin).
      apply elem_of_seq in Hin. lia.
  - intros Hin. rewrite Hc, dict_set_length, dict_set_keys.
    by rewrite !bool_decide_eq_true_2.
Qed.

(** X20.  [MockInventory.clear] never raises and empties the store,
    whatever it held; the filters stay.  With the container built the
    view is redrawn to the empty-store placeholder alone; without it
    nothing is drawn and nothing is written to the console log. *)
Theorem inventory_clear_contract self :
  ∃ self',
    mock_classes.clear self = (Ok tt, self') ∧
    _campaigns self' = [] ∧
    _inventory_filters self' = _inventory_filters self ∧
    match _inventory_container self with
    | Some _ => _inventory_container self' = Some [empty_store_placeholder]
    | None =>
        _inventory_container self' = None ∧
        _console_log self' = _console_log self ∧
        stdout self' = stdout self
    end.
Proof.
  unfold mock_classes.clear.
  destruct (_inventory_container self) as [old|] eqn:Hold.
  - assert (Hrun : ends_with
              (set_campaigns [];;
               self0 ← get;
               match _inventory_container self0 with
               | Some _ => refresh_inventory_display
               | None => mret tt
               end) self
              (λ _ self',
                 _campaigns self' = [] ∧
                 _inventory_filters self' = _inventory_filters self ∧
                 _inventory_container self' = Some [empty_store_placeholder])).
    { apply ends_with_bind, ends_with_set_campaigns.
      apply ends_with_bind, ends_with_get.
      cbn [set_campaigns snd _inventory_container]. rewrite Hold.
      eapply (refresh_inventory_display_view _ [] _ (Some old));
        reflexivity. }
    destruct Hrun as ([] & self' & Hrun & Hc & Hf & Hv).
    exists self'. by repeat split.
  - eexists. split.
    + unfold mbind, M_bind, get, set_campaigns. simpl. rewrite Hold.
      reflexivity.
    + by repeat split.
Qed.

End inventory_facts.

Section inventory_samples.

#[local] Existing Instance samples.env.

Lemma refresh_twice_witness :
  ∃ self1 self2,
    inventory_panel.refresh_inventory_display samples.two_campaign_manager
    = (Ok tt, self1) ∧
    inventory_panel.refresh_inventory_display self1 = (Ok tt, self2) ∧
    manager._inventory_container self2 = manager._inventory_container self1.
Proof.
  destruct (refresh_twice samples.two_campaign_manager _ eq_refl)
    as (self1 & self2 & Hrun1 & Hrun2 & Hv & _).
  exists self1, self2. split; [exact Hrun1|]. split; [exact Hrun2|exact Hv].
Defined.

Lemma add_campaign_contract_witness :
  ∃ self',
    mock_classes.add_campaign samples.idle_campaign samples.two_campaign_manager
    = (Ok tt, self') ∧
    (manager._campaigns self').*1 = ["a"; "b"; "c1"].
Proof.
  destruct (add_campaign_contract samples.idle_campaign "c1"
              samples.two_campaign_manager eq_refl)
    as (self' & _ & Hrun & _ & Hkeys & _).
  exists self'. split; [exact Hrun|]. exact Hkeys.
Defined.

Lemma add_campaign_without_id_witness :
  ∃ self',
    mock_classes.add_campaign samples.anonymous_campaign
      (manager.__init__ (samples.twitch_excluding []))
    = (Ok tt, self') ∧
    (manager._campaigns self').*1 = ["0"].
Proof.
  destruct (add_campaign_without_id samples.anonymous_campaign
              (manager.__init__ (samples.twitch_excluding [])) eq_refl)
    as (self' & Hrun & _ & Hkeys & _).
  exists self'. split; [exact Hrun|]. exact (Hkeys eq_refl).
Defined.

End inventory_samples.

(** * Loading the inventory *)

Section ingestion_facts.

Context `{Environment}.

Import controller manager inventory_panel.

Lemma dict_set_elem {V} (k : string) (v : V) (d : list (string * V)) k' v' :
  (k', v') ∈ dict_set k v d → (k' = k ∧ v' = v) ∨ (k', v') ∈ d.
Proof.
  induction d as [|[k0 v0] d IH]; cbn [dict_set].
  - intros Hin%list_elem_of_singleton. left. by simplify_eq.
  - destruct (String.eqb_spec k0 k) as [->|Hne].
    + intros [Heq|Hin]%elem_of_cons; [left; by simplify_eq|].
      right. by right.
    + intros [Heq|Hin]%elem_of_cons; [right; rewrite Heq; by left|].
      destruct (IH Hin) as [?|?]; [by left|right; by right].
Qed.

(** A campaign that has the three attributes read without a probe gives
    its entry, under its id, and the manager is not touched. *)
Lemma inventory_entry_complete campaign self :
  is_Some (name campaign) ∧ is_Some (game campaign) ∧ is_Some (id campaign) →
  ∃ k cd,
    inventory_entry campaign self = (Ok (k, cd), self) ∧
    id campaign = Some k ∧
    cd_campaign_obj cd = Some campaign ∧
    cd_status cd = Some (utils.get_campaign_status campaign).
Proof.
  intros ([n Hn] & [g Hg] & [i Hi]). unfold inventory_entry, attr.
  rewrite Hn, Hg, Hi. eexists _, _. split; [reflexivity|]. done.
Qed.

(** One that lacks one of them raises for the first that is missing, in
    the order [name], [game], [id]. *)
Lemma inventory_entry_incomplete campaign self :
  name campaign = None ∨ game campaign = None ∨ id campaign = None →
  inventory_entry campaign self
  = (Raise (AttributeError
              match name campaign, game campaign with
              | None, _ => "name"
              | Some _, None => "game"
              | Some _, Some _ => "id"
              end), self).
Proof.
  unfold inventory_entry, attr.
  destruct (name campaign), (game campaign), (id campaign);
    intros [?|[?|?]]; simplify_eq; reflexivity.
Qed.

Lemma load_inventory_cons campaign rest self k cd :
  inventory_entry campaign self = (Ok (k, cd), self) →
  load_inventory (campaign :: rest) self
  = load_inventory rest (set_campaigns (dict_set k cd (_campaigns self)) self).2.
Proof.
  intros Hentry. cbn [load_inventory]. unfold mbind, M_bind at 1.
  by rewrite Hentry.
Qed.

(** The loop of [refresh_inventory] over campaigns that all have the three
    attributes: it ends normally and touches the store only; the keys of
    the store stay distinct, are the old keys and the ids of the
    campaigns, and every new entry was built from a campaign of the list
    that has the entry's key as its id. *)
Lemma load_inventory_ok campaigns : ∀ self,
  Forall (λ c, is_Some (name c) ∧ is_Some (game c) ∧ is_Some (id c))
    campaigns →
  ∃ self',
    load_inventory campaigns self = (Ok tt, self') ∧
    (∃ d, self' = (set_campaigns d self).2) ∧
    (NoDup (_campaigns self).*1 → NoDup (_campaigns self').*1) ∧
    (∀ k, k ∈ (_campaigns self').*1
          ↔ k ∈ (_campaigns self).*1 ∨ Some k ∈ id <$> campaigns) ∧
    (∀ k cd, (k, cd) ∈ _campaigns self' →
       (k, cd) ∈ _campaigns self ∨
       ∃ c, c ∈ campaigns ∧ id c = Some k ∧ cd_campaign_obj cd = Some c ∧
            cd_status cd = Some (utils.get_campaign_status c)) ∧
    (NoDup ((Some <$> (_campaigns self).*1) ++ (id <$> campaigns)) →
       Some <$> (_campaigns self').*1
       = (Some <$> (_campaigns self).*1) ++ (id <$> campaigns)).
Proof.
  induction campaigns as [|c rest IH]; intros self Hall.
  - exists self. split; [reflexivity|]. split.
    { exists (_campaigns self). by destruct self. }
    split; [done|]. split.
    { intros k. rewrite fmap_nil, elem_of_nil. tauto. }
    split; [by left|]. intros _. by rewrite fmap_nil, app_nil_r.
  - apply Forall_cons in Hall as [Hc Hrest].
    destruct (inventory_entry_complete c self Hc)
      as (k0 & cd0 & Hentry & Hid & Hobj & Hstatus).
    rewrite (load_inventory_cons _ _ _ _ _ Hentry).
    destruct (IH (set_campaigns (dict_set k0 cd0 (_campaigns self)) self).2 Hrest)
      as (self' & Hrun & [d Hd] & Hnd & Hkeys & Hentries & Horder).
    cbn [set_campaigns snd _campaigns] in Hnd, Hkeys, Hentries, Horder.
    exists self'. split; [exact Hrun|]. split.
    { exists d. by rewrite Hd. }
    split; [intros Hnd0; by apply Hnd, dict_set_NoDup|]. split.
    { intros k. rewrite Hkeys, dict_set_keys, fmap_cons, elem_of_cons, Hid.
      case_bool_decide as Hin.
      - split; [tauto|]. intros [?|[?|?]]; simplify_eq; tauto.
      - rewrite elem_of_app, list_elem_of_singleton.
        split; [intros [[?|?]|?]|intros [?|[?|?]]]; simplify_eq; tauto. }
    split.
    { intros k cd Hin. destruct (Hentries k cd Hin) as [Hold|Hnew].
      - apply dict_set_elem in Hold as [[-> ->]|Hold]; [|by left].
        right. exists c. split; [by left|done].
      - right. destruct Hnew as (c' & Hc' & ?). exists c'.
        split; [by right|done]. }
    intros Hdistinct. rewrite fmap_cons, Hid in Hdistinct.
    assert (Hfresh : k0 ∉ (_campaigns self).*1).
    { apply NoDup_app in Hdistinct as (_ & Hdisj & _). intros Hin.
      apply (Hdisj (Some k0)); [by apply list_elem_of_fmap_2|by left]. }
    rewrite dict_set_keys, bool_decide_eq_false_2 in Horder by done.
    rewrite fmap_app in Horder. cbn [fmap list_fmap] in Horder.
    rewrite <- app_assoc in Horder. cbn [app] in Horder.
    rewrite fmap_cons, Hid. by apply Horder.
Qed.

(** The loop stops at the first campaign that lacks [name], [game] or
    [id]: the exception leaves it, and the manager is the one that
    loading the campaigns before it gives. *)
Lemma load_inventory_fails before campaign after : ∀ self,
  Forall (λ c, is_Some (name c) ∧ is_Some (game c) ∧ is_Some (id c))
    before →
  name campaign = None ∨ game campaign = None ∨ id campaign = None →
  ∃ self',
    load_inventory before self = (Ok tt, self') ∧
    load_inventory (before ++ campaign :: after) self
    = (Raise (AttributeError
                match name campaign, game campaign with
                | None, _ => "name"
                | Some _, None => "game"
                | Some _, Some _ => "id"
                end), self').
Proof.
  induction before as [|c rest IH]; intros self Hall Hmiss.
  - exists self. split; [reflexivity|]. cbn [app load_inventory].
    unfold mbind, M_bind at 1.
    by rewrite (inventory_entry_incomplete campaign self Hmiss).
  - apply Forall_cons in Hall as [Hc Hrest].
    destruct (inventory_entry_complete c self Hc) as (k0 & cd0 & Hentry & _).
    rewrite <- app_comm_cons, !(load_inventory_cons _ _ _ _ _ Hentry).
    by apply IH.
Qed.

Lemma bind_ok {A B} (m : M A) (k : A → M B) self a self' :
  m self = (Ok a, self') → (m ≫= k) self = k a self'.
Proof. intros Hm. unfold mbind, M_bind. by rewrite Hm. Qed.

Lemma bind_raise {A B} (m : M A) (k : A → M B) self e self' :
  m self = (Raise e, self') → (m ≫= k) self = (Raise e, self').
Proof. intros Hm. unfold mbind, M_bind. by rewrite Hm. Qed.

(** X21.  [refresh_inventory] on an inventory whose campaigns all have a
    name, a game and an id (or on no inventory) ends normally.  The store
    it leaves holds nothing of the old store: its keys are distinct and
    are the ids of the campaigns, in their order when the ids are
    distinct, and every entry was built from a campaign of the inventory
    with the entry's key as id.  The filters stay, and with the container
    built the view is the one of the new store. *)
Theorem refresh_inventory_loads self campaigns :
  default [] (inventory (_twitch self)) = campaigns →
  Forall (λ c, is_Some (name c) ∧ is_Some (game c) ∧ is_Some (id c))
    campaigns →
  ∃ self',
    refresh_inventory self = (Ok tt, self') ∧
    NoDup (_campaigns self').*1 ∧
    (∀ k, k ∈ (_campaigns self').*1 ↔ Some k ∈ id <$> campaigns) ∧
    (∀ k cd, (k, cd) ∈ _campaigns self' →
       ∃ c, c ∈ campaigns ∧ id c = Some k ∧ cd_campaign_obj cd = Some c ∧
            cd_status cd = Some (utils.get_campaign_status c)) ∧
    (NoDup (id <$> campaigns) →
       Some <$> (_campaigns self').*1 = id <$> campaigns) ∧
    _inventory_filters self' = _inventory_filters self ∧
    _inventory_container self'
    = match _inventory_container self with
      | Some _ =>
          Some (expected_view (_inventory_filters self) (_campaigns self'))
      | None => None
      end.
Proof.
  intros Hinv Hall.
  set (self2 := (set_campaigns [] (print "Refreshing inventory..." self).2).2).
  destruct (load_inventory_ok campaigns self2 Hall)
    as (self3 & Hload & [d Hd] & Hnd & Hkeys & Hentries & Horder).
  cbn [self2 set_campaigns snd _campaigns fmap list_fmap app] in
    Hnd, Hkeys, Hentries, Horder.
  subst self3.
  set (self3 := (set_campaigns d self2).2) in *.
  set (self4 := (print ("Loaded " +:+ pretty (length (_campaigns self3))
                        +:+ " real campaigns") self3).2).
  destruct (refresh_inventory_display_view self4
              (_campaigns self3) (_inventory_filters self)
              (_inventory_container self))
    as ([] & self' & Hrun & Hc & Hf & Hv).
  { reflexivity. } { reflexivity. } { reflexivity. }
  exists self'. split.
  { unfold refresh_inventory.
    rewrite (bind_ok (print "Refreshing inventory...") _ self tt
               (print "Refreshing inventory..." self).2 eq_refl).
    rewrite (bind_ok (set_campaigns []) _ _ tt self2 eq_refl).
    rewrite (bind_ok get _ self2 self2 self2 eq_refl).
    change (_twitch self2) with (_twitch self). rewrite Hinv.
    rewrite (bind_ok _ _ self2 tt self3 Hload).
    rewrite (bind_ok get _ self3 self3 self3 eq_refl).
    rewrite (bind_ok (print _) _ self3 tt self4 eq_refl).
    exact Hrun. }
  rewrite Hc. split; [apply Hnd, NoDup_nil_2|]. split.
  { intros k. rewrite Hkeys, elem_of_nil. tauto. }
  split.
  { intros k cd Hin. destruct (Hentries k cd Hin) as [Hold|Hnew]; [|done].
    by apply elem_of_nil in Hold. }
  done.
Qed.

(** X22.  [refresh_inventory] does not catch what reading a campaign
    raises: at the first campaign of the inventory that lacks [name],
    [game] or [id] the call raises the [AttributeError] of the first of
    the three that is missing.  By then the old store is gone and the
    campaigns before that one are loaded, but the container is not
    redrawn, and the console log has gained the opening line alone. *)
Theorem refresh_inventory_attribute_error self before campaign after :
  inventory (_twitch self) = Some (before ++ campaign :: after) →
  Forall (λ c, is_Some (name c) ∧ is_Some (game c) ∧ is_Some (id c))
    before →
  name campaign = None ∨ game campaign = None ∨ id campaign = None →
  ∃ self',
    refresh_inventory self
    = (Raise (AttributeError
                match name campaign, game campaign with
                | None, _ => "name"
                | Some _, None => "game"
                | Some _, Some _ => "id"
                end), self') ∧
    (∀ k, k ∈ (_campaigns self').*1 ↔ Some k ∈ id <$> before) ∧
    _inventory_container self' = _inventory_container self ∧
    _inventory_filters self' = _inventory_filters self ∧
    _console_log self'
    = _console_log self
      ++ [strftime_now (clock_reads self) +:+ ": Refreshing inventory..."].
Proof.
  intros Hinv Hall Hmiss.
  set (self2 := (set_campaigns [] (print "Refreshing inventory..." self).2).2).
  destruct (load_inventory_fails before campaign after self2 Hall Hmiss)
    as (self3 & Hbefore & Hfail).
  destruct (load_inventory_ok before self2 Hall)
    as (self3' & Hload & [d Hd] & _ & Hkeys & _).
  rewrite Hbefore in Hload. simplify_eq.
  exists ((set_campaigns d self2).2). split.
  { unfold refresh_inventory.
    rewrite (bind_ok (print "Refreshing inventory...") _ self tt
               (print "Refreshing inventory..." self).2 eq_refl).
    rewrite (bind_ok (set_campaigns []) _ _ tt self2 eq_refl).
    rewrite (bind_ok get _ self2 self2 self2 eq_refl).
    change (_twitch self2) with (_twitch self). rewrite Hinv. cbn [default].
    by apply bind_raise. }
  split.
  { intros k. rewrite Hkeys. cbn. rewrite elem_of_nil. tauto. }
  done.
Qed.

End ingestion_facts.

Section ingestion_samples.

#[local] Existing Instance samples.env.

Lemma refresh_inventory_loads_witness :
  ∃ self',
    inventory_panel.refresh_inventory
      (manager.__init__
         (samples.twitch_holding
            [samples.idle_campaign; samples.unlinked_active_campaign]))
    = (Ok tt, self') ∧
    Some <$> (manager._campaigns self').*1 = [Some "c1"; Some "c2"].
Proof.
  destruct (refresh_inventory_loads
              (manager.__init__
                 (samples.twitch_holding
                    [samples.idle_campaign; samples.unlinked_active_campaign]))
              [samples.idle_campaign; samples.unlinked_active_campaign]
              eq_refl)
    as (self' & Hrun & _ & _ & _ & Horder & _).
  - repeat constructor; by eexists.
  - exists self'. split; [exact Hrun|]. apply Horder.
    apply NoDup_cons. split; [|apply NoDup_singleton].
    intros Hin%list_elem_of_singleton. discriminate Hin.
Defined.

Lemma refresh_inventory_attribute_error_witness :
  let self :=
    (inventory_panel._create_campaign_list_section
       (manager.__init__
          (samples.twitch_holding
             [samples.idle_campaign; samples.anonymous_campaign;
              samples.upcoming_campaign]))).2 in
  ∃ self',
    inventory_panel.refresh_inventory self
    = (Raise (AttributeError "id"), self') ∧
    manager._inventory_container self' = manager._inventory_container self.
Proof.
  intros self.
  destruct (refresh_inventory_attribute_error self
              [samples.idle_campaign] samples.anonymous_campaign
              [samples.upcoming_campaign] eq_refl)
    as (self' & Hrun & _ & Hview & _).
  - repeat constructor; by eexists.
  - right. right. reflexivity.
  - exists self'. split; [exact Hrun|exact Hview].
Defined.

End ingestion_samples.

(** * The log element against the stored log *)

Section live_view_facts.

Context `{Environment}.

Import manager.

Lemma last_lines_app {A} n (history new : list A) :
  last_lines n (last_lines n history ++ new) = last_lines n (history ++ new).
Proof.
  unfold last_lines.
  rewrite !skipn_app, !length_app, !length_drop, drop_drop.
  f_equal; f_equal; lia.
Qed.

Lemma push_last_lines line l n (history : list string) :
  nicegui.max_lines l = Some n →
  nicegui.lines l = last_lines n history →
  nicegui.max_lines (nicegui.push line l) = Some n ∧
  nicegui.lines (nicegui.push line l)
  = last_lines n (history ++ pystr.splitlines line).
Proof.
  intros Hmax Hlines. unfold nicegui.push. cbn. rewrite Hmax.
  split; [done|]. rewrite Hlines. apply last_lines_app.
Qed.

Lemma push_lines_last_lines timestamp ls : ∀ l n (history : list string),
  nicegui.max_lines l = Some n →
  nicegui.lines l = last_lines n history →
  nicegui.max_lines (push_lines timestamp ls l) = Some n ∧
  nicegui.lines (push_lines timestamp ls l)
  = last_lines n
      (history
       ++ mjoin ((λ line, pystr.splitlines (timestamp +:+ ": " +:+ line))
                   <$> List.filter pystr.strip_nonempty ls)).
Proof.
  induction ls as [|line ls IH]; intros l n history Hmax Hlines;
    cbn [push_lines List.filter].
  - by rewrite fmap_nil, app_nil_r.
  - destruct (pystr.strip_nonempty line).
    + destruct (push_last_lines (timestamp +:+ ": " +:+ line) l n history
                  Hmax Hlines) as [Hmax' Hlines'].
      destruct (IH _ _ _ Hmax' Hlines') as [Hmax'' Hlines''].
      split; [done|].
      rewrite Hlines'', fmap_cons. cbn [mjoin list_join].
      by rewrite <- app_assoc.
    + by apply IH.
Qed.

(** One call of [print] with the log element built. *)
Lemma print_last_lines message self l n (history : list string) :
  _console self = Some l →
  nicegui.max_lines l = Some n →
  nicegui.lines l = last_lines n history →
  ∃ l',
    _console (print message self).2 = Some l' ∧
    nicegui.max_lines l' = Some n ∧
    nicegui.lines l'
    = last_lines n
        (history ++ shown_lines (strftime_now (clock_reads self)) message) ∧
    stdout (print message self).2 = stdout self.
Proof.
  intros Hc Hmax Hlines. rewrite (print_console message self l Hc).
  eexists. split; [reflexivity|]. unfold shown_lines.
  split; [|split; [|unfold print; cbn [snd stdout]; by rewrite Hc]].
  - destruct (pystr.contains pystr.newline message).
    + by apply push_lines_last_lines with history.
    + by apply push_last_lines with history.
  - destruct (pystr.contains pystr.newline message).
    + by apply push_lines_last_lines.
    + by apply push_last_lines.
Qed.

Lemma linebreak_newline c :
  pystr.linebreak c = false → Ascii.eqb c pystr.newline = false.
Proof.
  intros Hc. destruct (Ascii.eqb_spec c pystr.newline) as [->|]; [|done].
  by vm_compute in Hc.
Qed.

Lemma line_cons_elem c ls l :
  l ∈ pystr.line_cons c ls →
  l = String c EmptyString ∨ (∃ l0, l0 ∈ ls ∧ l = String c l0) ∨ l ∈ ls.
Proof.
  destruct ls as [|l0 ls]; cbn [pystr.line_cons].
  - intros ->%list_elem_of_singleton. by left.
  - intros [->|Hin]%elem_of_cons.
    + right. left. exists l0. split; [by left|done].
    + right. right. by right.
Qed.

(** No line of [splitlines] holds a line feed. *)
Lemma splitlines_no_newline n : ∀ s l,
  String.length s ≤ n →
  l ∈ pystr.splitlines s → pystr.contains pystr.newline l = false.
Proof.
  induction n as [|n IH]; intros s l Hlen Hin.
  { destruct s; [by apply elem_of_nil in Hin|simpl in Hlen; lia]. }
  destruct s as [|c1 s1]; [by apply elem_of_nil in Hin|].
  cbn [String.length] in Hlen.
  assert (Hcons : pystr.linebreak c1 = false →
                  l ∈ pystr.line_cons c1 (pystr.splitlines s1) →
                  pystr.contains pystr.newline l = false).
  { intros Hc [->|[(l0 & Hl0 & ->)|Hl]]%line_cons_elem.
    - cbn [pystr.contains]. by rewrite (linebreak_newline _ Hc).
    - cbn [pystr.contains]. rewrite (linebreak_newline _ Hc).
      apply (IH s1); [lia|done].
    - apply (IH s1); [lia|done]. }
  assert (Hbreak : ∀ rest, String.length rest ≤ n →
                   l ∈ EmptyString :: pystr.splitlines rest →
                   pystr.contains pystr.newline l = false).
  { intros rest Hrest [->|Hl]%elem_of_cons; [done|]. by apply (IH rest). }
  cbn [pystr.splitlines] in Hin. cbv zeta in Hin.
  destruct (pystr.linebreak c1) eqn:Hc1; [apply (Hbreak s1); [lia|done]|].
  destruct s1 as [|c2 s2].
  { destruct (nat_of_ascii c1 =? 13)%nat.
    - apply list_elem_of_singleton in Hin. by subst.
    - apply list_elem_of_singleton in Hin. subst. cbn [pystr.contains].
      by rewrite (linebreak_newline _ Hc1). }
  cbn [String.length] in Hlen.
  destruct (nat_of_ascii c1 =? 13)%nat.
  { destruct (nat_of_ascii c2 =? 10)%nat.
    - apply (Hbreak s2); [lia|done].
    - apply (Hbreak (String c2 s2)); [simpl; lia|done]. }
  destruct ((nat_of_ascii c1 =? 194)%nat && (nat_of_ascii c2 =? 133)%nat).
  { apply (Hbreak s2); [lia|done]. }
  destruct s2 as [|c3 s3]; [by apply Hcons|].
  cbn [String.length] in Hlen.
  destruct ((nat_of_ascii c1 =? 226)%nat && (nat_of_ascii c2 =? 128)%nat
            && ((nat_of_ascii c3 =? 168)%nat || (nat_of_ascii c3 =? 169)%nat)).
  - apply (Hbreak s3); [lia|done].
  - by apply Hcons.
Qed.

Lemma contains_app c (s1 s2 : string) :
  pystr.contains c (s1 +:+ s2) = pystr.contains c s1 || pystr.contains c s2.
Proof.
  induction s1 as [|c1 s1 IH]; [done|].
  change (String c1 s1 +:+ s2) with (String c1 (s1 +:+ s2)).
  cbn [pystr.contains]. by destruct (Ascii.eqb c1 c).
Qed.

(** A message that the element shows as one line behind its time stamp
    holds no line feed. *)
Lemma one_line_no_newline timestamp message :
  one_line (timestamp +:+ ": " +:+ message) →
  pystr.contains pystr.newline message = false.
Proof.
  intros Hone.
  assert (Hall : pystr.contains pystr.newline (timestamp +:+ ": " +:+ message)
                 = false).
  { apply (splitlines_no_newline
             (String.length (timestamp +:+ ": " +:+ message))
             (timestamp +:+ ": " +:+ message)); [done|].
    rewrite Hone. by left. }
  rewrite !contains_app in Hall.
  by destruct (pystr.contains pystr.newline message);
    [rewrite !orb_true_r in Hall|].
Qed.

(** X23.  With the log element built, whatever is printed, the element
    shows the last [max_lines] of the lines sent to it.  Per call these
    are: for a message without a line feed, the lines that
    [str.splitlines] cuts the stamped message into; for a message with a
    line feed, its pieces between line feeds that are not blank, each
    stamped with the time of the call and cut by [str.splitlines] in its
    turn.  Nothing goes to the standard output. *)
Theorem live_view_shows_last_lines messages : ∀ self l n history,
  _console self = Some l →
  nicegui.max_lines l = Some n →
  nicegui.lines l = last_lines n history →
  ∃ l',
    _console (prints messages self) = Some l' ∧
    nicegui.max_lines l' = Some n ∧
    nicegui.lines l'
    = last_lines n
        (history
         ++ mjoin (imap (λ i message,
                           shown_lines (strftime_now (clock_reads self + i))
                             message)
                     messages)) ∧
    stdout (prints messages self) = stdout self.
Proof.
  induction messages as [|message rest IH]; intros self l n history Hc Hmax Hlines;
    cbn [prints imap mjoin list_join].
  - exists l. by rewrite app_nil_r.
  - destruct (print_last_lines message self l n history Hc Hmax Hlines)
      as (l1 & Hc1 & Hmax1 & Hlines1 & Hout1).
    destruct (IH _ _ _ _ Hc1 Hmax1 Hlines1) as (l' & Hc' & Hmax' & Hlines' & Hout').
    exists l'. split; [exact Hc'|]. split; [exact Hmax'|].
    split; [|by rewrite Hout'].
    rewrite Hlines', <- app_assoc, Nat.add_0_r. do 4 f_equal.
    apply imap_ext. intros i m _.
    change (clock_reads (print message self).2) with (S (clock_reads self)).
    cbn [compose]. by rewrite Nat.add_succ_r.
Qed.

(** X24.  "The log element shows the last [max_lines] lines of the
    stored console log" is kept by [print] as long as every message,
    behind its time stamp, is one line for the element: it holds no line
    boundary of [str.splitlines], a line feed or another.  When it holds
    before a sequence of such calls, it holds after. *)
Theorem live_view_follows_console_log messages : ∀ self l n,
  (∀ i message,
     messages !! i = Some message →
     one_line (strftime_now (clock_reads self + i) +:+ ": " +:+ message)) →
  _console self = Some l →
  nicegui.max_lines l = Some n →
  nicegui.lines l = last_lines n (_console_log self) →
  ∃ l',
    _console (prints messages self) = Some l' ∧
    nicegui.max_lines l' = Some n ∧
    nicegui.lines l' = last_lines n (_console_log (prints messages self)).
Proof.
  induction messages as [|message rest IH]; intros self l n Hall Hc Hmax Hlines;
    cbn [prints].
  - by exists l.
  - pose proof (Hall 0 message eq_refl) as Hone. rewrite Nat.add_0_r in Hone.
    destruct (print_last_lines message self l n _ Hc Hmax Hlines)
      as (l1 & Hc1 & Hmax1 & Hlines1 & _).
    unfold shown_lines in Hlines1.
    rewrite (one_line_no_newline _ _ Hone), Hone in Hlines1.
    rewrite <- print_console_log in Hlines1.
    apply (IH _ l1 n); [|done..].
    intros i m Hi.
    change (clock_reads (print message self).2) with (S (clock_reads self)).
    replace (S (clock_reads self) + i) with (clock_reads self + S i) by lia.
    by apply (Hall (S i)).
Qed.

End live_view_facts.

Section live_view_samples.

#[local] Existing Instance samples.env.

Lemma live_view_shows_last_lines_witness :
  let self :=
    (main_panel.create_main_panel
       (manager.__init__ (samples.twitch_excluding []))).2 in
  let cr := ascii_of_nat 13 in
  ∃ l',
    manager._console
      (manager.prints
         ["a" +:+ String cr "b";
          "c" +:+ String pystr.newline (String pystr.newline "d")]
         self)
    = Some l' ∧
    nicegui.lines l' = ["0: a"; "b"; "1: c"; "1: d"].
Proof.
  intros self cr.
  destruct (live_view_shows_last_lines
              ["a" +:+ String cr "b";
               "c" +:+ String pystr.newline (String pystr.newline "d")]
              self (nicegui.log (Some 50)) 50 [] eq_refl eq_refl eq_refl)
    as (l' & Hc & _ & Hlines & _).
  exists l'. split; [exact Hc|exact Hlines].
Defined.

Lemma live_view_follows_console_log_witness :
  let self :=
    (main_panel.create_main_panel
       (manager.__init__ (samples.twitch_excluding []))).2 in
  ∃ l',
    manager._console (manager.prints ["a"; "b"] self) = Some l' ∧
    nicegui.lines l' = manager._console_log (manager.prints ["a"; "b"] self).
Proof.
  intros self.
  destruct (live_view_follows_console_log ["a"; "b"] self
              (nicegui.log (Some 50)) 50)
    as (l' & Hc & _ & Hlines).
  - intros [|[|i]] message Hi; [| |done]; injection Hi as <-; reflexivity.
  - reflexivity.
  - reflexivity.
  - reflexivity.
  - exists l'. split; [exact Hc|exact Hlines].
Defined.

End live_view_samples.

(** * More on the race against the close request *)

Section gate_more.
Import manager aio.
Context `{Environment} {A : Type}.
Implicit Types (w : World A) (e : event A) (trace : list (event A)).

Lemma flag_clear_run trace : ∀ w,
  flag_of w = false → Close ∉ trace → flag_of (run trace w) = false.
Proof.
  induction trace as [|e trace IH]; intros w Hflag Hnc; [done|].
  rewrite run_cons. apply not_elem_of_cons in Hnc as [Hne Hnc].
  apply IH; [|done]. rewrite flag_of_step. by destruct e.
Qed.

(** As long as nobody calls [prevent_close], the [Event.wait()] task has
    returned only if the flag is set, and its future is resolved only if
    the flag is set. *)
Lemma wait_done_flag_step w e :
  e ≠ PreventClose →
  (wait_task w = Pending false ∨
   (wait_task w = Done (Ok true) ∧ flag_of w = true)) ∧
  (wait_fut w = Some true → flag_of w = true) →
  (wait_task (step w e) = Pending false ∨
   (wait_task (step w e) = Done (Ok true) ∧ flag_of (step w e) = true)) ∧
  (wait_fut (step w e) = Some true → flag_of (step w e) = true).
Proof.
  unfold flag_of, step, run_op_task, run_wait_task, close, Event_set.
  intros Hne [Htask Hfut]. destruct e; [| | |done];
    repeat (simpl in *; case_match; simplify_eq); simpl in *;
    intuition congruence.
Qed.

Lemma wait_done_flag_run trace : ∀ w,
  PreventClose ∉ trace →
  (wait_task w = Pending false ∨
   (wait_task w = Done (Ok true) ∧ flag_of w = true)) ∧
  (wait_fut w = Some true → flag_of w = true) →
  (wait_task (run trace w) = Pending false ∨
   (wait_task (run trace w) = Done (Ok true) ∧ flag_of (run trace w) = true)) ∧
  (wait_fut (run trace w) = Some true → flag_of (run trace w) = true).
Proof.
  induction trace as [|e trace IH]; intros w Hnp Hinv; [done|].
  rewrite run_cons. apply not_elem_of_cons in Hnp as [Hne Hnp].
  apply IH; [done|]. by apply wait_done_flag_step.
Qed.

(** A trace holds no end of the operation, or has a first one. *)
Lemma first_op_end trace :
  Forall (λ e, ¬ op_ends e) trace ∨
  ∃ pre r post,
    trace = pre ++ OpRuns (Some r) :: post ∧ Forall (λ e, ¬ op_ends e) pre.
Proof.
  induction trace as [|e trace IH]; [by left|].
  destruct e as [[r|]| | |].
  - right. by exists [], r, trace.
  - destruct IH as [Hall|(pre & r & post & -> & Hpre)].
    + left. constructor; [by intros [r ?]|done].
    + right. exists (OpRuns None :: pre), r, post. split; [done|].
      constructor; [by intros [r' ?]|done].
  - destruct IH as [Hall|(pre & r & post & -> & Hpre)].
    + left. constructor; [by intros [r ?]|done].
    + right. exists (WaitRuns :: pre), r, post. split; [done|].
      constructor; [by intros [r' ?]|done].
  - destruct IH as [Hall|(pre & r & post & -> & Hpre)].
    + left. constructor; [by intros [r ?]|done].
    + right. exists (Close :: pre), r, post. split; [done|].
      constructor; [by intros [r' ?]|done].
  - destruct IH as [Hall|(pre & r & post & -> & Hpre)].
    + left. constructor; [by intros [r ?]|done].
    + right. exists (PreventClose :: pre), r, post. split; [done|].
      constructor; [by intros [r' ?]|done].
Qed.

(** Without a close request the waiter, once it has run, sits on its
    future, which is not resolved. *)
Lemma waiter_suspended trace : ∀ w,
  flag_of w = false → wait_task w = Pending false → wait_fut w ≠ Some true →
  Close ∉ trace →
  WaitRuns ∈ trace ∨ wait_fut w = Some false →
  wait_fut (run trace w) = Some false.
Proof.
  induction trace as [|e trace IH]; intros w Hflag Htask Hfut Hnc Hran.
  - destruct Hran as [Hin|Hran]; [by apply elem_of_nil in Hin|done].
  - rewrite run_cons. apply not_elem_of_cons in Hnc as [Hne Hnc].
    destruct (no_close_keeps_waiting [e] w Hflag Htask Hfut) as [Hflag' Htask'].
    { intros Heq%list_elem_of_singleton. congruence. }
    change (run [e] w) with (step w e) in Hflag', Htask'.
    destruct (wait_runs_or_not e) as [->|Hnw].
    + assert (Hfut' : wait_fut (step w WaitRuns) = Some false).
      { unfold flag_of in Hflag. simpl. unfold run_wait_task.
        rewrite Htask, Hflag.
        destruct (wait_fut w) as [[]|] eqn:Ef; simpl; congruence. }
      apply IH; [done|done|congruence|done|by right].
    + destruct (wait_task_step w e Hnw) as [_ Hsame].
      assert (Hne' : e ≠ Close) by congruence.
      rewrite <- (Hsame Hne') in Hfut, Hran.
      apply IH; [done|done|done|done|].
      destruct Hran as [Hin|Hran]; [|by right].
      apply elem_of_cons in Hin as [Heq|Hin]; [congruence|by left].
Qed.

(** A future that [Event.set()] has resolved stays resolved, whatever
    [clear()] does to the flag, and the waiter returns [True] when it
    runs. *)
Lemma resolved_future_wakes trace : ∀ w,
  wait_fut w = Some true →
  wait_task w = Pending false ∨ wait_task w = Done (Ok true) →
  wait_fut (run trace w) = Some true ∧
  (wait_task (run trace w) = Pending false ∨
   wait_task (run trace w) = Done (Ok true)) ∧
  (WaitRuns ∈ trace → wait_task (run trace w) = Done (Ok true)).
Proof.
  induction trace as [|e trace IH]; intros w Hfut Htask.
  - split; [done|]. split; [done|]. by intros Hin%elem_of_nil.
  - rewrite run_cons.
    assert (Hstep : wait_fut (step w e) = Some true ∧
                    (wait_task (step w e) = Pending false ∨
                     wait_task (step w e) = Done (Ok true)) ∧
                    (e = WaitRuns → wait_task (step w e) = Done (Ok true))).
    { unfold step, run_op_task, run_wait_task, close, prevent_close,
        Event_set, Event_clear.
      destruct e; repeat (simpl in *; case_match; simplify_eq); simpl in *;
        intuition congruence. }
    destruct Hstep as (Hfut' & Htask' & Hwoke).
    destruct (IH _ Hfut' Htask') as (Hfut'' & Htask'' & Hin'').
    split; [done|]. split; [done|].
    intros [Heq|Hin]%elem_of_cons; [|by apply Hin''].
    apply wait_done_run. by apply Hwoke.
Qed.

(** X25.  As long as nobody calls [prevent_close], a caller that is
    resumed gets [ExitRequest] or what the operation ended with, value or
    exception: it never gets the [True] that [Event.wait()] returns, and
    the race never fails for want of a task that is done. *)
Theorem race_outcome_without_prevent_close op_first self0 trace o w' :
  PreventClose ∉ trace →
  coro_unless_closed (A := A) op_first self0 trace = Some (o, w') →
  o = Raise ExitRequest ∨
  ∃ r,
    op_task (run trace (ensure_futures self0)) = Done r ∧
    o = result_map OpValue r ∧
    flag_of w' = false.
Proof.
  intros Hnp.
  destruct (wait_done_flag_run trace (ensure_futures self0) Hnp)
    as [Htask _]; [split; [by left|done]|].
  unfold coro_unless_closed. cbv zeta.
  set (w := run trace (ensure_futures self0)) in *.
  destruct (first_completed w) eqn:Hready; [|done].
  unfold after_wait, first_completed, flag_of in *. simpl.
  destruct (_close_requested (self w)) eqn:Hflag;
    intros [= <- <-]; [by left|]. right.
  destruct Htask as [Hpend|[_ ?]]; [|done].
  rewrite Hpend in Hready |- *. simpl in Hready.
  rewrite orb_false_r in Hready.
  destruct (op_task w) as [b|r]; [done|].
  exists r. by repeat split.
Qed.

(** X26.  When the flag is clear at the call and nobody calls [close]:
    as long as the caller itself is not cancelled, it stays suspended for
    as long as the operation has not ended, and is resumed once it has,
    with what the operation ended with: its value is returned and its
    exception raised, unchanged, and the flag is clear.  When the caller
    is cancelled while suspended, the call raises [CancelledError],
    whether the operation has ended or not, and the operation's task is
    left as it was, with no cancellation requested. *)
Theorem race_without_close how op_first self0 trace :
  _close_requested self0 = false →
  Close ∉ trace →
  match how with
  | ByWait =>
      (Forall (λ e, ¬ op_ends e) trace ∧
       coro_unless_closed_call (A := A) ByWait op_first self0 trace = None) ∨
      (∃ pre r post w',
         trace = pre ++ OpRuns (Some r) :: post ∧
         Forall (λ e, ¬ op_ends e) pre ∧
         coro_unless_closed_call ByWait op_first self0 trace
         = Some (result_map OpValue r, w') ∧
         flag_of w' = false)
  | ByCancel =>
      ∃ w',
        coro_unless_closed_call (A := A) ByCancel op_first self0 trace
        = Some (Raise CancelledError, w') ∧
        flag_of w' = false ∧
        op_task w' = op_task (run trace (ensure_futures self0)) ∧
        op_task w' ≠ Pending true
  end.
Proof.
  intros Hflag Hnc.
  destruct (no_close_keeps_waiting trace (ensure_futures self0))
    as [Hflag' Hwait]; [done..|].
  destruct how; cbn [coro_unless_closed_call].
  - destruct (first_op_end trace) as [Hall|(pre & r & post & Htrace & Hpre)].
    + left. split; [exact Hall|].
      destruct (op_pending_run trace (ensure_futures self0) false Hall eq_refl)
        as [b Hb].
      unfold coro_unless_closed, first_completed. by rewrite Hb, Hwait.
    + right. exists pre, r, post.
      assert (Hop : op_task (run trace (ensure_futures self0)) = Done r).
      { rewrite Htrace, run_app, run_cons. apply op_done_run.
        destruct (op_pending_run pre (ensure_futures self0) false Hpre eq_refl)
          as [b Hb].
        by rewrite op_task_step, Hb. }
      unfold coro_unless_closed, first_completed, after_wait, flag_of in *.
      rewrite Hop, Hwait. simpl. rewrite Hflag'.
      eexists. split; [exact Htrace|]. split; [exact Hpre|].
      split; [reflexivity|]. simpl. exact Hflag'.
  - eexists. split; [reflexivity|]. split; [exact Hflag'|].
    split; [reflexivity|].
    by apply (no_cancel_requested_run trace (ensure_futures self0)).
Qed.

(** X27.  A [prevent_close] that follows a [close] does not undo the
    wake-up of the waiter: when the [Event.wait()] task was suspended at
    the [close], has run since, and the operation has not ended, the
    caller is resumed with the flag clear, the cancellation of the
    operation is requested, and the call returns [True], the value of
    [Event.wait()], as if it were the operation's. *)
Theorem prevent_close_after_close_resumes op_first self0 pre mid post :
  _close_requested self0 = false →
  Close ∉ pre → WaitRuns ∈ pre →
  Close ∉ post → WaitRuns ∈ mid ++ post →
  Forall (λ e, ¬ op_ends e) (pre ++ mid ++ post) →
  ∃ w',
    coro_unless_closed (A := A) op_first self0
      (pre ++ Close :: mid ++ PreventClose :: post)
    = Some (Ok (WaitValue true), w') ∧
    flag_of w' = false ∧
    op_task w' = Pending true.
Proof.
  intros Hflag Hncpre Hwpre Hncpost Hwrest Hall.
  set (w1 := run pre (ensure_futures self0)).
  destruct (no_close_keeps_waiting pre (ensure_futures self0))
    as [Hflag1 Hwait1]; [done..|]. fold w1 in Hflag1, Hwait1.
  assert (Hfut1 : wait_fut w1 = Some false).
  { apply waiter_suspended; [done|done|done|done|by left]. }
  set (w2 := step w1 Close).
  assert (Hw2 : wait_fut w2 = Some true ∧ wait_task w2 = Pending false).
  { unfold w2, step, close, Event_set. unfold flag_of in Hflag1.
    rewrite Hflag1. simpl. by rewrite Hfut1. }
  destruct Hw2 as [Hfut2 Hwait2].
  destruct (resolved_future_wakes (mid ++ PreventClose :: post) w2 Hfut2)
    as (_ & _ & Hwoke); [by left|].
  set (w := run (pre ++ Close :: mid ++ PreventClose :: post)
              (ensure_futures self0)).
  assert (Hw : w = run (mid ++ PreventClose :: post) w2).
  { unfold w. by rewrite run_app, run_cons. }
  assert (Hwait : wait_task w = Done (Ok true)).
  { rewrite Hw. apply Hwoke.
    apply elem_of_app in Hwrest as [Hin|Hin].
    - apply elem_of_app. by left.
    - apply elem_of_app. right. by right. }
  assert (Hflagw : flag_of w = false).
  { rewrite Hw, run_app, run_cons. apply flag_clear_run; [|done].
    by rewrite flag_of_step. }
  assert (Hop : ∃ b, op_task w = Pending b).
  { apply (op_pending_run _ (ensure_futures self0) false); [|done].
    apply Forall_app in Hall as [Hpre Hrest].
    apply Forall_app in Hrest as [Hmid Hpost].
    apply Forall_app. split; [done|].
    constructor; [by intros [r ?]|].
    apply Forall_app. split; [done|].
    constructor; [by intros [r ?]|done]. }
  destruct Hop as [b Hop].
  unfold coro_unless_closed, first_completed, after_wait, flag_of in *.
  fold w. rewrite Hop, Hwait. simpl. rewrite Hflagw.
  eexists. split; [reflexivity|]. simpl. by split.
Qed.

(** X28.  [WebUIManager.close] returns 0, leaves the flag set and writes
    nothing to the console log; a second call changes nothing. *)
Theorem close_is_idempotent w :
  (close w).1 = 0%Z ∧
  flag_of (close w).2 = true ∧
  _console_log (self (close w).2) = _console_log (self w) ∧
  close (close w).2 = close w.
Proof.
  unfold close, Event_set, flag_of. cbn [fst snd].
  destruct (_close_requested (self w)) eqn:Hflag.
  - by rewrite Hflag.
  - done.
Qed.

End gate_more.

Section gate_more_samples.
#[local] Existing Instance samples.env.

Lemma race_outcome_without_prevent_close_witness :
  let self0 := manager.__init__ (samples.twitch_excluding []) in
  let trace :=
    [aio.WaitRuns; aio.OpRuns (A := Z) (Some (Raise (KeyError "drops")))] in
  let o := (aio.after_wait true (aio.run trace (aio.ensure_futures self0))).1 in
  let w' := (aio.after_wait true (aio.run trace (aio.ensure_futures self0))).2 in
  o = Raise ExitRequest ∨
  ∃ r,
    aio.op_task (aio.run trace (aio.ensure_futures self0)) = aio.Done r ∧
    o = result_map aio.OpValue r ∧
    flag_of w' = false.
Proof.
  intros self0 trace o w'.
  apply (race_outcome_without_prevent_close true self0 trace o w').
  - intros Hin.
    apply elem_of_cons in Hin as [Heq|Hin]; [discriminate Heq|].
    apply list_elem_of_singleton in Hin. discriminate Hin.
  - reflexivity.
Defined.

Lemma race_without_close_witness :
  let self0 := manager.__init__ (samples.twitch_excluding []) in
  let trace :=
    [aio.WaitRuns; aio.OpRuns (A := Z) (Some (Raise (KeyError "drops")))] in
  ((Forall (λ e, ¬ op_ends e) trace ∧
    aio.coro_unless_closed_call aio.ByWait true self0 trace = None) ∨
   (∃ pre r post w',
      trace = pre ++ aio.OpRuns (Some r) :: post ∧
      Forall (λ e, ¬ op_ends e) pre ∧
      aio.coro_unless_closed_call aio.ByWait true self0 trace
      = Some (result_map aio.OpValue r, w') ∧
      flag_of w' = false)) ∧
  (∃ w',
     aio.coro_unless_closed_call (A := Z) aio.ByCancel true self0
       [aio.OpRuns None; aio.WaitRuns]
     = Some (Raise CancelledError, w') ∧
     aio.op_task w' ≠ aio.Pending true).
Proof.
  intros self0 trace. split.
  - apply (race_without_close aio.ByWait true self0 trace eq_refl).
    intros Hin.
    apply elem_of_cons in Hin as [Heq|Hin]; [discriminate Heq|].
    apply list_elem_of_singleton in Hin. discriminate Hin.
  - destruct (race_without_close (A := Z) aio.ByCancel true self0
                [aio.OpRuns None; aio.WaitRuns] eq_refl)
      as (w' & Hrun & _ & _ & Hop).
    + intros Hin.
      apply elem_of_cons in Hin as [Heq|Hin]; [discriminate Heq|].
      apply list_elem_of_singleton in Hin. discriminate Hin.
    + exists w'. split; [exact Hrun|exact Hop].
Defined.

Lemma prevent_close_after_close_resumes_witness :
  let self0 := manager.__init__ (samples.twitch_excluding []) in
  ∃ w',
    aio.coro_unless_closed (A := Z) true self0
      [aio.WaitRuns; aio.Close; aio.PreventClose; aio.WaitRuns]
    = Some (Ok (aio.WaitValue true), w') ∧
    flag_of w' = false ∧
    aio.op_task w' = aio.Pending true.
Proof.
  intros self0.
  apply (prevent_close_after_close_resumes true self0
           [aio.WaitRuns] [] [aio.WaitRuns] eq_refl).
  - intros Hin%list_elem_of_singleton. discriminate Hin.
  - apply list_elem_of_singleton. reflexivity.
  - intros Hin%list_elem_of_singleton. discriminate Hin.
  - apply list_elem_of_singleton. reflexivity.
  - repeat constructor; intros [r Hr]; discriminate Hr.
Defined.

End gate_more_samples.
